(** * bio-datasets: the packaging metadata and the "Test and Publish" pipeline

    The repository's executable content is its build pipeline
    ([.github/workflows/publish.yml]) and its packaging metadata
    ([pyproject.toml]).  Both are embedded here as data, next to an
    executable model of the workflow runner that interprets them: job
    gating by [needs] and [if], step sequencing inside a job, the cache and
    artifact actions, and the handful of shell commands the steps run.

    Files are kept in finite maps from normalised paths to contents; the
    outcome of every external process (network, compilers, test suite) is
    left to an oracle, so that a statement about "every run" quantifies
    over every behaviour of the outside world. *)

From Stdlib Require Import Ascii String.
From stdpp Require Import gmap strings list fin_maps.


(** ** Strings, paths and glob patterns *)

Module Text.

(** [split_on c s] cuts [s] at every occurrence of [c]; empty fields are kept. *)
Fixpoint split_on (c : ascii) (s : string) : list string :=
  match s with
  | EmptyString => [EmptyString]
  | String a s' =>
      if Ascii.eqb a c then EmptyString :: split_on c s'
      else match split_on c s' with
           | [] => [String a EmptyString]
           | w :: ws => String a w :: ws
           end
  end.

(** The first field before [c] and the rest after it, when [c] occurs. *)
Fixpoint cut_at (c : ascii) (s : string) : option (string * string) :=
  match s with
  | EmptyString => None
  | String a s' =>
      if Ascii.eqb a c then Some (EmptyString, s')
      else match cut_at c s' with
           | Some (l, r) => Some (String a l, r)
           | None => None
           end
  end.

Fixpoint concat (l : list string) : string :=
  match l with
  | [] => EmptyString
  | s :: l' => s +:+ concat l'
  end.

Definition lower_ascii (a : ascii) : ascii :=
  let n := nat_of_ascii a in
  if (65 <=? n)%nat && (n <=? 90)%nat then ascii_of_nat (n + 32) else a.

Fixpoint lower (s : string) : string :=
  match s with
  | EmptyString => EmptyString
  | String a s' => String (lower_ascii a) (lower s')
  end.

(** Does [s] end with [suf]? *)
Fixpoint ends_with (suf s : string) : bool :=
  String.eqb s suf ||
  match s with
  | EmptyString => false
  | String _ s' => ends_with suf s'
  end.

(** First binding of a key in an association list. *)
Fixpoint assoc {A} (k : string) (l : list (string * A)) : option A :=
  match l with
  | [] => None
  | (k', v) :: l' => if String.eqb k k' then Some v else assoc k l'
  end.

(** The host of a URL [scheme://host/path]. *)
Definition host (url : string) : string := nth 2 (split_on "/" url) "".

(** The words of a command line. *)
Definition words (s : string) : list string :=
  List.filter (fun w => negb (String.eqb w "")) (split_on " " s).

Fixpoint mentions (c : ascii) (s : string) : bool :=
  match s with
  | EmptyString => false
  | String a s' => Ascii.eqb a c || mentions c s'
  end.

End Text.

Module Path.

(** A path is the list of its components; ["."] and empty components
    (from [./x], [x//y] or a trailing [/]) are dropped, as the file system
    does when it resolves the name. *)
Definition keep (c : string) : bool :=
  negb (String.eqb c "") && negb (String.eqb c ".").

Definition parse (s : string) : list string :=
  List.filter keep (Text.split_on "/" s).

Definition basename (p : list string) : string := List.last p "".

Fixpoint is_prefix (d p : list string) : bool :=
  match d, p with
  | [], _ => true
  | c :: d', c' :: p' => String.eqb c c' && is_prefix d' p'
  | _ :: _, [] => false
  end.

(** [strip d p] is [p] relative to the directory [d]. *)
Fixpoint strip (d p : list string) : option (list string) :=
  match d, p with
  | [], _ => Some p
  | c :: d', c' :: p' => if String.eqb c c' then strip d' p' else None
  | _ :: _, [] => None
  end.

(** Longest common leading part of two paths, and of the directories of a
    list of paths. *)
Fixpoint common (p q : list string) : list string :=
  match p, q with
  | c :: p', c' :: q' => if String.eqb c c' then c :: common p' q' else []
  | _, _ => []
  end.

Definition dirname (p : list string) : list string := removelast p.

Definition common_dir (ps : list (list string)) : list string :=
  match ps with
  | [] => []
  | p :: ps' => fold_left common (List.map dirname ps') (dirname p)
  end.

End Path.

Module Glob.

(** One path component against one pattern component; [*] stands for any
    run of characters.  A name that begins with a dot is matched like any
    other, which is how a branch filter reads [*]; the actions that collect
    files pass such names over. *)
Fixpoint seg (pat : string) : string → bool :=
  match pat with
  | EmptyString => fun s => String.eqb s ""
  | String c pat' =>
      if Ascii.eqb c "*" then
        fix star (s : string) : bool :=
          seg pat' s ||
          match s with
          | EmptyString => false
          | String _ s' => star s'
          end
      else
        fun s =>
          match s with
          | EmptyString => false
          | String d s' => Ascii.eqb c d && seg pat' s'
          end
  end.

(** A pattern path matches a file path component by component. *)
Fixpoint path (pat p : list string) : bool :=
  match pat, p with
  | [], [] => true
  | g :: pat', c :: p' => seg g c && path pat' p'
  | _, _ => false
  end.

Definition file (pat : string) (p : list string) : bool :=
  path (Path.parse pat) p.

End Glob.

(** ** The packaging metadata: [pyproject.toml] *)

Module Pyproject.

#[warnings="-register-all"]
Inductive toml :=
| TStr (s : string)
| TInt (n : Z)
| TArr (items : list toml)
| TTab (fields : list (string * toml)).

(** The document as a list of tables, in file order. *)
Definition pyproject_toml : list (string * list (string * toml)) :=
  [ ("tool.poetry",
      [ ("name", TStr "datasets-bio");
        ("version", TStr "0.1.2");
        ("description", TStr "Fast, convenient and shareable datasets for BioML");
        ("authors", TArr [TStr "Alex Hawkins-Hooker"]);
        ("license", TStr "Apache-2.0");
        ("readme", TStr "README.md");
        ("homepage", TStr "https://github.com/bioml-tools/bio-datasets");
        ("repository", TStr "https://github.com/bioml-tools/bio-datasets");
        ("packages",
          TArr [ TTab [("include", TStr "bio_datasets"); ("from", TStr "src")];
                 TTab [("include", TStr "bio_datasets_cli"); ("from", TStr "src")] ]) ]);
    ("tool.poetry.dependencies",
      [ ("python", TStr ">=3.7");
        ("foldcomp", TStr ">=0.0.7");
        ("biotite", TStr ">=1.0.1");
        ("huggingface_hub", TStr ">=0.26.2");
        ("datasets-fast", TStr ">=3.1.3");
        ("packaging", TStr ">=23.2");
        ("pytest", TStr ">=8.2.0");
        ("Cython", TStr "3.0.11") ]);
    ("tool.poetry.scripts",
      [ ("cif2bcif", TStr "bio_datasets_cli.cif2bcif:main");
        ("cifs2bcifs", TStr "bio_datasets_cli.cif2bcif:dir_main") ]);
    ("build-system",
      [ ("requires", TArr [TStr "poetry-core>=1.0.0"]);
        ("build-backend", TStr "poetry.core.masonry.api") ]);
    ("project.source",
      [ ("name", TStr "pypi");
        ("url", TStr "https://pypi.org/simple") ]);
    ("tool.pytest.ini_options",
      [ ("addopts", TStr "-v");
        ("testpaths", TArr [TStr "tests"]) ]);
    ("tool.black",
      [ ("line-length", TInt 88);
        ("target-version", TArr [TStr "py37"]);
        ("include", TStr "\.pyi?$");
        ("extend-exclude", TStr "
/(
  \.eggs
  | \.git
  | \.hg
  | \.mypy_cache
  | \.tox
  | \.venv
  | build
  | dist
)/
") ]);
    ("tool.flake8",
      [ ("max-line-length", TInt 99);
        ("max-complexity", TInt 10);
        ("ignore", TArr [TStr "W503"; TStr "W391"; TStr "E203"]) ]) ].

Definition table (doc : list (string * list (string * toml))) (name : string)
  : list (string * toml) :=
  default [] (Text.assoc name doc).

(** A script entry is either the reference itself or a table with a
    [reference] field. *)
Definition script_ref (v : toml) : option string :=
  match v with
  | TStr s => Some s
  | TTab fields =>
      match Text.assoc "reference" fields with
      | Some (TStr s) => Some s
      | _ => None
      end
  | TInt _ | TArr _ => None
  end.

Definition refs_of (t : list (string * toml)) : list (string * string) :=
  omap (fun kv => match script_ref (snd kv) with
                  | Some r => Some (fst kv, r)
                  | None => None
                  end) t.

(** Every place a console script can be declared in: the poetry scripts
    table, the poetry plugin group [console_scripts], and the standard
    [project.scripts] table. *)
Definition console_scripts (doc : list (string * list (string * toml)))
  : list (string * string) :=
  refs_of (table doc "tool.poetry.scripts")
  ++ refs_of (table doc "tool.poetry.plugins.console_scripts")
  ++ refs_of (table doc "project.scripts").

(** An object reference [module:attribute]. *)
Definition resolve (ref : string) : option (string * string) :=
  Text.cut_at ":" ref.

Definition entry_points (doc : list (string * list (string * toml)))
  : list (string * option (string * string)) :=
  List.map (fun kv => (fst kv, resolve (snd kv))) (console_scripts doc).





End Pyproject.

(** ** Workflow syntax *)

Module Syntax.

(** String-valued expressions of the [${{ }}] language, as far as the
    workflow uses it. *)
Inductive sexpr :=
| Lit (s : string)
| Ctx (name : list string)
| HashFiles (pattern : string).

(** Conditions ([if:]). *)
Inductive cond :=
| Eq (a b : sexpr)
| Ne (a b : sexpr)
| And (c d : cond).

(** A [with:] value: literal text with embedded expressions. *)
Inductive piece :=
| Txt (s : string)
| Exp (e : sexpr).

Inductive action :=
| Run (script : list string)
| Uses (what : string) (args : list (string * list piece)).

Record step := Step {
  step_name : option string;
  step_id : option string;
  step_if : option cond;
  step_do : action
}.

Record job := Job {
  job_id : string;
  job_name : option string;
  job_if : option cond;
  job_needs : list string;
  job_steps : list step
}.

Inductive trigger :=
| OnPullRequest (branches : list string)
| OnRelease (types : list string)
| OnWorkflowDispatch.

Record workflow := Workflow {
  wf_name : string;
  wf_on : list trigger;
  wf_jobs : list job
}.

Global Instance sexpr_eq_dec : EqDecision sexpr.
Proof. solve_decision. Defined.
Global Instance cond_eq_dec : EqDecision cond.
Proof. solve_decision. Defined.
Global Instance piece_eq_dec : EqDecision piece.
Proof. solve_decision. Defined.
Global Instance action_eq_dec : EqDecision action.
Proof. solve_decision. Defined.
Global Instance step_eq_dec : EqDecision step.
Proof. solve_decision. Defined.

Definition txt (s : string) : list piece := [Txt s].
Definition uses (what : string) (args : list (string * list piece)) : step :=
  Step None None None (Uses what args).
Definition named (n : string) (a : action) : step :=
  Step (Some n) None None a.

End Syntax.

(** ** [.github/workflows/publish.yml] *)

Module Publish.
Import Syntax.

(** Steps are listed under the name they have in the file; the steps the
    file leaves unnamed are called after their action. *)

Definition checkout_v3 : step := uses "actions/checkout@v3" [].
Definition setup_python_v3 : step := uses "actions/setup-python@v3" [].
Definition pre_commit_action : step := uses "pre-commit/action@v3.0.1" [].

Definition pre_commit : job :=
  Job "pre-commit" None None []
    [ checkout_v3; setup_python_v3; pre_commit_action ].

Definition checkout : step := uses "actions/checkout@v4" [].

Definition setup_python : step :=
  uses "actions/setup-python@v5"
    [ ("python-version", txt "3.11");
      ("cache", txt "pip");
      ("cache-dependency-path", txt "**/pyproject.toml") ].

Definition install_dependencies : step :=
  named "Install dependencies"
    (Run [ "python -m pip install --upgrade pip";
           "pip install -e .";
           "python build_cython.py" ]).

Definition get_ccd : step :=
  named "Get current CCD for hashing"
    (Run ["wget -P ./src/bio_datasets/structure/library/ https://files.wwpdb.org/pub/pdb/data/monomers/components.cif.gz"]).

Definition get_ccd_freq : step :=
  named "Get current CCD frequency file for hashing"
    (Run ["wget -P ./src/bio_datasets/structure/library/ http://ligand-expo.rcsb.org/dictionaries/cc-counts.tdd"]).

Definition cache_key : list piece :=
  [ Txt "cache-"; Exp (HashFiles "setup_ccd.py");
    Txt "-"; Exp (HashFiles "./src/bio_datasets/structure/library/components.cif.gz");
    Txt "-"; Exp (HashFiles "./src/bio_datasets/structure/library/cc-counts.tdd") ].

Definition cache_ccd : step :=
  Step (Some "Cache CCD") (Some "cache-ccd") None
    (Uses "actions/cache@v4"
       [ ("path", txt "./src/bio_datasets/structure/library/");
         ("key", cache_key) ]).

Definition build_internal_ccd : step :=
  Step (Some "Build internal CCD") None
    (Some (Ne (Ctx ["steps"; "cache-ccd"; "outputs"; "cache-hit"]) (Lit "true")))
    (Run ["python setup_ccd.py"]).

Definition remove_unprocessed_ccd : step :=
  named "Remove unprocessed CCD"
    (Run ["rm ./src/bio_datasets/structure/library/components.cif.gz"]).

Definition install_build_backend : step :=
  named "Install build backend" (Run ["pip install build"]).

Definition build_distribution : step :=
  named "Build distribution" (Run ["python -m build --wheel"]).

Definition upload_wheel : step :=
  named "Upload wheel"
    (Uses "actions/upload-artifact@v4"
       [ ("name", txt "internal-build"); ("path", txt "./dist/*.whl") ]).

Definition upload_ccd : step :=
  named "Upload CCD"
    (Uses "actions/upload-artifact@v4"
       [ ("name", txt "ccd");
         ("path", txt "./src/bio_datasets/structure/library/components.bcif") ]).

Definition upload_ccd_freq : step :=
  named "Upload CCD frequency file"
    (Uses "actions/upload-artifact@v4"
       [ ("name", txt "ccd_freq");
         ("path", txt "./src/bio_datasets/structure/library/cc-counts.tdd") ]).

Definition upload_ccd_res_dict : step :=
  named "Upload CCD residue dictionary"
    (Uses "actions/upload-artifact@v4"
       [ ("name", txt "ccd_res_dict");
         ("path", txt "./src/bio_datasets/structure/library/ccd_residue_dictionary.json") ]).

Definition test : step := named "Test" (Run ["pytest"]).

Definition build_internal : job :=
  Job "build-internal" (Some "Build and test") None []
    [ checkout; setup_python; install_dependencies;
      get_ccd; get_ccd_freq; cache_ccd; build_internal_ccd;
      remove_unprocessed_ccd; install_build_backend; build_distribution;
      upload_wheel; upload_ccd; upload_ccd_freq; upload_ccd_res_dict;
      test ].

Definition add_ccd : step :=
  named "Add internal CCD to bio_datasets"
    (Uses "actions/download-artifact@v4"
       [ ("name", txt "ccd"); ("path", txt "src/bio_datasets/structure/library/") ]).

Definition add_ccd_freq : step :=
  named "Add internal CCD frequency file to bio_datasets"
    (Uses "actions/download-artifact@v4"
       [ ("name", txt "ccd_freq"); ("path", txt "src/bio_datasets/structure/library/") ]).

Definition add_ccd_res_dict : step :=
  named "Add internal CCD residue dictionary to bio_datasets"
    (Uses "actions/download-artifact@v4"
       [ ("name", txt "ccd_res_dict"); ("path", txt "src/bio_datasets/structure/library/") ]).

Definition build_source_distribution : step :=
  named "Build source distribution" (Run ["pipx run build --sdist"]).

Definition upload_sdist : step :=
  uses "actions/upload-artifact@v4"
    [ ("name", txt "release-sdist"); ("path", txt "dist//*.tar.gz") ].

Definition clean_dist : step := named "Clean dist directory" (Run ["rm -rf dist"]).

Definition sdist : job :=
  Job "sdist" (Some "Build source distribution for release") None
    ["pre-commit"; "build-internal"]
    [ checkout; add_ccd; add_ccd_freq; add_ccd_res_dict;
      build_source_distribution; upload_sdist; clean_dist ].

Definition download_release : step :=
  uses "actions/download-artifact@v4"
    [ ("pattern", txt "release-*");
      ("merge-multiple", txt "true");
      ("path", txt "dist") ].

Definition list_distributions : step :=
  named "List distributions to be uploaded" (Run ["ls dist"]).

Definition upload_to_github_releases : step :=
  named "Upload to GitHub Releases"
    (Uses "softprops/action-gh-release@v2.0.5" [ ("files", txt "dist//*") ]).

Definition upload_to_pypi : step :=
  named "Upload to PyPI" (Uses "pypa/gh-action-pypi-publish@release/v1" []).

Definition upload_package : job :=
  Job "upload-package" (Some "Upload package to GitHub Releases & PyPI]")
    (Some (And (Eq (Ctx ["github"; "event_name"]) (Lit "release"))
               (Eq (Ctx ["github"; "event"; "action"]) (Lit "published"))))
    ["build-internal"; "sdist"]
    [ download_release; list_distributions;
      upload_to_github_releases; upload_to_pypi ].

Definition publish_yml : workflow :=
  Workflow "Test and Publish"
    [ OnPullRequest ["main"]; OnRelease ["published"]; OnWorkflowDispatch ]
    [ pre_commit; build_internal; sdist; upload_package ].

End Publish.

(** ** The runner *)

Module Runner.
Import Syntax.

(** A file is a blob of bytes or a built distribution, of which only the
    list of packed members matters here. *)
Inductive content :=
| Blob (bytes : string)
| Pkg (members : list (list string)).

Abbreviation files := (gmap (list string) content).

Record event := Event {
  ev_name : string;
  ev_action : string;
  ev_base : string
}.

(** What outlives a job: the artifacts of the workflow run, the
    repository's cache entries, the assets of the release and the files
    on the package index. *)
Record world := World {
  artifacts : gmap string files;
  caches : gmap string files;
  release_assets : gmap string content;
  pypi_files : gmap string content
}.

(** What a job's runner holds: the workspace, the outputs of the steps run
    so far, and the cache entries to save when the job ends. *)
Record runner := Runner {
  ws : files;
  outs : gmap (string * string) string;
  saves : list (string * list string)
}.

(** The outside world.  [exit_ok j i n] tells whether the external process
    started by line [n] of step [i] of job [j] ends well. *)
Record env := Env {
  event_of : event;
  repo : files;
  exit_ok : string → nat → nat → bool;
  fetch : string → string;
  effect : list string → files → files;
  packaged : list string → bool;
  wheel_stem : string;
  sdist_stem : string;
  digest : content → string
}.

(** *** Operations on file maps *)

Definition has (p : list string) (w : files) : bool :=
  match w !! p with Some _ => true | None => false end.
Definition write (p : list string) (c : content) (w : files) : files := <[p := c]> w.
Definition remove (p : list string) (w : files) : files := delete p w.
Definition under (d : list string) (w : files) : files :=
  filter (fun kv => Is_true (Path.is_prefix d (fst kv))) w.
Definition outside (d : list string) (w : files) : files :=
  filter (fun kv => ¬ Is_true (Path.is_prefix d (fst kv))) w.
Definition matching (pat : string) (w : files) : files :=
  filter (fun kv => Is_true (Glob.file pat (fst kv))) w.
Definition overlay (new old : files) : files := new ∪ old.
Definition is_empty (w : files) : bool :=
  match map_to_list w with [] => true | _ :: _ => false end.
Definition names (w : files) : list (list string) := List.map fst (map_to_list w).

(** The same contents under new names. *)
Definition rekey {K} `{Countable K} (f : list string → K) (w : files) : gmap K content :=
  list_to_map (List.map (fun kv => (f (fst kv), snd kv)) (map_to_list w)).

Definition by_name (w : files) : gmap string content := rekey Path.basename w.

Global Arguments has : simpl never.
Global Arguments write : simpl never.
Global Arguments remove : simpl never.
Global Arguments under : simpl never.
Global Arguments outside : simpl never.
Global Arguments matching : simpl never.
Global Arguments overlay : simpl never.
Global Arguments is_empty : simpl never.
Global Arguments names : simpl never.
Global Arguments rekey : simpl never.
Global Arguments by_name : simpl never.

(** Step outputs. *)
Definition set_out (id name value : string) (o : gmap (string * string) string)
  : gmap (string * string) string :=
  <[(id, name) := value]> o.
Definition get_out (id name : string) (o : gmap (string * string) string) : string :=
  default "" (o !! (id, name)).
Global Arguments set_out : simpl never.
Global Arguments get_out : simpl never.

(** *** Expressions *)

Definition ctx (e : env) (r : runner) (name : list string) : string :=
  match name with
  | [a; b] =>
      if String.eqb a "github" && String.eqb b "event_name"
      then ev_name (event_of e) else ""
  | [a; b; c] =>
      if String.eqb a "github" && String.eqb b "event" && String.eqb c "action"
      then ev_action (event_of e) else ""
  | [a; id; c; o] =>
      if String.eqb a "steps" && String.eqb c "outputs"
      then get_out id o (outs r) else ""
  | _ => ""
  end.

(** [hashFiles]: the digest of the digests of the matching files, and the
    empty string when no file matches. *)
Definition hashFiles (e : env) (pat : string) (w : files) : string :=
  match map_to_list (matching pat w) with
  | [] => ""
  | l => digest e (Blob (Text.concat (List.map (fun kv => digest e (snd kv)) l)))
  end.
Global Arguments hashFiles : simpl never.

Definition eval_s (e : env) (r : runner) (x : sexpr) : string :=
  match x with
  | Lit s => s
  | Ctx name => ctx e r name
  | HashFiles pat => hashFiles e pat (ws r)
  end.

(** String comparison ignores case. *)
Definition same (a b : string) : bool := String.eqb (Text.lower a) (Text.lower b).

Fixpoint eval_c (e : env) (r : runner) (c : cond) : bool :=
  match c with
  | Eq a b => same (eval_s e r a) (eval_s e r b)
  | Ne a b => negb (same (eval_s e r a) (eval_s e r b))
  | And c d => eval_c e r c && eval_c e r d
  end.

Definition holds (e : env) (r : runner) (c : option cond) : bool :=
  match c with
  | None => true
  | Some c => eval_c e r c
  end.

Definition eval_piece (e : env) (r : runner) (p : piece) : string :=
  match p with
  | Txt s => s
  | Exp x => eval_s e r x
  end.

Definition eval_pieces (e : env) (r : runner) (ps : list piece) : string :=
  Text.concat (List.map (eval_piece e r) ps).

Definition arg (e : env) (r : runner) (args : list (string * list piece)) (k : string)
  : option string :=
  match Text.assoc k args with
  | Some ps => Some (eval_pieces e r ps)
  | None => None
  end.

(** *** Shell commands *)

(** The members a build backend packs: the workspace files it selects. *)
Definition pack (e : env) (w : files) : content :=
  Pkg (List.filter (packaged e) (names w)).
Global Arguments pack : simpl never.

(** The commands the scripts use.
    - [rm -rf d] empties a directory and never fails; [rm p] fails when
      there is no such file;
    - [wget -P d url] stores the body as [d/basename url];
    - the two [build] invocations add the wheel, respectively the source
      distribution, to [dist/];
    - [pytest], [pip install build] and [ls] leave the workspace as it is;
    - any other program is one of the repository's own ([pip install -e .],
      [build_cython.py], [setup_ccd.py]): its effect on the workspace is
      the oracle's. *)
Inductive command :=
| RmRf (d : list string)
| Rm (p : list string)
| Wget (d : list string) (url : string)
| BuildWheel
| BuildSdist
| Quiet
| Program (argv : list string).

Definition parse_command (line : string) : command :=
  let argv := Text.words line in
  match Path.strip ["rm"; "-rf"] argv with
  | Some [d] => RmRf (Path.parse d)
  | _ =>
  match Path.strip ["rm"] argv with
  | Some [p] => Rm (Path.parse p)
  | _ =>
  match Path.strip ["wget"; "-P"] argv with
  | Some [d; url] => Wget (Path.parse d) url
  | _ =>
  match Path.strip ["python"; "-m"; "build"; "--wheel"] argv with
  | Some [] => BuildWheel
  | _ =>
  match Path.strip ["pipx"; "run"; "build"; "--sdist"] argv with
  | Some [] => BuildSdist
  | _ =>
  match Path.strip ["pytest"] argv with
  | Some [] => Quiet
  | _ =>
  match Path.strip ["pip"; "install"; "build"] argv with
  | Some [] => Quiet
  | _ =>
  match Path.strip ["ls"] argv with
  | Some [_] => Quiet
  | _ => Program argv
  end end end end end end end end.

Definition run_command (e : env) (j : string) (i n : nat) (c : command) (w : files)
  : option files :=
  match c with
  | RmRf d => Some (outside d w)
  | Rm p => if has p w then Some (remove p w) else None
  | Wget d url =>
      if exit_ok e j i n
      then Some (write (d ++ [Path.basename (Path.parse url)]) (Blob (fetch e url)) w)
      else None
  | BuildWheel =>
      if exit_ok e j i n
      then Some (write ["dist"; wheel_stem e +:+ ".whl"] (pack e w) w)
      else None
  | BuildSdist =>
      if exit_ok e j i n
      then Some (write ["dist"; sdist_stem e +:+ ".tar.gz"] (pack e w) w)
      else None
  | Quiet => if exit_ok e j i n then Some w else None
  | Program argv => if exit_ok e j i n then Some (effect e argv w) else None
  end.

Definition sh (e : env) (j : string) (i n : nat) (line : string) (w : files)
  : option files :=
  run_command e j i n (parse_command line) w.

(** A script stops at the first line that fails. *)
Fixpoint script (e : env) (j : string) (i n : nat) (lines : list string) (w : files)
  : option files :=
  match lines with
  | [] => Some w
  | l :: lines' =>
      match sh e j i n l w with
      | Some w' => script e j i (S n) lines' w'
      | None => None
      end
  end.

(** *** Actions *)

(** The directory an uploaded artifact is rooted at: the part of the
    search path before its first wildcard, and the parent directory when
    the path names a single file. *)
Fixpoint literal_part (cs : list string) : list string :=
  match cs with
  | [] => []
  | c :: cs' => if Text.mentions "*" c then [] else c :: literal_part cs'
  end.

Definition art_root (pat : string) : list string :=
  let cs := Path.parse pat in
  let lit := literal_part cs in
  if (length lit =? length cs)%nat then Path.dirname cs else lit.

Definition with_ws (r : runner) (w : files) : runner :=
  Runner w (outs r) (saves r).

Definition with_artifacts (wd : world) (a : gmap string files) : world :=
  World a (caches wd) (release_assets wd) (pypi_files wd).

Definition cache_find (key : string) (wd : world) : option files := caches wd !! key.
Definition artifact_find (name : string) (wd : world) : option files := artifacts wd !! name.
Definition artifact_put (name : string) (fs : files) (wd : world) : world :=
  with_artifacts wd (<[name := fs]> (artifacts wd)).
Global Arguments cache_find : simpl never.
Global Arguments artifact_find : simpl never.
Global Arguments artifact_put : simpl never.

(** [actions/cache]: an exact hit restores the saved files over the
    workspace and reports ['true']; a miss reports nothing and schedules
    the save.  The step itself does not fail. *)
Definition cache_action (e : env) (id : string) (args : list (string * list piece))
    (r : runner) (wd : world) : option runner * world :=
  let key := default "" (arg e r args "key") in
  let dir := Path.parse (default "" (arg e r args "path")) in
  match cache_find key wd with
  | Some saved =>
      (Some (Runner (overlay saved (ws r)) (set_out id "cache-hit" "true" (outs r)) (saves r)), wd)
  | None =>
      (Some (Runner (ws r) (set_out id "cache-hit" "" (outs r)) ((key, dir) :: saves r)), wd)
  end.

(** [actions/upload-artifact]: nothing is stored when no file matches
    (a warning only); a name can be used once per run. *)
Definition upload_action (e : env) (j : string) (i : nat) (args : list (string * list piece))
    (r : runner) (wd : world) : option runner * world :=
  let name := default "artifact" (arg e r args "name") in
  let pat := default "" (arg e r args "path") in
  let found := matching pat (ws r) in
  if negb (exit_ok e j i 0) then (None, wd)
  else if is_empty found then (Some r, wd)
  else match artifact_find name wd with
       | Some _ => (None, wd)
       | None =>
           (Some r, artifact_put name (rekey (drop (length (art_root pat))) found) wd)
       end.

(** The artifacts whose name matches a pattern, each under its own
    directory unless [merge-multiple] is set. *)
Definition merged (pat : string) (merge : bool) (a : gmap string files) : files :=
  union_list
    (List.map (fun kv => if merge then snd kv else rekey (cons (fst kv)) (snd kv))
       (map_to_list (filter (fun kv => Is_true (Glob.seg pat (fst kv))) a))).
Global Arguments merged : simpl never.

(** [actions/download-artifact]: by name (failing when there is no such
    artifact) or by pattern. *)
Definition download_action (e : env) (j : string) (i : nat) (args : list (string * list piece))
    (r : runner) (wd : world) : option runner * world :=
  let dest := Path.parse (default "" (arg e r args "path")) in
  if negb (exit_ok e j i 0) then (None, wd)
  else match arg e r args "name" with
       | Some name =>
           match artifact_find name wd with
           | Some fs => (Some (with_ws r (overlay (rekey (app dest) fs) (ws r))), wd)
           | None => (None, wd)
           end
       | None =>
           let pat := default "*" (arg e r args "pattern") in
           let merge := same (default "false" (arg e r args "merge-multiple")) "true" in
           (Some (with_ws r (overlay (rekey (app dest) (merged pat merge (artifacts wd))) (ws r))), wd)
       end.

(** [softprops/action-gh-release]: the files matching [files] become
    assets of the release. *)
Definition release_action (e : env) (j : string) (i : nat) (args : list (string * list piece))
    (r : runner) (wd : world) : option runner * world :=
  let pat := default "" (arg e r args "files") in
  if exit_ok e j i 0
  then (Some r, World (artifacts wd) (caches wd)
                      (by_name (matching pat (ws r)) ∪ release_assets wd) (pypi_files wd))
  else (None, wd).

(** [pypa/gh-action-pypi-publish]: the files of [packages-dir]
    (by default [dist]) go to the index. *)
Definition pypi_action (e : env) (j : string) (i : nat) (args : list (string * list piece))
    (r : runner) (wd : world) : option runner * world :=
  let dir := Path.parse (default "dist" (arg e r args "packages-dir")) in
  if exit_ok e j i 0
  then (Some r, World (artifacts wd) (caches wd) (release_assets wd)
                      (by_name (under dir (ws r)) ∪ pypi_files wd))
  else (None, wd).

(** The action's name without its version. *)
Definition action_name (what : string) : string :=
  match Text.cut_at "@" what with
  | Some (n, _) => n
  | None => what
  end.

Definition act (e : env) (j : string) (i : nat) (id : string) (what : string)
    (args : list (string * list piece)) (r : runner) (wd : world) : option runner * world :=
  let n := action_name what in
  if String.eqb n "actions/checkout" then
    if exit_ok e j i 0 then (Some (with_ws r (repo e)), wd) else (None, wd)
  else if String.eqb n "actions/cache" then cache_action e id args r wd
  else if String.eqb n "actions/upload-artifact" then upload_action e j i args r wd
  else if String.eqb n "actions/download-artifact" then download_action e j i args r wd
  else if String.eqb n "softprops/action-gh-release" then release_action e j i args r wd
  else if String.eqb n "pypa/gh-action-pypi-publish" then pypi_action e j i args r wd
  else if exit_ok e j i 0 then (Some r, wd) else (None, wd).

Definition exec (e : env) (j : string) (i : nat) (s : step) (r : runner) (wd : world)
  : option runner * world :=
  match step_do s with
  | Run lines =>
      match script e j i 0 lines (ws r) with
      | Some w => (Some (with_ws r w), wd)
      | None => (None, wd)
      end
  | Uses what args => act e j i (default "" (step_id s)) what args r wd
  end.

(** *** Steps and jobs *)

Inductive outcome := Passed | Failed | Skipped.

(** One line of a job's log: the step, what became of it, and the state
    before and after it. *)
Record entry := Entry {
  e_step : step;
  e_outcome : outcome;
  e_runner : runner;
  e_world : world;
  e_runner' : runner;
  e_world' : world
}.

(** Steps run in order.  A step runs when no earlier step has failed and
    its own condition holds; a step that fails fails the job, and the
    steps after it are skipped. *)
Fixpoint run_steps (e : env) (j : string) (i : nat) (ok : bool) (ss : list step)
    (r : runner) (wd : world) : list entry * (bool * (runner * world)) :=
  match ss with
  | [] => ([], (ok, (r, wd)))
  | s :: ss' =>
      if ok && holds e r (step_if s) then
        match exec e j i s r wd with
        | (Some r', wd') =>
            let rest := run_steps e j (S i) true ss' r' wd' in
            (Entry s Passed r wd r' wd' :: fst rest, snd rest)
        | (None, wd') =>
            let rest := run_steps e j (S i) false ss' r wd' in
            (Entry s Failed r wd r wd' :: fst rest, snd rest)
        end
      else
        let rest := run_steps e j (S i) ok ss' r wd in
        (Entry s Skipped r wd r wd :: fst rest, snd rest)
  end.

(** A [with:] value read without evaluating expressions. *)
Definition plain (ps : list piece) : string :=
  Text.concat (List.map (fun p => match p with Txt s => s | Exp _ => "" end) ps).

(** The artifacts a job moves with the given action: name and path. *)
Definition transfers (action : string) (jb : job) : list (string * list string) :=
  omap (fun s =>
          match step_do s with
          | Uses what args =>
              if String.eqb (action_name what) action then
                match Text.assoc "name" args, Text.assoc "path" args with
                | Some n, Some p => Some (plain n, Path.parse (plain p))
                | _, _ => None
                end
              else None
          | Run _ => None
          end) (job_steps jb).

Definition uploads : job → list (string * list string) := transfers "actions/upload-artifact".

(** A step ran (it passed or failed), respectively passed, in a log. *)
Definition ran (s : step) (tr : list entry) : Prop :=
  ∃ en, en ∈ tr ∧ e_step en = s ∧ e_outcome en ≠ Skipped.

Definition passed (s : step) (tr : list entry) : Prop :=
  ∃ en, en ∈ tr ∧ e_step en = s ∧ e_outcome en = Passed.

(** The same as a test on the log. *)
Definition did_run (s : step) (tr : list entry) : bool :=
  existsb (fun en => bool_decide (e_step en = s)
                     && match e_outcome en with Skipped => false | _ => true end) tr.

(** [s] passed on a line of the log before the line on which [s'] ran. *)
Definition precedes (s s' : step) (tr : list entry) : Prop :=
  ∃ i k a b, (i < k)%nat ∧ tr !! i = Some a ∧ tr !! k = Some b
             ∧ e_step a = s ∧ e_outcome a = Passed
             ∧ e_step b = s' ∧ e_outcome b ≠ Skipped.

(** The commands of a [run:] step. *)
Definition commands (s : step) : list command :=
  match step_do s with
  | Run lines => List.map parse_command lines
  | Uses _ _ => []
  end.

(** The steps that publish: the release action and the index action. *)
Definition publishes (s : step) : bool :=
  match step_do s with
  | Uses what _ =>
      String.eqb (action_name what) "softprops/action-gh-release"
      || String.eqb (action_name what) "pypa/gh-action-pypi-publish"
  | Run _ => false
  end.

(** What a world shows to the public. *)
Definition public (wd : world) : gmap string content * gmap string content :=
  (release_assets wd, pypi_files wd).

(** The post step of [actions/cache], run when the job has succeeded: each
    scheduled key that is still free receives the files of its directory. *)
Definition save_one (w : files) (kd : string * list string) (wd : world) : world :=
  match cache_find (fst kd) wd with
  | Some _ => wd
  | None =>
      World (artifacts wd) (<[fst kd := under (snd kd) w]> (caches wd))
            (release_assets wd) (pypi_files wd)
  end.

Definition save_caches (r : runner) (wd : world) : world :=
  fold_right (save_one (ws r)) wd (saves r).

Inductive verdict := Success | Failure | NotRun.

Definition fresh : runner := Runner ∅ ∅ [].

Definition job_trace (e : env) (jb : job) (wd : world) : list entry :=
  fst (run_steps e (job_id jb) 0 true (job_steps jb) fresh wd).

Definition run_job (e : env) (jb : job) (wd : world) : (verdict * list entry) * world :=
  let res := run_steps e (job_id jb) 0 true (job_steps jb) fresh wd in
  let fin := snd res in
  if fst fin
  then ((Success, fst res), save_caches (fst (snd fin)) (snd (snd fin)))
  else ((Failure, fst res), snd (snd fin)).

(** *** The workflow *)

(** The activity types of a pull request that start a workflow whose
    [pull_request] trigger lists no [types]. *)
Definition pull_request_types : list string := ["opened"; "synchronize"; "reopened"].

Definition fires (ev : event) (t : trigger) : bool :=
  match t with
  | OnPullRequest branches =>
      String.eqb (ev_name ev) "pull_request"
      && existsb (String.eqb (ev_action ev)) pull_request_types
      && existsb (fun b => Glob.seg b (ev_base ev)) branches
  | OnRelease types =>
      String.eqb (ev_name ev) "release" && existsb (String.eqb (ev_action ev)) types
  | OnWorkflowDispatch => String.eqb (ev_name ev) "workflow_dispatch"
  end.

Definition succeeded (v : verdict) : bool :=
  match v with Success => true | _ => false end.

Definition verdict_of (log : list (string * (verdict * list entry))) (n : string) : verdict :=
  match Text.assoc n log with
  | Some (v, _) => v
  | None => NotRun
  end.

Definition trace_of (log : list (string * (verdict * list entry))) (n : string) : list entry :=
  match Text.assoc n log with
  | Some (_, t) => t
  | None => []
  end.

(** A job runs when every job it needs has succeeded and its condition
    holds; otherwise it is skipped, and so is whatever needs it. *)
Definition ready (e : env) (log : list (string * (verdict * list entry))) (jb : job) : bool :=
  forallb (fun n => succeeded (verdict_of log n)) (job_needs jb)
  && holds e fresh (job_if jb).

(** Jobs are taken in file order, which lists every job after the jobs it
    needs.  ([pre-commit] and [build-internal] may run side by side; the
    former touches nothing the latter reads.) *)
Fixpoint run_jobs (e : env) (log : list (string * (verdict * list entry)))
    (js : list job) (wd : world) : list (string * (verdict * list entry)) * world :=
  match js with
  | [] => (log, wd)
  | jb :: js' =>
      if ready e log jb then
        let res := run_job e jb wd in
        run_jobs e ((job_id jb, fst res) :: log) js' (snd res)
      else run_jobs e ((job_id jb, (NotRun, [])) :: log) js' wd
  end.

(** A workflow run starts with no artifacts; caches, release assets and
    the package index are what earlier runs left. *)
Definition run_workflow (e : env) (wf : workflow) (wd : world)
  : list (string * (verdict * list entry)) * world :=
  if existsb (fires (event_of e)) (wf_on wf)
  then run_jobs e [] (wf_jobs wf) (with_artifacts wd ∅)
  else ([], wd).

End Runner.

(** ** Logs *)

Module Trace.
Import Syntax Runner.

Section Run.
Context (e : env) (j : string).

(** The log of a job, as a relation: what [run_steps] computes. *)
Inductive run : nat → bool → list step → runner → world →
                list entry → bool → runner → world → Prop :=
| run_nil i ok r wd : run i ok [] r wd [] ok r wd
| run_pass i s ss r wd r' wd' tr ok' rf wf
    (Hif : holds e r (step_if s) = true)
    (Hexec : exec e j i s r wd = (Some r', wd'))
    (Hrest : run (S i) true ss r' wd' tr ok' rf wf) :
    run i true (s :: ss) r wd (Entry s Passed r wd r' wd' :: tr) ok' rf wf
| run_fail i s ss r wd wd' tr ok' rf wf
    (Hif : holds e r (step_if s) = true)
    (Hexec : exec e j i s r wd = (None, wd'))
    (Hrest : run (S i) false ss r wd' tr ok' rf wf) :
    run i true (s :: ss) r wd (Entry s Failed r wd r wd' :: tr) ok' rf wf
| run_skip i ok s ss r wd tr ok' rf wf
    (Hif : ok && holds e r (step_if s) = false)
    (Hrest : run (S i) ok ss r wd tr ok' rf wf) :
    run i ok (s :: ss) r wd (Entry s Skipped r wd r wd :: tr) ok' rf wf.

(** The state a job is in after a run of steps none of which fails: each
    step either passes or is skipped by its own condition. *)
Fixpoint reach (i : nat) (ss : list step) (r : runner) (wd : world)
  : option (runner * world) :=
  match ss with
  | [] => Some (r, wd)
  | s :: ss' =>
      if holds e r (step_if s) then
        match exec e j i s r wd with
        | (Some r', wd') => reach (S i) ss' r' wd'
        | (None, _) => None
        end
      else reach (S i) ss' r wd
  end.

End Run.

End Trace.

(** ** The files, artifacts and states of the pipeline *)

Module Pipeline.
Import Syntax Runner Publish.

(** The files the pipeline handles. *)
Definition lib : list string := ["src"; "bio_datasets"; "structure"; "library"].
Definition raw_ccd : list string :=
  ["src"; "bio_datasets"; "structure"; "library"; "components.cif.gz"].
Definition ccd_freq : list string :=
  ["src"; "bio_datasets"; "structure"; "library"; "cc-counts.tdd"].
Definition ccd : list string :=
  ["src"; "bio_datasets"; "structure"; "library"; "components.bcif"].
Definition ccd_res_dict : list string :=
  ["src"; "bio_datasets"; "structure"; "library"; "ccd_residue_dictionary.json"].
Definition ccd_url : string :=
  "https://files.wwpdb.org/pub/pdb/data/monomers/components.cif.gz".
Definition ccd_freq_url : string :=
  "http://ligand-expo.rcsb.org/dictionaries/cc-counts.tdd".
(** A workspace after the two downloads. *)
Definition downloaded (e : env) (w : files) : files :=
  write ccd_freq (Blob (fetch e ccd_freq_url)) (write raw_ccd (Blob (fetch e ccd_url)) w).

(** Modelled from the spec: [setup_ccd.py], the script that processes the
    CCD, is not among the sources.  The spec names what it builds from
    [components.cif.gz] and bundles with the package: [components.bcif] and
    [ccd_residue_dictionary.json], next to [cc-counts.tdd], which it leaves
    in place. *)
Definition processing_ok (e : env) : Prop :=
  ∀ w : files,
    is_Some (effect e ["python"; "setup_ccd.py"] w !! ccd)
    ∧ is_Some (effect e ["python"; "setup_ccd.py"] w !! ccd_res_dict)
    ∧ (is_Some (w !! ccd_freq) → is_Some (effect e ["python"; "setup_ccd.py"] w !! ccd_freq)).

(** Every cache entry holds the processed dictionaries. *)
Definition cache_holds_outputs (wd : world) : Prop :=
  ∀ key fs, caches wd !! key = Some fs →
            is_Some (fs !! ccd) ∧ is_Some (fs !! ccd_res_dict).

(** The artifacts the [build-internal] job uploads. *)
Definition internal_artifacts : list string :=
  ["internal-build"; "ccd"; "ccd_freq"; "ccd_res_dict"].

(** What the artifacts of the [build-internal] job look like: the wheels of
    [dist/], and one file each for the other three. *)
Definition internal_shape (name : string) (fs : files) : Prop :=
  (name = "internal-build"
   ∧ ∀ q c, fs !! q = Some c → ∃ x, q = [x] ∧ Text.ends_with ".whl" x = true)
  ∨ (name = "ccd" ∧ ∃ c, fs = {[ ["components.bcif"] := c ]})
  ∨ (name = "ccd_freq" ∧ ∃ c, fs = {[ ["cc-counts.tdd"] := c ]})
  ∨ (name = "ccd_res_dict" ∧ ∃ c, fs = {[ ["ccd_residue_dictionary.json"] := c ]}).

(** The artifacts a world has got since [wd0] all satisfy [P]. *)
Definition artifacts_since (P : string → files → Prop) (wd0 wd : world) : Prop :=
  ∀ name fs, artifacts wd0 !! name = None → artifacts wd !! name = Some fs → P name fs.

(** The three build outputs that go into the package. *)
Definition bundled : list (list string) := [ccd; ccd_freq; ccd_res_dict].

(** No file of the set is called [components.cif.gz]. *)
Definition without_raw_ccd (fs : files) : Prop :=
  ∀ q c, fs !! q = Some c → Path.basename q ≠ "components.cif.gz".

(** The files of an artifact are source distributions of [dist/]. *)
Definition source_only (fs : files) : Prop :=
  ∀ q c, fs !! q = Some c → ∃ x, q = [x] ∧ Text.ends_with ".tar.gz" x = true.

(** The artifacts of a run: those of [build-internal], and [release-sdist]. *)
Definition shaped (wd : world) : Prop :=
  ∀ name fs, artifacts wd !! name = Some fs →
             name ∈ internal_artifacts ∨ (name = "release-sdist" ∧ source_only fs).

(** A workspace that holds source distributions in [dist/] and nothing else. *)
Definition dist_only (w : files) : Prop :=
  ∀ p c, w !! p = Some c → ∃ x, p = ["dist"; x] ∧ Text.ends_with ".tar.gz" x = true.

(** The files published since [wd0] are source distributions. *)
Definition published_since (wd0 wd : world) : Prop :=
  (∀ x c, release_assets wd !! x = Some c →
          release_assets wd0 !! x = Some c ∨ Text.ends_with ".tar.gz" x = true)
  ∧ (∀ x c, pypi_files wd !! x = Some c →
            pypi_files wd0 !! x = Some c ∨ Text.ends_with ".tar.gz" x = true).

(** What the steps of [upload-package] keep true. *)
Definition publishing (wd0 : world) (r : runner) (wd : world) : Prop :=
  shaped wd ∧ dist_only (ws r) ∧ published_since wd0 wd.

Definition wheel (e : env) : list string := ["dist"; wheel_stem e +:+ ".whl"].
Definition tarball (e : env) : list string := ["dist"; sdist_stem e +:+ ".tar.gz"].

(** What an upload step does with the files it finds. *)
Definition upload (e : env) (j : string) (i : nat) (r : runner) (wd : world)
    (name pat : string) (n : nat) : option runner * world :=
  if exit_ok e j i 0 then
    if is_empty (matching pat (ws r)) then (Some r, wd)
    else match artifact_find name wd with
         | Some _ => (None, wd)
         | None => (Some r, artifact_put name (rekey (drop n) (matching pat (ws r))) wd)
         end
  else (None, wd).

(** What a download-by-name step does. *)
Definition download (e : env) (j : string) (i : nat) (r : runner) (wd : world)
    (name : string) : option runner * world :=
  if exit_ok e j i 0 then
    match artifact_find name wd with
    | Some fs => (Some (with_ws r (overlay (rekey (app lib) fs) (ws r))), wd)
    | None => (None, wd)
    end
  else (None, wd).

(** The steps after the removal. *)
Definition after_removal : list step :=
  [ install_build_backend; build_distribution; upload_wheel; upload_ccd;
    upload_ccd_freq; upload_ccd_res_dict; test ].

(** Artifacts are never taken away. *)
Definition keeps_artifacts (wd wd' : world) : Prop :=
  ∀ name, is_Some (artifacts wd !! name) → is_Some (artifacts wd' !! name).

(** A checkout with the three build outputs laid over it. *)
Definition with_outputs (e : env) (c1 c2 c3 : content) : files :=
  overlay {[ ccd_res_dict := c3 ]}
    (overlay {[ ccd_freq := c2 ]} (overlay {[ ccd := c1 ]} (repo e))).


End Pipeline.

(** ** The cache key *)

Module CacheKey.
Import Syntax Runner Publish Pipeline.

(** The key the [Cache CCD] step computes in a workspace. *)
Definition key (e : env) (w : files) : string :=
  eval_pieces e (Runner w ∅ []) cache_key.

Definition setup_ccd : list string := ["setup_ccd.py"].

(** The three files the key reads. *)
Definition inputs : list (list string) := [setup_ccd; raw_ccd; ccd_freq].

(** The content hash of one file: the digest of its digest, and the empty
    string when the file is missing. *)
Definition hash_of (e : env) (w : files) (p : list string) : string :=
  match w !! p with
  | Some c => digest e (Blob (Text.concat [digest e c]))
  | None => ""
  end.

(** A digest is printed as 64 lower-case hexadecimal digits. *)
Definition hex_digit (a : ascii) : bool :=
  Text.mentions a "0123456789abcdef".

Fixpoint all_hex (s : string) : bool :=
  match s with
  | EmptyString => true
  | String a s' => hex_digit a && all_hex s'
  end.

Definition is_digest (s : string) : bool :=
  (String.length s =? 64)%nat && all_hex s.

(** Everything that gets hashed on the way to the key of a workspace. *)
Definition hashed (e : env) (w : files) : list content :=
  List.concat
    (List.map (fun p => match w !! p with
                        | Some c => [c; Blob (Text.concat [digest e c])]
                        | None => []
                        end) inputs).

Global Instance content_eq_dec : EqDecision content.
Proof. solve_decision. Defined.

(** No two of the given contents have the same digest. *)
Definition collision_free (e : env) (cs : list content) : bool :=
  forallb (fun c =>
    forallb (fun c' => implb (String.eqb (digest e c) (digest e c'))
                             (bool_decide (c = c'))) cs) cs.

End CacheKey.

(** ** The workflow, job by job *)

Module Stages.
Import Syntax Runner Publish.

(** The four jobs of a run that was triggered, each started in the world the
    job before it has left. *)
Abbreviation pre_commit_run e wd := (run_job e pre_commit (with_artifacts wd ∅)).

Abbreviation build_internal_run e wd :=
  (run_job e build_internal (snd (pre_commit_run e wd))).

Definition sdist_run (e : env) (wd : world) : (verdict * list entry) * world :=
  if succeeded (fst (fst (pre_commit_run e wd)))
     && succeeded (fst (fst (build_internal_run e wd)))
  then run_job e sdist (snd (build_internal_run e wd))
  else ((NotRun, []), snd (build_internal_run e wd)).

Definition upload_package_run (e : env) (wd : world) : (verdict * list entry) * world :=
  if succeeded (fst (fst (build_internal_run e wd)))
     && succeeded (fst (fst (sdist_run e wd)))
     && holds e fresh (job_if upload_package)
  then run_job e upload_package (snd (sdist_run e wd))
  else ((NotRun, []), snd (sdist_run e wd)).

Definition triggered (e : env) : bool := existsb (fires (event_of e)) (wf_on publish_yml).

End Stages.

(** ** Concrete runs *)

Module Scenario.
Import Syntax Runner Publish Pipeline CacheKey.

Definition zeros (n : nat) : string :=
  Nat.iter n (String "0") EmptyString.

(** A stand-in digest: the first byte and a length mark, padded to 64
    hexadecimal digits. *)
Definition toy_digest (c : content) : string :=
  match c with
  | Blob (String a b) =>
      String (if hex_digit a then a else "0"%char)
        (String (if (String.length b =? 63)%nat then "f"%char else "0"%char) (zeros 62))
  | _ => zeros 64
  end.

(** [setup_ccd.py] as the oracle sees it: it writes the processed
    dictionary and the residue dictionary next to its input. *)
Definition toy_effect (argv : list string) (w : files) : files :=
  if bool_decide (argv = ["python"; "setup_ccd.py"])
  then write ccd (Blob "bcif") (write ccd_res_dict (Blob "json") w)
  else w.

Definition tree : files :=
  <[ ["setup_ccd.py"] := Blob "1" ]>
    (<[ ["src"; "bio_datasets"; "__init__.py"] := Blob "2" ]> ∅).

(** A run in which every external process ends well. *)
Definition smooth (ev : event) : env :=
  Env ev tree (fun _ _ _ => true) (fun url => url) toy_effect
      (Path.is_prefix ["src"])
      "datasets_bio-0.1.2-cp311-cp311-linux_x86_64" "datasets_bio-0.1.2"
      toy_digest.

Definition release_published : event := Event "release" "published" "".
Definition pull_request : event := Event "pull_request" "opened" "main".

Definition nothing : world := World ∅ ∅ ∅ ∅.

(** Two workspaces that differ in the downloaded dictionary only. *)
Definition before : files :=
  <[ setup_ccd := Blob "1" ]> (<[ raw_ccd := Blob "22" ]> (<[ ccd_freq := Blob "333" ]> ∅)).
Definition after : files :=
  <[ setup_ccd := Blob "1" ]> (<[ raw_ccd := Blob "4444" ]> (<[ ccd_freq := Blob "333" ]> ∅)).

End Scenario.

(** ** Variations of the scenario, and kinds of steps *)

Module Cases.
Import Syntax Runner Publish Pipeline Scenario.

(** Does a step use [actions/cache]? *)
Definition uses_cache (s : step) : bool :=
  match step_do s with
  | Uses what _ => String.eqb (action_name what) "actions/cache"
  | Run _ => false
  end.

(** An environment in which one process fails: line [n] of step [i] of
    job [j]. *)
Definition failing (j : string) (i n : nat) (ev : event) : env :=
  Env ev tree (fun j' i' n' => negb (String.eqb j' j && Nat.eqb i' i && Nat.eqb n' n))
      (fun url => url) toy_effect (Path.is_prefix ["src"])
      "datasets_bio-0.1.2-cp311-cp311-linux_x86_64" "datasets_bio-0.1.2"
      toy_digest.

(** Does a step leave the world alone, whatever it is? *)
Definition world_free (s : step) : bool :=
  match step_do s with
  | Run _ => true
  | Uses what _ =>
      negb (String.eqb (action_name what) "actions/cache"
            || String.eqb (action_name what) "actions/upload-artifact"
            || String.eqb (action_name what) "actions/download-artifact"
            || String.eqb (action_name what) "softprops/action-gh-release"
            || String.eqb (action_name what) "pypa/gh-action-pypi-publish")
  end.

(** No cache entry holds the raw dictionary. *)
Definition cache_without_raw (wd : world) : Prop :=
  ∀ key fs, caches wd !! key = Some fs → fs !! raw_ccd = None.

(** A hidden file: its name begins with a dot.  The upload action leaves
    hidden files out unless told otherwise, and neither the release
    action's nor a shell's [*] matches them. *)
Definition hidden (x : string) : bool :=
  match x with
  | String "." _ => true
  | _ => false
  end.

(** A file name that a pattern [dir/*suffix] is read the same way for by
    [Glob.seg] and by the actions: not hidden, and a single component. *)
Definition ordinary (x : string) : bool :=
  negb (hidden x) && negb (Text.mentions "/" x).

End Cases.

(** ** Regular expressions, as the hooks' [exclude] patterns use them *)

Module Regex.

Inductive re :=
| Eps
| Chr (c : ascii)
| Any
| Bol
| Eol
| Cat (a b : re)
| Alt (a b : re)
| Star (a : re).

Definition newline : ascii := ascii_of_nat 10.

(** One alternative: a sequence of atoms, each a character (escaped or
    not), [.], [^] or [$], possibly followed by [*]. *)
Fixpoint parse_seq (s : string) : re :=
  match s with
  | EmptyString => Eps
  | String c s1 =>
      if Ascii.eqb c "^" then Cat Bol (parse_seq s1)
      else if Ascii.eqb c "$" then Cat Eol (parse_seq s1)
      else if Ascii.eqb c "\" then
        match s1 with
        | EmptyString => Cat (Chr c) Eps
        | String d s2 =>
            match s2 with
            | EmptyString => Cat (Chr d) (parse_seq s2)
            | String x s3 =>
                if Ascii.eqb x "*" then Cat (Star (Chr d)) (parse_seq s3)
                else Cat (Chr d) (parse_seq s2)
            end
        end
      else
        let a := if Ascii.eqb c "." then Any else Chr c in
        match s1 with
        | EmptyString => Cat a (parse_seq s1)
        | String x s2 =>
            if Ascii.eqb x "*" then Cat (Star a) (parse_seq s2)
            else Cat a (parse_seq s1)
        end
  end.

(** A pattern: alternatives separated by [|]. *)
Definition parse_pattern (s : string) : re :=
  match List.map parse_seq (Text.split_on "|" s) with
  | [] => Eps
  | r :: rs => fold_left Alt rs r
  end.

(** Repetition: [n] bounds the number of rounds, each of which has to
    consume something. *)
Fixpoint star_loop (f : bool → string → (bool → string → bool) → bool)
    (k : bool → string → bool) (n : nat) (b : bool) (s : string) : bool :=
  k b s ||
  match n with
  | O => false
  | S n' =>
      f b s (fun b' s' => Nat.ltb (String.length s') (String.length s)
                         && star_loop f k n' b' s')
  end.

(** [m r b s k]: can [r] match a prefix of [s] so that [k] accepts the
    rest?  [b] tells whether [s] starts at the beginning of the subject.
    As in Python without flags: [.] is any character but a newline, [^]
    the beginning of the subject, [$] its end or the place before a final
    newline. *)
Fixpoint m (r : re) (b : bool) (s : string) (k : bool → string → bool) : bool :=
  match r with
  | Eps => k b s
  | Chr c =>
      match s with
      | String d s' => Ascii.eqb d c && k false s'
      | EmptyString => false
      end
  | Any =>
      match s with
      | String d s' => negb (Ascii.eqb d newline) && k false s'
      | EmptyString => false
      end
  | Bol => b && k b s
  | Eol => (String.eqb s "" || String.eqb s (String newline "")) && k b s
  | Cat x y => m x b s (fun b' s' => m y b' s' k)
  | Alt x y => m x b s k || m y b s k
  | Star x => star_loop (m x) k (String.length s) b s
  end.

(** [re.search]: a match that starts somewhere in the subject. *)
Fixpoint scan (r : re) (b : bool) (s : string) : bool :=
  m r b s (fun _ _ => true) ||
  match s with
  | EmptyString => false
  | String _ s' => scan r false s'
  end.

Definition search (r : re) (s : string) : bool := scan r true s.

(** [s] begins with [l]; [l] occurs in [s]. *)
Fixpoint starts_with (l s : string) : bool :=
  match l with
  | EmptyString => true
  | String c l' =>
      match s with
      | String d s' => Ascii.eqb d c && starts_with l' s'
      | EmptyString => false
      end
  end.

Fixpoint contains (l s : string) : bool :=
  starts_with l s ||
  match s with
  | EmptyString => false
  | String _ s' => contains l s'
  end.

(** The regular expression of a literal text, followed by [r]. *)
Fixpoint lit (l : string) (r : re) : re :=
  match l with
  | EmptyString => r
  | String c l' => Cat (Chr c) (lit l' r)
  end.

End Regex.

(** ** [.pre-commit-config.yaml] *)

Module Precommit.
Import Regex.

Record hook := Hook {
  h_repo : string;
  h_rev : string;
  h_id : string;
  h_name : option string;
  h_args : list string;
  h_types : list string;
  h_exclude : string;
  h_additional_dependencies : list string
}.

Definition isort : hook :=
  Hook "https://github.com/PyCQA/isort" "5.13.2" "isort" None
    ["--profile"; "black"] ["python"]
    "^data|^src/bio_datasets/structure/pdbx" [].

Definition black : hook :=
  Hook "https://github.com/psf/black" "22.10.0" "black" None [] ["python"]
    "^data|.*\.pdb$|.*\.cif|.*\.bcif|^src/bio_datasets/structure/pdbx" [].

Definition check_yaml : hook :=
  Hook "https://github.com/pre-commit/pre-commit-hooks" "v2.3.0" "check-yaml" None [] []
    "^data|.*\.pdb$|.*\.cif$|.*\.bcif|^src/bio_datasets/structure/protein/library|^src/bio_datasets/structure/pdbx"
    [].

Definition end_of_file_fixer : hook :=
  Hook "https://github.com/pre-commit/pre-commit-hooks" "v2.3.0" "end-of-file-fixer" None
    [] []
    "^data|.*\.pdb$|.*\.cif$|.*\.bcif|^src/bio_datasets/structure/protein/library|^src/bio_datasets/structure/pdbx"
    [].

Definition trailing_whitespace : hook :=
  Hook "https://github.com/pre-commit/pre-commit-hooks" "v2.3.0" "trailing-whitespace" None
    [] []
    "^data|.*\.pdb$|.*\.cif$|.*\.bcif|^src/bio_datasets/structure/protein/library|^src/bio_datasets/structure/pdbx"
    [].

Definition flake8 : hook :=
  Hook "https://github.com/pycqa/flake8" "6.0.0" "flake8" (Some "Linter")
    [ "--ignore=E501,W503,W391,E203,N806,E266";
      "--max-cognitive-complexity=13";
      "--max-line-length=88" ]
    ["python"]
    "^examples|^src/bio_datasets/structure/pdbx"
    [ "pep8-naming"; "flake8-builtins"; "flake8-comprehensions"; "flake8-bugbear";
      "flake8-pytest-style"; "flake8-cognitive-complexity" ].

Definition pre_commit_config : list hook :=
  [ isort; black; check_yaml; end_of_file_fixer; trailing_whitespace; flake8 ].

(** A hook is not given the files whose path, relative to the repository,
    its [exclude] pattern finds a match in. *)
Definition skips (h : hook) (path : string) : bool :=
  search (parse_pattern (h_exclude h)) path.

(** Two directories the patterns name. *)
Definition pdbx : string := "src/bio_datasets/structure/pdbx".
Definition protein_library : string := "src/bio_datasets/structure/protein/library".

End Precommit.

(** * Facts *)

(** ** Facts about strings and patterns *)

Module TextFacts.

Lemma eqb_sym (a b : string) : String.eqb a b = String.eqb b a.
Proof.
  destruct (String.eqb_spec a b) as [->|Hne].
  - by rewrite String.eqb_refl.
  - symmetry. apply String.eqb_neq. congruence.
Qed.

Lemma mentions_cons c a s :
  Text.mentions c (String a s) = false →
  Ascii.eqb a c = false ∧ Text.mentions c s = false.
Proof. simpl. by intros [? ?]%orb_false_iff. Qed.

(** A pattern component without wildcard matches itself only. *)
Lemma seg_literal g :
  Text.mentions "*" g = false → ∀ s, Glob.seg g s = String.eqb s g.
Proof.
  induction g as [|c g IH]; intros Hg s.
  - reflexivity.
  - apply mentions_cons in Hg as [Hc Hg]. simpl. rewrite Hc.
    destruct s as [|d s]; [reflexivity|].
    simpl. rewrite IH by done. by rewrite Ascii.eqb_sym.
Qed.

Lemma seg_star_unfold lit s :
  Glob.seg (String "*" lit) s
  = Glob.seg lit s
    || match s with
       | EmptyString => false
       | String _ s' => Glob.seg (String "*" lit) s'
       end.
Proof. by destruct s. Qed.

Lemma ends_with_unfold suf s :
  Text.ends_with suf s
  = String.eqb s suf
    || match s with
       | EmptyString => false
       | String _ s' => Text.ends_with suf s'
       end.
Proof. by destruct s. Qed.

(** [*lit] matches exactly the names that end with [lit]. *)
Lemma seg_star lit :
  Text.mentions "*" lit = false →
  ∀ s, Glob.seg (String "*" lit) s = Text.ends_with lit s.
Proof.
  intros Hlit s. induction s as [|a s IH].
  - rewrite seg_star_unfold, ends_with_unfold. by rewrite seg_literal.
  - rewrite seg_star_unfold, ends_with_unfold, IH. by rewrite seg_literal.
Qed.

Lemma ends_with_refl suf : Text.ends_with suf suf = true.
Proof. by rewrite ends_with_unfold, String.eqb_refl. Qed.

Lemma ends_with_app suf stem : Text.ends_with suf (stem +:+ suf) = true.
Proof.
  induction stem as [|a stem IH].
  - apply ends_with_refl.
  - change (Text.ends_with suf (String a stem +:+ suf))
      with (String.eqb (String a (stem +:+ suf)) suf || Text.ends_with suf (stem +:+ suf)).
    rewrite IH. apply orb_true_r.
Qed.

Lemma ends_with_cases suf s :
  Text.ends_with suf s = true →
  s = suf ∨ ∃ a s', s = String a s' ∧ Text.ends_with suf s' = true.
Proof.
  rewrite ends_with_unfold. intros [H|H]%orb_true_iff.
  - left. by apply String.eqb_eq.
  - right. destruct s as [|a s']; [done|]. eauto.
Qed.

Lemma ends_with_length suf s :
  Text.ends_with suf s = true → (String.length suf ≤ String.length s)%nat.
Proof.
  induction s as [|a s IH]; intros H; apply ends_with_cases in H.
  - destruct H as [<-|(? & ? & ? & _)]; done.
  - destruct H as [<-|(? & ? & [= <- <-] & H)]; [done|].
    specialize (IH H). simpl. lia.
Qed.

(** Of two endings of one string, the shorter is an ending of the longer. *)
Lemma ends_with_nested a b s :
  Text.ends_with a s = true → Text.ends_with b s = true →
  (String.length a ≤ String.length b)%nat → Text.ends_with a b = true.
Proof.
  induction s as [|c s IH]; intros Ha Hb Hlen.
  - apply ends_with_cases in Ha as [<-|(? & ? & ? & _)]; [|done].
    apply ends_with_cases in Hb as [<-|(? & ? & ? & _)]; done.
  - apply ends_with_cases in Ha as [<-|(? & ? & [= <- <-] & Ha)];
      apply ends_with_cases in Hb as [<-|(? & ? & [= <- <-] & Hb)].
    + apply ends_with_refl.
    + apply ends_with_length in Hb. simpl in Hlen. lia.
    + rewrite ends_with_unfold, Ha. apply orb_true_r.
    + by apply IH.
Qed.

(** A name cannot end in two endings of which neither ends the other. *)
Lemma ends_with_clash a b stem :
  (String.length a ≤ String.length b)%nat → Text.ends_with a b = false →
  Text.ends_with a (stem +:+ b) = false.
Proof.
  intros Hlen Hab. destruct (Text.ends_with a (stem +:+ b)) eqn:H; [|done].
  rewrite (ends_with_nested a b (stem +:+ b)) in Hab; auto using ends_with_app.
Qed.

Lemma path_literal pat :
  forallb (fun g => negb (Text.mentions "*" g)) pat = true →
  ∀ p, Glob.path pat p = true ↔ p = pat.
Proof.
  induction pat as [|g pat IH]; intros Hpat p.
  - by destruct p.
  - simpl in Hpat. apply andb_true_iff in Hpat as [Hg Hpat].
    apply negb_true_iff in Hg.
    destruct p as [|c p]; simpl; [done|].
    rewrite andb_true_iff, (seg_literal g Hg), String.eqb_eq, (IH Hpat).
    split; [by intros [-> ->] | by intros [= -> ->]].
Qed.

End TextFacts.

(** ** Facts about file maps *)

Module FilesFacts.
Import Runner.

Lemma has_true (p : list string) (w : files) : has p w = true ↔ is_Some (w !! p).
Proof. unfold has. destruct (w !! p); split; (done || by intros [? ?]). Qed.

Lemma has_false (p : list string) (w : files) : has p w = false ↔ w !! p = None.
Proof. unfold has. by destruct (w !! p). Qed.

Lemma lookup_matching (pat : string) (w : files) (p : list string) (c : content) :
  matching pat w !! p = Some c ↔ w !! p = Some c ∧ Glob.file pat p = true.
Proof.
  unfold matching. rewrite map_lookup_filter_Some. simpl.
  by rewrite Is_true_true.
Qed.

Lemma lookup_under (d : list string) (w : files) (p : list string) (c : content) :
  under d w !! p = Some c ↔ w !! p = Some c ∧ Path.is_prefix d p = true.
Proof.
  unfold under. rewrite map_lookup_filter_Some. simpl.
  by rewrite Is_true_true.
Qed.

Lemma lookup_outside (d : list string) (w : files) (p : list string) (c : content) :
  outside d w !! p = Some c ↔ w !! p = Some c ∧ Path.is_prefix d p = false.
Proof.
  unfold outside. rewrite map_lookup_filter_Some. simpl.
  by rewrite Is_true_false.
Qed.

(** A search path without wildcard finds the file of that name, if any. *)
Lemma matching_literal (pat : string) (w : files) :
  forallb (fun g => negb (Text.mentions "*" g)) (Path.parse pat) = true →
  matching pat w
  = match w !! Path.parse pat with
    | Some c => {[ Path.parse pat := c ]}
    | None => ∅
    end.
Proof.
  intros Hlit. apply map_eq. intros q. apply option_eq. intros c.
  rewrite lookup_matching. unfold Glob.file.
  rewrite (TextFacts.path_literal _ Hlit).
  destruct (w !! Path.parse pat) as [c'|] eqn:Hw.
  - rewrite lookup_singleton_Some. split.
    + intros [Hq ->]. rewrite Hw in Hq. by injection Hq as ->.
    + by intros [<- <-].
  - rewrite lookup_empty. split; [|done]. intros [Hq ->]. by rewrite Hw in Hq.
Qed.

Lemma is_empty_true (w : files) : is_empty w = true ↔ w = ∅.
Proof.
  unfold is_empty. rewrite <- map_to_list_empty_iff.
  by destruct (map_to_list w).
Qed.

Lemma is_empty_false (w : files) (p : list string) (c : content) : w !! p = Some c → is_empty w = false.
Proof.
  intros Hp. destruct (is_empty w) eqn:He; [|done].
  apply is_empty_true in He. subst. by rewrite lookup_empty in Hp.
Qed.

Section Rekey.
Context {K : Type} `{Countable K} (f : list string → K).

Lemma rekey_lookup_inv (w : files) (k : K) (c : content) :
  rekey f w !! k = Some c → ∃ p, k = f p ∧ w !! p = Some c.
Proof.
  unfold rekey. intros Hk. apply elem_of_list_to_map_2 in Hk.
  apply list_elem_of_In, in_map_iff in Hk as ([p c'] & [= <- <-] & Hin).
  exists p. split; [done|].
  by apply elem_of_map_to_list, list_elem_of_In.
Qed.

Lemma rekey_empty : rekey f ∅ = ∅.
Proof. unfold rekey. by rewrite map_to_list_empty. Qed.

Lemma rekey_singleton (p : list string) (c : content) : rekey f {[ p := c ]} = {[ f p := c ]}.
Proof. unfold rekey. by rewrite map_to_list_singleton. Qed.

Lemma rekey_is_Some (w : files) (p : list string) (c : content) :
  w !! p = Some c → is_Some (rekey f w !! f p).
Proof.
  intros Hp. unfold rekey.
  destruct (list_to_map _ !! f p) eqn:Hk; [done|].
  apply not_elem_of_list_to_map_2 in Hk. exfalso. apply Hk.
  apply list_elem_of_In, in_map_iff. exists (f p, c). split; [done|].
  apply in_map_iff. exists (p, c). split; [done|].
  by apply list_elem_of_In, elem_of_map_to_list.
Qed.
End Rekey.

End FilesFacts.

(** ** Facts about traces *)

Module TraceFacts.
Import Syntax Runner Trace.

Section Run.
Context (e : env) (j : string).
Local Abbreviation run := (Trace.run e j).
Local Abbreviation reach := (Trace.reach e j).

Lemma run_steps_run ss : ∀ i ok r wd,
  let res := run_steps e j i ok ss r wd in
  run i ok ss r wd (fst res) (fst (snd res)) (fst (snd (snd res))) (snd (snd (snd res))).
Proof.
  induction ss as [|s ss IH]; intros i ok r wd; simpl.
  - constructor.
  - destruct (ok && holds e r (step_if s)) eqn:Hgo.
    + apply andb_true_iff in Hgo as [-> Hc].
      destruct (exec e j i s r wd) as [[r'|] wd'] eqn:Hx; simpl.
      * apply run_pass; [done|done|apply IH].
      * apply run_fail; [done|done|apply IH].
    + simpl. apply run_skip; [done|]. apply IH.
Qed.

(** The log has one line per step, in step order. *)
Lemma run_lookup i ok ss r wd tr ok' rf wf :
  run i ok ss r wd tr ok' rf wf →
  ∀ k en, tr !! k = Some en → ss !! k = Some (e_step en).
Proof.
  induction 1 as [i ok r wd | i s ss r wd r' wd' tr ok' rf wf Hif Hexec Hrest IH | i s ss r wd wd' tr ok' rf wf Hif Hexec Hrest IH | i ok s ss r wd tr ok' rf wf Hif Hrest IH];
    intros [|k] en Hk; simplify_eq/=; eauto.
Qed.

(** Once a step has failed, nothing runs any more. *)
Lemma run_after_failure i ss r wd tr ok' rf wf :
  run i false ss r wd tr ok' rf wf →
  ok' = false ∧ ∀ k en, tr !! k = Some en → e_outcome en = Skipped.
Proof.
  remember false as ok eqn:Hok.
  induction 1 as [i ok r wd | i s ss r wd r' wd' tr ok' rf wf Hif Hexec Hrest IH | i s ss r wd wd' tr ok' rf wf Hif Hexec Hrest IH | i ok s ss r wd tr ok' rf wf Hif Hrest IH];
    try discriminate.
  - done.
  - destruct (IH Hok) as [-> Hall]. split; [done|].
    intros [|k] en Hk; simplify_eq/=; eauto.
Qed.

(** A step that runs finds every earlier step passed, or skipped by its
    own condition. *)
Lemma run_ordered i ok ss r wd tr ok' rf wf :
  run i ok ss r wd tr ok' rf wf →
  ∀ k en, tr !! k = Some en → e_outcome en ≠ Skipped →
  ∀ m en', (m < k)%nat → tr !! m = Some en' →
    e_outcome en' ≠ Failed ∧
    (step_if (e_step en') = None → e_outcome en' = Passed).
Proof.
  induction 1 as [i ok r wd | i s ss r wd r' wd' tr ok' rf wf Hif Hexec Hrest IH | i s ss r wd wd' tr ok' rf wf Hif Hexec Hrest IH | i ok s ss r wd tr ok' rf wf Hif Hrest IH];
    intros k en Hk Hran m en' Hm Hm'.
  - done.
  - destruct k as [|k]; [exfalso; lia|]. destruct m as [|m]; simplify_eq/=.
    + done.
    + apply (IH k en Hk Hran m en'); [lia|done].
  - destruct k as [|k]; [exfalso; lia|]. simpl in Hk.
    apply run_after_failure in Hrest as [_ Hall]. by rewrite (Hall _ _ Hk) in Hran.
  - destruct k as [|k]; [exfalso; lia|]. destruct m as [|m]; simplify_eq/=.
    + split; [done|]. intros Hnone. rewrite Hnone in Hif. simpl in Hif.
      rewrite andb_true_r in Hif. subst ok.
      apply run_after_failure in Hrest as [_ Hall]. by rewrite (Hall _ _ Hk) in Hran.
    + apply (IH k en Hk Hran m en'); [lia|done].
Qed.

(** The job succeeds exactly when no step has failed. *)
Lemma run_verdict i ok ss r wd tr ok' rf wf :
  run i ok ss r wd tr ok' rf wf →
  ok' = ok && forallb (fun en => match e_outcome en with Failed => false | _ => true end) tr.
Proof.
  induction 1 as [i ok r wd | i s ss r wd r' wd' tr ok' rf wf Hif Hexec Hrest IH | i s ss r wd wd' tr ok' rf wf Hif Hexec Hrest IH | i ok s ss r wd tr ok' rf wf Hif Hrest IH];
    simpl; try done.
  by rewrite andb_true_r.
Qed.

Lemma run_length i ok ss r wd tr ok' rf wf :
  run i ok ss r wd tr ok' rf wf → length tr = length ss.
Proof. induction 1; simpl; congruence. Qed.

(** A step runs exactly when no step before it has failed and its own
    condition holds; the state it starts from is the one the steps
    before it lead to. *)
Lemma run_reach i ss r wd tr ok' rf wf :
  run i true ss r wd tr ok' rf wf →
  ∀ k en, tr !! k = Some en →
    (e_outcome en ≠ Skipped ↔
       reach i (take k ss) r wd = Some (e_runner en, e_world en)
       ∧ holds e (e_runner en) (step_if (e_step en)) = true)
    ∧ (∀ st, reach i (take k ss) r wd = Some st → st = (e_runner en, e_world en)).
Proof.
  remember true as ok eqn:Hok. intros Hrun. revert Hok.
  induction Hrun as [i ok r wd | i s ss r wd r' wd' tr ok' rf wf Hif Hexec Hrest IH | i s ss r wd wd' tr ok' rf wf Hif Hexec Hrest IH | i ok s ss r wd tr ok' rf wf Hif Hrest IH]; intros Hok k en Hk; subst; try discriminate.
  - destruct k as [|k]; simplify_eq/=.
    + split; [|by intros ? [= <-]]. split; [by intros _|by intros _].
    + rewrite Hif, Hexec. by apply IH.
  - destruct k as [|k]; simplify_eq/=.
    + split; [|by intros ? [= <-]]. split; [by intros _|by intros _].
    + rewrite Hif, Hexec.
      apply run_after_failure in Hrest as [_ Hall].
      rewrite (Hall _ _ Hk). split; [|done]. split; [done|by intros [? _]].
  - simpl in Hif. destruct k as [|k]; simplify_eq/=.
    + split; [|by intros ? [= <-]]. split; [done|]. intros [_ Hc]. congruence.
    + rewrite Hif. by apply IH.
Qed.

(** A job that succeeds has gone through all its steps. *)
Lemma run_success i ok ss r wd tr ok' rf wf :
  run i ok ss r wd tr ok' rf wf →
  ok = true → ok' = true → reach i ss r wd = Some (rf, wf).
Proof.
  induction 1 as [i ok r wd | i s ss r wd r' wd' tr ok' rf wf Hif Hexec Hrest IH | i s ss r wd wd' tr ok' rf wf Hif Hexec Hrest IH | i ok s ss r wd tr ok' rf wf Hif Hrest IH]; intros Hok Hok'; subst; try discriminate; simpl.
  - done.
  - rewrite Hif, Hexec. by apply IH.
  - by apply run_after_failure in Hrest as [? _].
  - simpl in Hif. rewrite Hif. by apply IH.
Qed.

(** What every step preserves holds all along. *)
Lemma run_invariant (I : world → Prop) i ok ss r wd tr ok' rf wf :
  run i ok ss r wd tr ok' rf wf →
  (∀ i s r wd, s ∈ ss → I wd → I (snd (exec e j i s r wd))) →
  I wd →
  I wf ∧ ∀ en, en ∈ tr → I (e_world en) ∧ I (e_world' en).
Proof.
  induction 1 as [i ok r wd | i s ss r wd r' wd' tr ok' rf wf Hif Hexec Hrest IH | i s ss r wd wd' tr ok' rf wf Hif Hexec Hrest IH | i ok s ss r wd tr ok' rf wf Hif Hrest IH]; intros Hpres Hwd.
  - split; [done|]. by intros en ?%elem_of_nil.
  - assert (I wd') as Hwd'.
    { specialize (Hpres i s r wd). rewrite Hexec in Hpres. apply Hpres; [left|done]. }
    destruct IH as [? Hall]; [|done|].
    { intros. apply Hpres; [by right|done]. }
    split; [done|]. intros en [->|?]%elem_of_cons; [done|]. by apply Hall.
  - assert (I wd') as Hwd'.
    { specialize (Hpres i s r wd). rewrite Hexec in Hpres. apply Hpres; [left|done]. }
    destruct IH as [? Hall]; [|done|].
    { intros. apply Hpres; [by right|done]. }
    split; [done|]. intros en [->|?]%elem_of_cons; [done|]. by apply Hall.
  - destruct IH as [? Hall]; [|done|].
    { intros. apply Hpres; [by right|done]. }
    split; [done|]. intros en [->|?]%elem_of_cons; [done|]. by apply Hall.
Qed.

(** Into a step without condition. *)
(** The same for a property of the runner and the world together. *)
Lemma run_state_invariant (I : runner → world → Prop) i ok ss r wd tr ok' rf wf :
  run i ok ss r wd tr ok' rf wf →
  (∀ i s r wd, s ∈ ss → I r wd →
     match exec e j i s r wd with
     | (Some r', wd') => I r' wd'
     | (None, wd') => I r wd'
     end) →
  I r wd → I rf wf.
Proof.
  induction 1 as [i ok r wd | i s ss r wd r' wd' tr ok' rf wf Hif Hexec Hrest IH | i s ss r wd wd' tr ok' rf wf Hif Hexec Hrest IH | i ok s ss r wd tr ok' rf wf Hif Hrest IH]; intros Hpres Hwd.
  - done.
  - apply IH.
    + intros. apply Hpres; [by right|done].
    + specialize (Hpres i s r wd). rewrite Hexec in Hpres. apply Hpres; [left|done].
  - apply IH.
    + intros. apply Hpres; [by right|done].
    + specialize (Hpres i s r wd). rewrite Hexec in Hpres. apply Hpres; [left|done].
  - apply IH; [|done]. intros. apply Hpres; [by right|done].
Qed.
Lemma reach_always i s ss r wd st :
  step_if s = None →
  reach i (s :: ss) r wd = Some st →
  ∃ r' wd', exec e j i s r wd = (Some r', wd') ∧ reach (S i) ss r' wd' = Some st.
Proof.
  intros Hif. simpl. rewrite Hif. simpl.
  destruct (exec e j i s r wd) as [[r'|] wd'] eqn:Hx; [|done]. eauto.
Qed.


(** A line that says [Passed] records what the step did. *)
Lemma run_entry i ok ss r wd tr ok' rf wf :
  run i ok ss r wd tr ok' rf wf →
  ∀ k en, tr !! k = Some en → e_outcome en = Passed →
    exec e j (i + k) (e_step en) (e_runner en) (e_world en)
    = (Some (e_runner' en), e_world' en).
Proof.
  induction 1 as [i ok r wd | i s ss r wd r' wd' tr ok' rf wf Hif Hexec Hrest IH | i s ss r wd wd' tr ok' rf wf Hif Hexec Hrest IH | i ok s ss r wd tr ok' rf wf Hif Hrest IH];
    intros [|k] en Hk Hout; simplify_eq/=;
    rewrite ?Nat.add_0_r, ?Nat.add_succ_r; eauto.
Qed.

(** What the steps of a list preserve, the list preserves. *)
Lemma reach_preserves (P : runner → Prop) ss :
  (∀ i s r wd r' wd', s ∈ ss → exec e j i s r wd = (Some r', wd') → P r → P r') →
  ∀ i r wd r' wd', reach i ss r wd = Some (r', wd') → P r → P r'.
Proof.
  induction ss as [|s ss IH]; intros Hpres i r wd r' wd' Hreach HP.
  - by injection Hreach as <- <-.
  - simpl in Hreach.
    assert (∀ i s0 r wd r' wd', s0 ∈ ss →
              exec e j i s0 r wd = (Some r', wd') → P r → P r') as Hpres'.
    { intros. eapply Hpres; eauto. by right. }
    destruct (holds e r (step_if s)); [|by eapply (IH Hpres')].
    destruct (exec e j i s r wd) as [[r1|] wd1] eqn:Hx; [|done].
    eapply (IH Hpres'); [done|]. eapply Hpres; eauto. by left.
Qed.

Lemma reach_app i ss1 ss2 r wd :
  reach i (ss1 ++ ss2) r wd
  = match reach i ss1 r wd with
    | Some (r', wd') => reach (i + length ss1) ss2 r' wd'
    | None => None
    end.
Proof.
  revert i r wd. induction ss1 as [|s ss1 IH]; intros i r wd; simpl.
  - by rewrite Nat.add_0_r.
  - replace (i + S (length ss1)) with (S i + length ss1) by lia.
    destruct (holds e r (step_if s)); [|apply IH].
    destruct (exec e j i s r wd) as [[r'|] wd']; [apply IH|done].
Qed.

(** One more step without condition. *)
Lemma reach_snoc i ss s r wd r2 wd2 :
  step_if s = None →
  reach i (ss ++ [s]) r wd = Some (r2, wd2) ↔
  ∃ r' wd', reach i ss r wd = Some (r', wd')
            ∧ exec e j (i + length ss) s r' wd' = (Some r2, wd2).
Proof.
  intros Hif. rewrite reach_app. split.
  - destruct (reach i ss r wd) as [[r' wd']|]; [|done]. simpl. rewrite Hif. simpl.
    destruct (exec e j _ s r' wd') as [[r3|] wd3] eqn:Hx; [|done].
    intros [= <- <-]. eauto.
  - intros (r' & wd' & -> & Hx). simpl. rewrite Hif. simpl. by rewrite Hx.
Qed.

End Run.

(** The log of a job, and where a step stands in it. *)
Lemma job_trace_run e jb wd :
  ∃ ok rf wf, run e (job_id jb) 0 true (job_steps jb) fresh wd (job_trace e jb wd) ok rf wf.
Proof. do 3 eexists. apply (run_steps_run e (job_id jb) (job_steps jb) 0 true fresh wd). Qed.

Lemma entry_at e jb wd s k :
  NoDup (job_steps jb) → job_steps jb !! k = Some s →
  ∃ en, job_trace e jb wd !! k = Some en ∧ e_step en = s
        ∧ ∀ en', en' ∈ job_trace e jb wd → e_step en' = s → en' = en.
Proof.
  intros Hnodup Hk. destruct (job_trace_run e jb wd) as (ok & rf & wf & Hrun).
  pose proof (run_length _ _ _ _ _ _ _ _ _ _ _ Hrun) as Hlen.
  destruct (job_trace e jb wd !! k) as [en|] eqn:Hen.
  - pose proof (run_lookup _ _ _ _ _ _ _ _ _ _ _ Hrun _ _ Hen) as Hs.
    exists en. split; [done|]. split; [congruence|].
    intros en' [k' Hk']%list_elem_of_lookup Hs'.
    pose proof (run_lookup _ _ _ _ _ _ _ _ _ _ _ Hrun _ _ Hk') as Hs''.
    rewrite Hs' in Hs''. rewrite (NoDup_lookup _ _ _ _ Hnodup Hs'' Hk) in Hk'. congruence.
  - apply lookup_ge_None in Hen. apply lookup_lt_Some in Hk. lia.
Qed.

(** A step of a job runs exactly when the steps before it lead somewhere
    and its condition holds there. *)
Lemma ran_iff e jb wd s k :
  NoDup (job_steps jb) → job_steps jb !! k = Some s →
  ran s (job_trace e jb wd) ↔
  ∃ r wd', reach e (job_id jb) 0 (take k (job_steps jb)) fresh wd = Some (r, wd')
           ∧ holds e r (step_if s) = true.
Proof.
  intros Hnodup Hk. destruct (entry_at e jb wd s k Hnodup Hk) as (en & Hen & Hs & Huniq).
  destruct (job_trace_run e jb wd) as (ok & rf & wf & Hrun).
  destruct (run_reach _ _ _ _ _ _ _ _ _ _ Hrun _ _ Hen) as [Hiff Hst].
  rewrite Hs in Hiff. split.
  - intros (en' & Hin & Hs' & Hout). rewrite (Huniq en' Hin Hs') in Hout.
    apply Hiff in Hout. eauto.
  - intros (r & wd' & Hr & Hc). specialize (Hst _ Hr). injection Hst as -> ->.
    exists en. split; [by eapply list_elem_of_lookup_2|]. split; [done|].
    apply Hiff. done.
Qed.

(** The entry of a step that ran starts from the state the steps before
    it lead to. *)
Lemma ran_state e jb wd s k en :
  NoDup (job_steps jb) → job_steps jb !! k = Some s →
  en ∈ job_trace e jb wd → e_step en = s →
  job_trace e jb wd !! k = Some en
  ∧ (e_outcome en ≠ Skipped →
     reach e (job_id jb) 0 (take k (job_steps jb)) fresh wd = Some (e_runner en, e_world en)).
Proof.
  intros Hnodup Hk Hin Hs.
  destruct (entry_at e jb wd s k Hnodup Hk) as (en0 & Hen & _ & Huniq).
  rewrite <- (Huniq en Hin Hs) in Hen. split; [done|]. intros Hout.
  destruct (job_trace_run e jb wd) as (ok & rf & wf & Hrun).
  destruct (run_reach _ _ _ _ _ _ _ _ _ _ Hrun _ _ Hen) as [Hiff _].
  by apply Hiff in Hout as [? _].
Qed.

(** A step without condition that stands before a step that ran has passed. *)
Lemma earlier_passed e jb wd s k s' k' :
  NoDup (job_steps jb) →
  job_steps jb !! k = Some s → job_steps jb !! k' = Some s' →
  (k < k')%nat → step_if s = None →
  ran s' (job_trace e jb wd) → precedes s s' (job_trace e jb wd).
Proof.
  intros Hnodup Hk Hk' Hlt Hif (en' & Hin' & Hs' & Hout').
  destruct (entry_at e jb wd s k Hnodup Hk) as (en & Hen & Hs & _).
  destruct (ran_state e jb wd s' k' en' Hnodup Hk' Hin' Hs') as [Hen' _].
  destruct (job_trace_run e jb wd) as (ok & rf & wf & Hrun).
  destruct (run_ordered _ _ _ _ _ _ _ _ _ _ _ Hrun _ _ Hen' Hout' _ _ Hlt Hen) as [_ Hp].
  exists k, k', en, en'. repeat split; try done. apply Hp. by rewrite Hs.
Qed.

(** A step that ran and stands before a step that ran has passed. *)
Lemma earlier_ran e jb wd s k s' k' :
  NoDup (job_steps jb) →
  job_steps jb !! k = Some s → job_steps jb !! k' = Some s' →
  (k < k')%nat →
  ran s (job_trace e jb wd) →
  ran s' (job_trace e jb wd) → precedes s s' (job_trace e jb wd).
Proof.
  intros Hnodup Hk Hk' Hlt (en & Hin & Hs & Hout) (en' & Hin' & Hs' & Hout').
  destruct (ran_state e jb wd s k en Hnodup Hk Hin Hs) as [Hen _].
  destruct (ran_state e jb wd s' k' en' Hnodup Hk' Hin' Hs') as [Hen' _].
  destruct (job_trace_run e jb wd) as (ok & rf & wf & Hrun).
  destruct (run_ordered _ _ _ _ _ _ _ _ _ _ _ Hrun _ _ Hen' Hout' _ _ Hlt Hen) as [Hp _].
  exists k, k', en, en'. repeat split; try done. by destruct (e_outcome en).
Qed.

Lemma passed_exec e jb wd s k en :
  NoDup (job_steps jb) → job_steps jb !! k = Some s →
  en ∈ job_trace e jb wd → e_step en = s → e_outcome en = Passed →
  exec e (job_id jb) k s (e_runner en) (e_world en) = (Some (e_runner' en), e_world' en).
Proof.
  intros Hnodup Hk Hin Hs Hout.
  destruct (ran_state e jb wd s k en Hnodup Hk Hin Hs) as [Hen _].
  destruct (job_trace_run e jb wd) as (ok & rf & wf & Hrun).
  rewrite <- Hs. apply (run_entry _ _ _ _ _ _ _ _ _ _ _ Hrun _ _ Hen Hout).
Qed.

(** What a job leaves behind. *)
Lemma run_job_run e jb wd :
  ∃ ok rf wf,
    run e (job_id jb) 0 true (job_steps jb) fresh wd (job_trace e jb wd) ok rf wf
    ∧ run_job e jb wd
      = if ok then ((Success, job_trace e jb wd), save_caches rf wf)
        else ((Failure, job_trace e jb wd), wf).
Proof.
  do 3 eexists. split.
  - apply (run_steps_run e (job_id jb) (job_steps jb) 0 true fresh wd).
  - reflexivity.
Qed.

Lemma artifacts_save_caches r wd : artifacts (save_caches r wd) = artifacts wd.
Proof.
  unfold save_caches. induction (saves r) as [|kd l IH]; [done|].
  simpl. unfold save_one at 1. by destruct (cache_find _ _).
Qed.

Lemma public_save_caches r wd : public (save_caches r wd) = public wd.
Proof.
  unfold save_caches. induction (saves r) as [|kd l IH]; [done|].
  simpl. unfold save_one at 1. by destruct (cache_find _ _).
Qed.

Lemma passed_ran s tr : passed s tr → ran s tr.
Proof. intros (en & Hin & Hs & Hout). exists en. by rewrite Hout. Qed.

Lemma precedes_passed s s' tr : precedes s s' tr → passed s tr.
Proof.
  intros (i & k & a & b & _ & Ha & _ & Hs & Hout & _).
  exists a. split; [by eapply list_elem_of_lookup_2|done].
Qed.

Lemma did_run_ran s tr : did_run s tr = true → ran s tr.
Proof.
  unfold did_run. rewrite existsb_exists.
  intros (en & Hin & [Hs Hout]%andb_true_iff).
  exists en. split; [by apply list_elem_of_In|].
  split; [by apply bool_decide_eq_true in Hs|]. by destruct (e_outcome en).
Qed.

(** Reading a log at a line. *)
Lemma ran_at s tr k en :
  tr !! k = Some en → e_step en = s → e_outcome en ≠ Skipped → ran s tr.
Proof. intros Hk Hs Hout. exists en. split; [by eapply list_elem_of_lookup_2|done]. Qed.

End TraceFacts.

(** ** What each kind of step does *)

Module ExecFacts.
Import Syntax Runner.

Lemma exec_command e j i nm id c line cmd r wd :
  parse_command line = cmd →
  exec e j i (Step nm id c (Run [line])) r wd
  = match run_command e j i 0 cmd (ws r) with
    | Some w => (Some (with_ws r w), wd)
    | None => (None, wd)
    end.
Proof.
  intros <-. unfold exec. cbn [step_do script]. unfold sh.
  by destruct (run_command _ _ _ _ _ _).
Qed.

(** A script touches the workspace only. *)
Lemma exec_script e j i nm id c lines r wd :
  exec e j i (Step nm id c (Run lines)) r wd
  = match script e j i 0 lines (ws r) with
    | Some w => (Some (with_ws r w), wd)
    | None => (None, wd)
    end.
Proof. reflexivity. Qed.

Lemma exec_checkout e j i nm id c what args r wd :
  action_name what = "actions/checkout" →
  exec e j i (Step nm id c (Uses what args)) r wd
  = if exit_ok e j i 0 then (Some (with_ws r (repo e)), wd) else (None, wd).
Proof. intros Hn. unfold exec, act. cbn [step_do]. by rewrite Hn. Qed.

Lemma exec_cache e j i nm id c what args r wd :
  action_name what = "actions/cache" →
  exec e j i (Step nm id c (Uses what args)) r wd
  = cache_action e (default "" id) args r wd.
Proof. intros Hn. unfold exec, act. cbn [step_do step_id]. by rewrite Hn. Qed.

Lemma exec_upload e j i nm id c what args name pat r wd :
  action_name what = "actions/upload-artifact" →
  arg e r args "name" = Some name →
  arg e r args "path" = Some pat →
  exec e j i (Step nm id c (Uses what args)) r wd
  = if exit_ok e j i 0 then
      if is_empty (matching pat (ws r)) then (Some r, wd)
      else match artifact_find name wd with
           | Some _ => (None, wd)
           | None =>
               (Some r,
                artifact_put name
                  (rekey (drop (length (art_root pat))) (matching pat (ws r))) wd)
           end
    else (None, wd).
Proof.
  intros Hn Hname Hpat. unfold exec, act. cbn [step_do]. rewrite Hn.
  cbn [String.eqb Ascii.eqb Bool.eqb]. unfold upload_action.
  rewrite Hname, Hpat. by destruct (exit_ok e j i 0).
Qed.

Lemma exec_download e j i nm id c what args name dest r wd :
  action_name what = "actions/download-artifact" →
  arg e r args "name" = Some name →
  arg e r args "path" = Some dest →
  exec e j i (Step nm id c (Uses what args)) r wd
  = if exit_ok e j i 0 then
      match artifact_find name wd with
      | Some fs => (Some (with_ws r (overlay (rekey (app (Path.parse dest)) fs) (ws r))), wd)
      | None => (None, wd)
      end
    else (None, wd).
Proof.
  intros Hn Hname Hdest. unfold exec, act. cbn [step_do]. rewrite Hn.
  cbn [String.eqb Ascii.eqb Bool.eqb]. unfold download_action.
  rewrite Hname, Hdest. by destruct (exit_ok e j i 0).
Qed.

Lemma exec_download_all e j i nm id c what args pat merge dest r wd :
  action_name what = "actions/download-artifact" →
  arg e r args "name" = None →
  arg e r args "pattern" = Some pat →
  arg e r args "merge-multiple" = Some merge →
  arg e r args "path" = Some dest →
  exec e j i (Step nm id c (Uses what args)) r wd
  = if exit_ok e j i 0 then
      (Some (with_ws r (overlay (rekey (app (Path.parse dest))
                                   (merged pat (same merge "true") (artifacts wd)))
                                (ws r))), wd)
    else (None, wd).
Proof.
  intros Hn Hname Hpat Hmerge Hdest. unfold exec, act. cbn [step_do]. rewrite Hn.
  cbn [String.eqb Ascii.eqb Bool.eqb]. unfold download_action.
  rewrite Hname, Hpat, Hmerge, Hdest. by destruct (exit_ok e j i 0).
Qed.

Lemma exec_release e j i nm id c what args pat r wd :
  action_name what = "softprops/action-gh-release" →
  arg e r args "files" = Some pat →
  exec e j i (Step nm id c (Uses what args)) r wd
  = if exit_ok e j i 0
    then (Some r, World (artifacts wd) (caches wd)
                        (by_name (matching pat (ws r)) ∪ release_assets wd) (pypi_files wd))
    else (None, wd).
Proof.
  intros Hn Hpat. unfold exec, act. cbn [step_do]. rewrite Hn.
  cbn [String.eqb Ascii.eqb Bool.eqb]. unfold release_action. by rewrite Hpat.
Qed.

Lemma exec_pypi e j i nm id c what args r wd :
  action_name what = "pypa/gh-action-pypi-publish" →
  arg e r args "packages-dir" = None →
  exec e j i (Step nm id c (Uses what args)) r wd
  = if exit_ok e j i 0
    then (Some r, World (artifacts wd) (caches wd) (release_assets wd)
                        (by_name (under ["dist"] (ws r)) ∪ pypi_files wd))
    else (None, wd).
Proof.
  intros Hn Hdir. unfold exec, act. cbn [step_do]. rewrite Hn.
  cbn [String.eqb Ascii.eqb Bool.eqb]. unfold pypi_action. by rewrite Hdir.
Qed.

(** Any other action only succeeds or fails. *)
Lemma exec_other e j i nm id c what args r wd :
  forallb (fun n => negb (String.eqb (action_name what) n))
    [ "actions/checkout"; "actions/cache"; "actions/upload-artifact";
      "actions/download-artifact"; "softprops/action-gh-release";
      "pypa/gh-action-pypi-publish" ] = true →
  exec e j i (Step nm id c (Uses what args)) r wd
  = if exit_ok e j i 0 then (Some r, wd) else (None, wd).
Proof.
  cbn [forallb]. rewrite !andb_true_iff, !negb_true_iff.
  intros (H1 & H2 & H3 & H4 & H5 & H6 & _).
  unfold exec, act. cbn [step_do]. by rewrite H1, H2, H3, H4, H5, H6.
Qed.

End ExecFacts.

(** ** The steps of the workflow, one by one *)

Module StepFacts.
Import Syntax Runner Publish Pipeline ExecFacts.

Section Steps.
Context (e : env) (j : string) (i : nat) (r : runner) (wd : world).

Lemma do_checkout :
  exec e j i checkout r wd
  = if exit_ok e j i 0 then (Some (with_ws r (repo e)), wd) else (None, wd).
Proof. by apply exec_checkout. Qed.

Lemma do_checkout_v3 :
  exec e j i checkout_v3 r wd
  = if exit_ok e j i 0 then (Some (with_ws r (repo e)), wd) else (None, wd).
Proof. by apply exec_checkout. Qed.

Lemma do_setup_python :
  exec e j i setup_python r wd
  = if exit_ok e j i 0 then (Some r, wd) else (None, wd).
Proof. by apply exec_other. Qed.

Lemma do_setup_python_v3 :
  exec e j i setup_python_v3 r wd
  = if exit_ok e j i 0 then (Some r, wd) else (None, wd).
Proof. by apply exec_other. Qed.

Lemma do_pre_commit_action :
  exec e j i pre_commit_action r wd
  = if exit_ok e j i 0 then (Some r, wd) else (None, wd).
Proof. by apply exec_other. Qed.

Lemma do_install_dependencies :
  exec e j i install_dependencies r wd
  = match script e j i 0
            [ "python -m pip install --upgrade pip"; "pip install -e .";
              "python build_cython.py" ] (ws r) with
    | Some w => (Some (with_ws r w), wd)
    | None => (None, wd)
    end.
Proof. reflexivity. Qed.

Lemma do_get_ccd :
  exec e j i get_ccd r wd
  = if exit_ok e j i 0
    then (Some (with_ws r (write raw_ccd (Blob (fetch e ccd_url)) (ws r))), wd)
    else (None, wd).
Proof.
  unfold get_ccd, named. erewrite exec_command by (vm_compute; reflexivity).
  cbn [run_command]. by destruct (exit_ok e j i 0).
Qed.

Lemma do_get_ccd_freq :
  exec e j i get_ccd_freq r wd
  = if exit_ok e j i 0
    then (Some (with_ws r (write ccd_freq (Blob (fetch e ccd_freq_url)) (ws r))), wd)
    else (None, wd).
Proof.
  unfold get_ccd_freq, named. erewrite exec_command by (vm_compute; reflexivity).
  cbn [run_command]. by destruct (exit_ok e j i 0).
Qed.

Lemma do_cache_ccd :
  exec e j i cache_ccd r wd
  = match cache_find (eval_pieces e r cache_key) wd with
    | Some saved =>
        (Some (Runner (overlay saved (ws r))
                      (set_out "cache-ccd" "cache-hit" "true" (outs r)) (saves r)), wd)
    | None =>
        (Some (Runner (ws r) (set_out "cache-ccd" "cache-hit" "" (outs r))
                      ((eval_pieces e r cache_key, lib) :: saves r)), wd)
    end.
Proof. unfold cache_ccd. by rewrite exec_cache. Qed.

Lemma if_build_internal_ccd :
  holds e r (step_if build_internal_ccd)
  = negb (same (get_out "cache-ccd" "cache-hit" (outs r)) "true").
Proof. reflexivity. Qed.

Lemma do_build_internal_ccd :
  exec e j i build_internal_ccd r wd
  = if exit_ok e j i 0
    then (Some (with_ws r (effect e ["python"; "setup_ccd.py"] (ws r))), wd)
    else (None, wd).
Proof.
  unfold build_internal_ccd. erewrite exec_command by (vm_compute; reflexivity).
  cbn [run_command]. by destruct (exit_ok e j i 0).
Qed.

Lemma do_remove_unprocessed_ccd :
  exec e j i remove_unprocessed_ccd r wd
  = if has raw_ccd (ws r)
    then (Some (with_ws r (remove raw_ccd (ws r))), wd)
    else (None, wd).
Proof.
  unfold remove_unprocessed_ccd, named.
  erewrite exec_command by (vm_compute; reflexivity).
  cbn [run_command]. by destruct (has _ _).
Qed.

Lemma do_install_build_backend :
  exec e j i install_build_backend r wd
  = if exit_ok e j i 0 then (Some (with_ws r (ws r)), wd) else (None, wd).
Proof.
  unfold install_build_backend, named.
  erewrite exec_command by (vm_compute; reflexivity).
  cbn [run_command]. by destruct (exit_ok e j i 0).
Qed.

Lemma do_build_distribution :
  exec e j i build_distribution r wd
  = if exit_ok e j i 0
    then (Some (with_ws r (write (wheel e) (pack e (ws r)) (ws r))), wd)
    else (None, wd).
Proof.
  unfold build_distribution, named.
  erewrite exec_command by (vm_compute; reflexivity).
  cbn [run_command]. by destruct (exit_ok e j i 0).
Qed.

Lemma do_upload_wheel :
  exec e j i upload_wheel r wd = upload e j i r wd "internal-build" "./dist/*.whl" 1.
Proof.
  unfold upload_wheel, named.
  by rewrite (exec_upload _ _ _ _ _ _ _ _ "internal-build" "./dist/*.whl").
Qed.

Lemma do_upload_ccd :
  exec e j i upload_ccd r wd
  = upload e j i r wd "ccd" "./src/bio_datasets/structure/library/components.bcif" 4.
Proof.
  unfold upload_ccd, named.
  by rewrite (exec_upload _ _ _ _ _ _ _ _ "ccd"
                "./src/bio_datasets/structure/library/components.bcif").
Qed.

Lemma do_upload_ccd_freq :
  exec e j i upload_ccd_freq r wd
  = upload e j i r wd "ccd_freq" "./src/bio_datasets/structure/library/cc-counts.tdd" 4.
Proof.
  unfold upload_ccd_freq, named.
  by rewrite (exec_upload _ _ _ _ _ _ _ _ "ccd_freq"
                "./src/bio_datasets/structure/library/cc-counts.tdd").
Qed.

Lemma do_upload_ccd_res_dict :
  exec e j i upload_ccd_res_dict r wd
  = upload e j i r wd "ccd_res_dict"
      "./src/bio_datasets/structure/library/ccd_residue_dictionary.json" 4.
Proof.
  unfold upload_ccd_res_dict, named.
  by rewrite (exec_upload _ _ _ _ _ _ _ _ "ccd_res_dict"
                "./src/bio_datasets/structure/library/ccd_residue_dictionary.json").
Qed.

Lemma do_upload_sdist :
  exec e j i upload_sdist r wd = upload e j i r wd "release-sdist" "dist//*.tar.gz" 1.
Proof.
  unfold upload_sdist, uses.
  by rewrite (exec_upload _ _ _ _ _ _ _ _ "release-sdist" "dist//*.tar.gz").
Qed.

Lemma do_test :
  exec e j i test r wd
  = if exit_ok e j i 0 then (Some (with_ws r (ws r)), wd) else (None, wd).
Proof.
  unfold test, named. erewrite exec_command by (vm_compute; reflexivity).
  cbn [run_command]. by destruct (exit_ok e j i 0).
Qed.

Lemma do_add_ccd : exec e j i add_ccd r wd = download e j i r wd "ccd".
Proof.
  unfold add_ccd, named.
  by rewrite (exec_download _ _ _ _ _ _ _ _ "ccd" "src/bio_datasets/structure/library/").
Qed.

Lemma do_add_ccd_freq : exec e j i add_ccd_freq r wd = download e j i r wd "ccd_freq".
Proof.
  unfold add_ccd_freq, named.
  by rewrite (exec_download _ _ _ _ _ _ _ _ "ccd_freq" "src/bio_datasets/structure/library/").
Qed.

Lemma do_add_ccd_res_dict : exec e j i add_ccd_res_dict r wd = download e j i r wd "ccd_res_dict".
Proof.
  unfold add_ccd_res_dict, named.
  by rewrite (exec_download _ _ _ _ _ _ _ _ "ccd_res_dict" "src/bio_datasets/structure/library/").
Qed.

Lemma do_build_source_distribution :
  exec e j i build_source_distribution r wd
  = if exit_ok e j i 0
    then (Some (with_ws r (write (tarball e) (pack e (ws r)) (ws r))), wd)
    else (None, wd).
Proof.
  unfold build_source_distribution, named.
  erewrite exec_command by (vm_compute; reflexivity).
  cbn [run_command]. by destruct (exit_ok e j i 0).
Qed.

Lemma do_clean_dist :
  exec e j i clean_dist r wd = (Some (with_ws r (outside ["dist"] (ws r))), wd).
Proof.
  unfold clean_dist, named. by erewrite exec_command by (vm_compute; reflexivity).
Qed.

Lemma do_download_release :
  exec e j i download_release r wd
  = if exit_ok e j i 0 then
      (Some (with_ws r (overlay (rekey (app ["dist"])
                                   (merged "release-*" true (artifacts wd)))
                                (ws r))), wd)
    else (None, wd).
Proof.
  unfold download_release, uses.
  by rewrite (exec_download_all _ _ _ _ _ _ _ _ "release-*" "true" "dist").
Qed.

Lemma do_list_distributions :
  exec e j i list_distributions r wd
  = if exit_ok e j i 0 then (Some (with_ws r (ws r)), wd) else (None, wd).
Proof.
  unfold list_distributions, named.
  erewrite exec_command by (vm_compute; reflexivity).
  cbn [run_command]. by destruct (exit_ok e j i 0).
Qed.

Lemma do_upload_to_github_releases :
  exec e j i upload_to_github_releases r wd
  = if exit_ok e j i 0
    then (Some r, World (artifacts wd) (caches wd)
                        (by_name (matching "dist//*" (ws r)) ∪ release_assets wd)
                        (pypi_files wd))
    else (None, wd).
Proof.
  unfold upload_to_github_releases, named.
  by rewrite (exec_release _ _ _ _ _ _ _ _ "dist//*").
Qed.

Lemma do_upload_to_pypi :
  exec e j i upload_to_pypi r wd
  = if exit_ok e j i 0
    then (Some r, World (artifacts wd) (caches wd) (release_assets wd)
                        (by_name (under ["dist"] (ws r)) ∪ pypi_files wd))
    else (None, wd).
Proof. unfold upload_to_pypi, named. by rewrite exec_pypi. Qed.

End Steps.

End StepFacts.

(** ** Facts about the cache key *)

Module CacheKeyFacts.
Import Syntax Runner Publish Pipeline StepFacts CacheKey FilesFacts TextFacts.

Lemma key_of_runner e r : eval_pieces e r cache_key = key e (ws r).
Proof. reflexivity. Qed.

Lemma hashFiles_literal (e : env) (pat : string) (w : files) :
  forallb (fun g => negb (Text.mentions "*" g)) (Path.parse pat) = true →
  hashFiles e pat w = hash_of e w (Path.parse pat).
Proof.
  intros Hlit. unfold hashFiles, hash_of. rewrite (matching_literal _ _ Hlit).
  destruct (w !! Path.parse pat) as [c|].
  - by rewrite map_to_list_singleton.
  - by rewrite map_to_list_empty.
Qed.

(** The key spelled out: a function of the three content hashes. *)
Lemma key_spelled (e : env) (w : files) :
  key e w
  = "cache-" +:+ hash_of e w setup_ccd
    +:+ "-" +:+ hash_of e w raw_ccd
    +:+ "-" +:+ hash_of e w ccd_freq +:+ "".
Proof.
  unfold key, eval_pieces, cache_key. cbn [List.map eval_piece eval_s Text.concat ws].
  by rewrite !hashFiles_literal.
Qed.

Lemma app_empty_r (s : string) : s +:+ "" = s.
Proof. induction s as [|a s IH]; [done|]. change (String a (s +:+ "") = String a s). by rewrite IH. Qed.

Lemma app_dash_inj (a a' x x' : string) :
  Text.mentions "-" a = false → Text.mentions "-" a' = false →
  a +:+ String "-" x = a' +:+ String "-" x' → a = a' ∧ x = x'.
Proof.
  revert a'. induction a as [|c a IH]; intros [|c' a'] Ha Ha' Heq.
  - by injection Heq as ->.
  - apply mentions_cons in Ha' as [Hc _]. injection Heq as <- _. done.
  - apply mentions_cons in Ha as [Hc _]. injection Heq as -> _. done.
  - apply mentions_cons in Ha as [_ Ha]. apply mentions_cons in Ha' as [_ Ha'].
    injection Heq as -> Heq. destruct (IH a' Ha Ha' Heq) as [-> ->]. done.
Qed.

Lemma all_hex_no_dash (s : string) : all_hex s = true → Text.mentions "-" s = false.
Proof.
  induction s as [|a s IH]; [done|]. simpl.
  intros [Ha Hs]%andb_true_iff. rewrite (IH Hs), orb_false_r.
  destruct (Ascii.eqb_spec a "-") as [->|]; done.
Qed.

Section Digest.
Context (e : env) (Hhex : ∀ c, is_digest (digest e c) = true).

Lemma hash_of_no_dash (w : files) (p : list string) : Text.mentions "-" (hash_of e w p) = false.
Proof.
  unfold hash_of. destruct (w !! p); [|done].
  apply all_hex_no_dash. specialize (Hhex (Blob (Text.concat [digest e c]))).
  by apply andb_true_iff in Hhex as [_ ?].
Qed.

(** Equal keys have equal hashes, one by one. *)
Lemma key_inj (w1 w2 : files) :
  key e w1 = key e w2 ↔ ∀ p, p ∈ inputs → hash_of e w1 p = hash_of e w2 p.
Proof.
  rewrite !key_spelled. split.
  - intros Heq. apply (inj (String.app "cache-")) in Heq.
    apply app_dash_inj in Heq as [H1 Heq]; [|apply hash_of_no_dash..].
    apply app_dash_inj in Heq as [H2 Heq]; [|apply hash_of_no_dash..].
    rewrite !app_empty_r in Heq.
    intros p Hp. unfold inputs in Hp.
    repeat (apply elem_of_cons in Hp as [->|Hp]; [done|]). by apply elem_of_nil in Hp.
  - intros Hall. rewrite !Hall; [done|unfold inputs; repeat constructor..].
Qed.

(** With no collision among what is hashed, equal hashes mean equal files. *)
Lemma hash_of_inj (w1 w2 : files) (p : list string) :
  p ∈ inputs →
  collision_free e (hashed e w1 ++ hashed e w2) = true →
  hash_of e w1 p = hash_of e w2 p → w1 !! p = w2 !! p.
Proof.
  intros Hp Hfree Heq.
  assert (∀ c c', c ∈ (hashed e w1 ++ hashed e w2)%list →
            c' ∈ (hashed e w1 ++ hashed e w2)%list →
            digest e c = digest e c' → c = c') as Hinj.
  { intros c c' Hc Hc' Hd. unfold collision_free in Hfree.
    rewrite forallb_forall in Hfree. apply list_elem_of_In in Hc, Hc'.
    specialize (Hfree c Hc). rewrite forallb_forall in Hfree.
    specialize (Hfree c' Hc'). rewrite Hd, String.eqb_refl in Hfree.
    by apply bool_decide_eq_true in Hfree. }
  assert (∀ (w : files) c, w !! p = Some c →
            c ∈ hashed e w ∧ Blob (Text.concat [digest e c]) ∈ hashed e w) as Hin.
  { intros w c Hw. unfold hashed. rewrite !list_elem_of_In, !in_concat.
    split; eexists; (split; [apply in_map_iff; exists p; split;
      [reflexivity|by apply list_elem_of_In]|]); rewrite Hw; simpl; auto. }
  unfold hash_of in Heq.
  destruct (w1 !! p) as [c1|] eqn:H1, (w2 !! p) as [c2|] eqn:H2.
  - destruct (Hin w1 c1 H1) as [Ha Hb], (Hin w2 c2 H2) as [Ha' Hb'].
    apply Hinj in Heq; [|apply elem_of_app; by left|apply elem_of_app; by right].
    injection Heq as Heq. rewrite !app_empty_r in Heq.
    apply Hinj in Heq; [|apply elem_of_app; by left|apply elem_of_app; by right].
    by subst.
  - specialize (Hhex (Blob (Text.concat [digest e c1]))). rewrite Heq in Hhex. done.
  - specialize (Hhex (Blob (Text.concat [digest e c2]))). rewrite <- Heq in Hhex. done.
  - done.
Qed.

End Digest.

End CacheKeyFacts.

(** ** The [build-internal] job *)

Module BuildInternalFacts.
Import Syntax Runner Publish Pipeline StepFacts CacheKey.
Import TextFacts FilesFacts Trace TraceFacts ExecFacts CacheKeyFacts.

Lemma steps_nodup : NoDup (job_steps build_internal).
Proof. apply (bool_decide_unpack _). vm_compute. reflexivity. Qed.

Ltac enter H Hx :=
  let r := fresh "r" in
  let wd := fresh "wd" in
  apply reach_always in H as (r & wd & Hx & H); [|reflexivity].

Ltac pass Hx :=
  match type of Hx with
  | (if ?b then _ else _) = _ => destruct b eqn:?; [|discriminate Hx]; injection Hx as <- <-
  end.

Lemma get_set_out id n v o : get_out id n (set_out id n v o) = v.
Proof. unfold get_out, set_out. by rewrite lookup_insert_eq. Qed.

Lemma downloaded_raw_ccd (e : env) (w : files) :
  downloaded e w !! raw_ccd = Some (Blob (fetch e ccd_url)).
Proof.
  unfold downloaded, write. rewrite lookup_insert_ne by done. apply lookup_insert_eq.
Qed.

Lemma downloaded_ccd_freq (e : env) (w : files) :
  downloaded e w !! ccd_freq = Some (Blob (fetch e ccd_freq_url)).
Proof. unfold downloaded, write. apply lookup_insert_eq. Qed.

(** Up to the cache lookup: the checkout, the interpreter, the
    dependencies and the two downloads. *)
Lemma before_cache e wd r wd' :
  reach e "build-internal" 0 (take 5 (job_steps build_internal)) fresh wd = Some (r, wd') →
  wd' = wd ∧ outs r = ∅ ∧ saves r = [] ∧ ∃ w, ws r = downloaded e w.
Proof.
  cbn [take job_steps build_internal]. intros H.
  enter H H0. enter H H1. enter H H2. enter H H3. enter H H4.
  injection H as <- <-.
  rewrite do_checkout in H0. pass H0.
  rewrite do_setup_python in H1. pass H1.
  rewrite do_install_dependencies in H2.
  destruct (script _ _ _ _ _ _) as [w|] eqn:Hw; [|discriminate H2].
  injection H2 as <- <-.
  rewrite do_get_ccd in H3. pass H3.
  rewrite do_get_ccd_freq in H4. pass H4.
  cbn [with_ws ws outs saves fresh]. eauto 6.
Qed.

(** After the removal, the raw dictionary is gone. *)
Lemma after_remove e wd r wd' :
  reach e "build-internal" 0 (take 8 (job_steps build_internal)) fresh wd = Some (r, wd') →
  ws r !! raw_ccd = None.
Proof.
  change (take 8 (job_steps build_internal))
    with (take 7 (job_steps build_internal) ++ [remove_unprocessed_ccd]).
  intros (r7 & wd7 & _ & Hx)%reach_snoc; [|done].
  rewrite do_remove_unprocessed_ccd in Hx.
  destruct (has raw_ccd (ws r7)); [|done]. injection Hx as <- _.
  apply lookup_delete_eq.
Qed.

Lemma upload_cases e j i r wd name pat n r' wd' :
  upload e j i r wd name pat n = (Some r', wd') →
  r' = r ∧ ((matching pat (ws r) = ∅ ∧ wd' = wd)
            ∨ (artifact_find name wd = None
               ∧ matching pat (ws r) ≠ ∅
               ∧ wd' = artifact_put name (rekey (drop n) (matching pat (ws r))) wd)).
Proof.
  unfold upload. destruct (exit_ok e j i 0); [|done].
  destruct (is_empty _) eqn:Hempty.
  { intros [= <- <-]. apply is_empty_true in Hempty. auto. }
  destruct (artifact_find name wd) eqn:Hfind; [done|].
  intros [= <- <-]. split; [done|]. right. split; [done|]. split; [|done].
  intros Heq. apply is_empty_true in Heq. congruence.
Qed.

Ltac step_cases Hs :=
  repeat (apply elem_of_cons in Hs as [->|Hs]); [..|by apply elem_of_nil in Hs].

Lemma after_removal_index s :
  s ∈ after_removal → ∃ k, job_steps build_internal !! k = Some s ∧ 7 < k.
Proof.
  intros Hs. unfold after_removal in Hs. step_cases Hs;
    [exists 8|exists 9|exists 10|exists 11|exists 12|exists 13|exists 14];
    (split; [done|lia]).
Qed.

(** None of them brings it back. *)
Lemma after_removal_keeps e j i s r wd r' wd' :
  s ∈ after_removal →
  exec e j i s r wd = (Some r', wd') →
  ws r !! raw_ccd = None → ws r' !! raw_ccd = None.
Proof.
  intros Hs Hx Habsent. unfold after_removal in Hs. step_cases Hs.
  - rewrite do_install_build_backend in Hx. by pass Hx.
  - rewrite do_build_distribution in Hx. pass Hx.
    cbn [ws with_ws]. unfold write. by rewrite lookup_insert_ne.
  - rewrite do_upload_wheel in Hx. by apply upload_cases in Hx as [-> _].
  - rewrite do_upload_ccd in Hx. by apply upload_cases in Hx as [-> _].
  - rewrite do_upload_ccd_freq in Hx. by apply upload_cases in Hx as [-> _].
  - rewrite do_upload_ccd_res_dict in Hx. by apply upload_cases in Hx as [-> _].
  - rewrite do_test in Hx. by pass Hx.
Qed.

(** So whatever runs after the removal starts without it. *)
Lemma absent_after_removal e wd s k r wd' :
  job_steps build_internal !! k = Some s → s ∈ after_removal →
  reach e "build-internal" 0 (take k (job_steps build_internal)) fresh wd = Some (r, wd') →
  ws r !! raw_ccd = None.
Proof.
  intros Hk Hs Hreach.
  assert (8 ≤ k) as Hle.
  { destruct (decide (8 ≤ k)) as [|Hlt]; [done|]. exfalso.
    assert (k < 8) as Hk8 by lia. clear Hlt Hreach.
    do 8 (destruct k as [|k]; [simpl in Hk; injection Hk as <-; revert Hs;
           apply (proj1 (bool_decide_eq_false _)); vm_compute; reflexivity|]). lia. }
  replace k with (8 + (k - 8)) in Hreach by lia.
  rewrite <- take_take_drop, reach_app in Hreach.
  destruct (reach _ _ _ (take 8 _) _ _) as [[r8 wd8]|] eqn:H8; [|done].
  apply after_remove in H8.
  eapply (reach_preserves e "build-internal" (λ r, ws r !! raw_ccd = None));
    [|exact Hreach|exact H8].
  intros i0 s0 r0 wd0 r1 wd1 Hin. apply after_removal_keeps.
  by apply subseteq_take in Hin.
Qed.

Lemma in_names (w : files) (p : list string) : p ∈ names w → is_Some (w !! p).
Proof.
  unfold names. intros Hin. apply list_elem_of_In, in_map_iff in Hin as ([p' c] & <- & Hin).
  exists c. by apply elem_of_map_to_list, list_elem_of_In.
Qed.

(** What the wheel packs is in the workspace it is built from. *)
Lemma packed_in_workspace (e : env) (w : files) (p : list string) (ms : list (list string)) :
  pack e w = Pkg ms → p ∈ ms → is_Some (w !! p).
Proof.
  unfold pack. intros [= <-] Hin. apply in_names.
  apply list_elem_of_In, filter_In in Hin as [Hin _]. by apply list_elem_of_In.
Qed.




Lemma artifacts_put name fs wd name' :
  artifacts (artifact_put name fs wd) !! name'
  = if decide (name = name') then Some fs else artifacts wd !! name'.
Proof. unfold artifact_put, with_artifacts. cbn [artifacts]. apply lookup_insert. Qed.

(** What a single-file search path uploads. *)
Lemma found_literal (pat : string) (n : nat) (w : files) (q : list string) (c : content) :
  forallb (fun g => negb (Text.mentions "*" g)) (Path.parse pat) = true →
  rekey (drop n) (matching pat w) !! q = Some c →
  q = drop n (Path.parse pat) ∧ w !! Path.parse pat = Some c.
Proof.
  intros Hlit (p & -> & [Hp Hg]%lookup_matching)%rekey_lookup_inv.
  apply (path_literal _ Hlit) in Hg. by subst.
Qed.

(** What [dir/*suffix] uploads. *)
Lemma found_in_dir (pat dir suffix : string) (w : files) (q : list string) (c : content) :
  Path.parse pat = [dir; String "*" suffix] →
  Text.mentions "*" dir = false → Text.mentions "*" suffix = false →
  rekey (drop 1) (matching pat w) !! q = Some c →
  ∃ x, q = [x] ∧ Text.ends_with suffix x = true ∧ w !! [dir; x] = Some c.
Proof.
  intros Hpat Hdir Hsuf (p & -> & [Hp Hg]%lookup_matching)%rekey_lookup_inv.
  unfold Glob.file in Hg. rewrite Hpat in Hg.
  destruct p as [|d [|x [|? ?]]]; cbn [Glob.path] in Hg;
    rewrite ?andb_false_r in Hg; try discriminate.
  apply andb_true_iff in Hg as [Hd [Hx _]%andb_true_iff].
  rewrite (seg_literal _ Hdir) in Hd.
  apply String.eqb_eq in Hd as ->. rewrite (seg_star _ Hsuf) in Hx. eauto.
Qed.

Lemma wheel_upload_shape (w : files) :
  internal_shape "internal-build" (rekey (drop 1) (matching "./dist/*.whl" w)).
Proof.
  left. split; [done|]. intros q c (x & -> & Hx & _)%(found_in_dir _ "dist" ".whl"); [|done..].
  eauto.
Qed.

Lemma literal_upload_single (pat : string) (n : nat) (w : files) :
  forallb (fun g => negb (Text.mentions "*" g)) (Path.parse pat) = true →
  matching pat w ≠ ∅ →
  ∃ c, w !! Path.parse pat = Some c
       ∧ rekey (drop n) (matching pat w) = {[ drop n (Path.parse pat) := c ]}.
Proof.
  intros Hlit. rewrite (matching_literal _ _ Hlit).
  destruct (w !! Path.parse pat) as [c|]; [|done]. intros _.
  exists c. by rewrite rekey_singleton.
Qed.

Lemma upload_since P e j i r wd0 wd name pat n :
  (∀ w, matching pat w ≠ ∅ → P name (rekey (drop n) (matching pat w))) →
  artifacts_since P wd0 wd → artifacts_since P wd0 (snd (upload e j i r wd name pat n)).
Proof.
  intros Hpat Hwd. destruct (upload e j i r wd name pat n) as [[r'|] wd'] eqn:Hx;
    cbn [snd].
  - apply upload_cases in Hx as [_ [[_ ->]|(_ & Hfound & ->)]]; [done|].
    intros name' fs Hnew. rewrite artifacts_put. case_decide; [|by apply Hwd].
    intros [= <-]. subst. by apply Hpat.
  - unfold upload in Hx. repeat case_match; by simplify_eq.
Qed.

Lemma build_internal_since e j i s r wd0 wd :
  s ∈ job_steps build_internal →
  artifacts_since internal_shape wd0 wd →
  artifacts_since internal_shape wd0 (snd (exec e j i s r wd)).
Proof.
  intros Hs Hwd. cbn [job_steps build_internal] in Hs. step_cases Hs.
  - rewrite do_checkout. by destruct (exit_ok e j i 0).
  - rewrite do_setup_python. by destruct (exit_ok e j i 0).
  - rewrite do_install_dependencies. by destruct (script _ _ _ _ _ _).
  - rewrite do_get_ccd. by destruct (exit_ok e j i 0).
  - rewrite do_get_ccd_freq. by destruct (exit_ok e j i 0).
  - rewrite do_cache_ccd. by destruct (cache_find _ _).
  - rewrite do_build_internal_ccd. by destruct (exit_ok e j i 0).
  - rewrite do_remove_unprocessed_ccd. by destruct (has _ _).
  - rewrite do_install_build_backend. by destruct (exit_ok e j i 0).
  - rewrite do_build_distribution. by destruct (exit_ok e j i 0).
  - rewrite do_upload_wheel. apply upload_since; [|done].
    intros w _. apply wheel_upload_shape.
  - rewrite do_upload_ccd. apply upload_since; [|done].
    intros w (c & _ & ->)%(literal_upload_single _ 4); [|done].
    right; left. eauto.
  - rewrite do_upload_ccd_freq. apply upload_since; [|done].
    intros w (c & _ & ->)%(literal_upload_single _ 4); [|done].
    right; right; left. eauto.
  - rewrite do_upload_ccd_res_dict. apply upload_since; [|done].
    intros w (c & _ & ->)%(literal_upload_single _ 4); [|done].
    right; right; right. eauto.
  - rewrite do_test. by destruct (exit_ok e j i 0).
Qed.

(** The artifacts the job leaves have the expected shape. *)
Lemma build_internal_artifacts e wd :
  artifacts_since internal_shape wd (snd (run_job e build_internal wd)).
Proof.
  destruct (run_job_run e build_internal wd) as (ok & rf & wf & Hrun & ->).
  destruct (run_invariant e "build-internal" (artifacts_since internal_shape wd)
              _ _ _ _ _ _ _ _ _ Hrun) as [Hwf _].
  - intros. by apply build_internal_since.
  - intros name fs Hnone Hsome. congruence.
  - destruct ok; [|done]. cbn [snd]. unfold artifacts_since.
    by rewrite artifacts_save_caches.
Qed.

Lemma shape_plain name fs : internal_shape name fs → without_raw_ccd fs.
Proof.
  intros [[_ Hw]|[(_ & c & ->)|[(_ & c & ->)|(_ & c & ->)]]] q c' Hq.
  - destruct (Hw _ _ Hq) as (x & -> & Hx). change (x ≠ "components.cif.gz").
    intros ->. by vm_compute in Hx.
  - apply lookup_singleton_Some in Hq as [<- _]. by vm_compute.
  - apply lookup_singleton_Some in Hq as [<- _]. by vm_compute.
  - apply lookup_singleton_Some in Hq as [<- _]. by vm_compute.
Qed.

Global Instance keeps_artifacts_preorder : PreOrder keeps_artifacts.
Proof. split; [by intros wd name|]. intros w1 w2 w3 H12 H23 name ?. by apply H23, H12. Qed.


(** After the lookup and, on a miss, the processing: the three files that
    get bundled are in the library directory. *)
Lemma before_remove e wd r wd' :
  processing_ok e → cache_holds_outputs wd →
  reach e "build-internal" 0 (take 7 (job_steps build_internal)) fresh wd = Some (r, wd') →
  wd' = wd ∧ is_Some (ws r !! ccd) ∧ is_Some (ws r !! ccd_freq)
  ∧ is_Some (ws r !! ccd_res_dict).
Proof.
  intros Hproc Hcache.
  change (take 7 (job_steps build_internal))
    with (take 5 (job_steps build_internal) ++ [cache_ccd; build_internal_ccd]).
  rewrite reach_app.
  destruct (reach _ _ _ (take 5 _) _ _) as [[r5 wd5]|] eqn:H5; [|done].
  apply before_cache in H5 as (-> & _ & _ & w & Hw).
  intros H. enter H H6. rewrite do_cache_ccd in H6.
  cbn [reach] in H. rewrite if_build_internal_ccd in H.
  destruct (cache_find _ _) as [saved|] eqn:Hfind; injection H6 as <- <-;
    cbn [outs] in H; rewrite get_set_out in H.
  - injection H as <- <-. cbn [ws]. unfold overlay.
    destruct (Hcache _ _ Hfind) as [Hccd Hdict].
    split; [done|]. rewrite !lookup_union_is_Some, Hw.
    split; [by left|]. split; [|by left].
    right. by rewrite downloaded_ccd_freq.
  - change (negb (same "" "true")) with true in H. cbn iota in H.
    rewrite do_build_internal_ccd in H.
    destruct (exit_ok e _ _ 0); [|done]. injection H as <- <-.
    cbn [ws with_ws]. destruct (Hproc (downloaded e w)) as (? & ? & Hfreq).
    rewrite Hw. split; [done|]. split; [done|]. split; [|done].
    apply Hfreq. by rewrite downloaded_ccd_freq.
Qed.

(** After the removal and the build: the wheel is there too. *)
Lemma before_uploads e wd r wd' :
  processing_ok e → cache_holds_outputs wd →
  reach e "build-internal" 0 (take 10 (job_steps build_internal)) fresh wd = Some (r, wd') →
  wd' = wd ∧ is_Some (ws r !! wheel e) ∧ is_Some (ws r !! ccd)
  ∧ is_Some (ws r !! ccd_freq) ∧ is_Some (ws r !! ccd_res_dict).
Proof.
  intros Hproc Hcache.
  change (take 10 (job_steps build_internal))
    with (take 7 (job_steps build_internal)
          ++ [remove_unprocessed_ccd; install_build_backend; build_distribution]).
  rewrite reach_app.
  destruct (reach _ _ _ (take 7 _) _ _) as [[r7 wd7]|] eqn:H7; [|done].
  apply before_remove in H7 as (-> & Hccd & Hfreq & Hdict); [|done..].
  intros H. enter H H8. enter H H9. enter H H10. injection H as <- <-.
  rewrite do_remove_unprocessed_ccd in H8. pass H8.
  rewrite do_install_build_backend in H9. pass H9.
  rewrite do_build_distribution in H10. pass H10.
  cbn [ws with_ws]. unfold write, remove. split; [done|].
  rewrite lookup_insert_eq. split; [done|].
  rewrite !lookup_insert_ne, !lookup_delete_ne by done. done.
Qed.





End BuildInternalFacts.

(** ** The workflow, job by job *)

Module WorkflowFacts.
Import Syntax Runner Publish Pipeline StepFacts Stages.
Import TextFacts FilesFacts Trace TraceFacts ExecFacts.

Lemma run_jobs_cons e log jb js wd :
  run_jobs e log (jb :: js) wd
  = if ready e log jb
    then run_jobs e ((job_id jb, fst (run_job e jb wd)) :: log) js (snd (run_job e jb wd))
    else run_jobs e ((job_id jb, (NotRun, [])) :: log) js wd.
Proof. reflexivity. Qed.

Lemma ready_sdist e v1 t1 v2 t2 :
  ready e [("build-internal", (v2, t2)); ("pre-commit", (v1, t1))] sdist
  = succeeded v1 && succeeded v2.
Proof. by destruct v1, v2. Qed.

Lemma ready_upload_package e v1 t1 v2 t2 v3 t3 :
  ready e [("sdist", (v3, t3)); ("build-internal", (v2, t2)); ("pre-commit", (v1, t1))]
    upload_package
  = succeeded v2 && succeeded v3 && holds e fresh (job_if upload_package).
Proof. by destruct v2, v3. Qed.

Lemma workflow_stages e wd :
  run_workflow e publish_yml wd
  = if triggered e
    then ([ ("upload-package", fst (upload_package_run e wd));
            ("sdist", fst (sdist_run e wd));
            ("build-internal", fst (build_internal_run e wd));
            ("pre-commit", fst (pre_commit_run e wd)) ],
          snd (upload_package_run e wd))
    else ([], wd).
Proof.
  unfold run_workflow, triggered. destruct (existsb _ _); [|done].
  unfold upload_package_run, sdist_run.
  change (wf_jobs publish_yml) with [pre_commit; build_internal; sdist; upload_package].
  rewrite run_jobs_cons. change (ready e [] pre_commit) with true. cbn iota.
  destruct (run_job e pre_commit _) as [[v1 t1] w1]. cbn [fst snd].
  rewrite run_jobs_cons. change (ready e _ build_internal) with true. cbn iota.
  destruct (run_job e build_internal w1) as [[v2 t2] w2]. cbn [fst snd].
  rewrite run_jobs_cons.
  change (job_id pre_commit) with "pre-commit".
  change (job_id build_internal) with "build-internal".
  rewrite ready_sdist.
  destruct (succeeded v1 && succeeded v2).
  - destruct (run_job e sdist w2) as [[v3 t3] w3]. cbn [fst snd].
    rewrite run_jobs_cons. change (job_id sdist) with "sdist".
    rewrite ready_upload_package.
    destruct (succeeded v2 && succeeded v3 && holds e fresh (job_if upload_package)).
    + exact eq_refl.
    + exact eq_refl.
  - rewrite run_jobs_cons.  change (job_id sdist) with "sdist".
    rewrite ready_upload_package. cbn [fst snd succeeded andb].
    rewrite andb_false_r. cbn [andb]. exact eq_refl.
Qed.
(** The log of the workflow, read job by job. *)
Lemma untriggered e wd n :
  triggered e = false →
  verdict_of (fst (run_workflow e publish_yml wd)) n = NotRun
  ∧ trace_of (fst (run_workflow e publish_yml wd)) n = [].
Proof. intros Ht. by rewrite workflow_stages, Ht. Qed.

Lemma stage_pre_commit e wd :
  triggered e = true →
  verdict_of (fst (run_workflow e publish_yml wd)) "pre-commit" = fst (fst (pre_commit_run e wd))
  ∧ trace_of (fst (run_workflow e publish_yml wd)) "pre-commit"
    = snd (fst (pre_commit_run e wd)).
Proof.
  intros Ht. rewrite workflow_stages, Ht.
  generalize (fst (upload_package_run e wd)), (fst (sdist_run e wd)),
    (fst (build_internal_run e wd)), (fst (pre_commit_run e wd)).
  by intros [] [] [] [].
Qed.

Lemma stage_build_internal e wd :
  triggered e = true →
  verdict_of (fst (run_workflow e publish_yml wd)) "build-internal"
  = fst (fst (build_internal_run e wd))
  ∧ trace_of (fst (run_workflow e publish_yml wd)) "build-internal"
    = snd (fst (build_internal_run e wd)).
Proof.
  intros Ht. rewrite workflow_stages, Ht.
  generalize (fst (upload_package_run e wd)), (fst (sdist_run e wd)),
    (fst (build_internal_run e wd)), (fst (pre_commit_run e wd)).
  by intros [] [] [] [].
Qed.

Lemma stage_sdist e wd :
  triggered e = true →
  verdict_of (fst (run_workflow e publish_yml wd)) "sdist" = fst (fst (sdist_run e wd))
  ∧ trace_of (fst (run_workflow e publish_yml wd)) "sdist" = snd (fst (sdist_run e wd)).
Proof.
  intros Ht. rewrite workflow_stages, Ht.
  generalize (fst (upload_package_run e wd)), (fst (sdist_run e wd)),
    (fst (build_internal_run e wd)), (fst (pre_commit_run e wd)).
  by intros [] [] [] [].
Qed.

Lemma stage_upload_package e wd :
  triggered e = true →
  verdict_of (fst (run_workflow e publish_yml wd)) "upload-package"
  = fst (fst (upload_package_run e wd))
  ∧ trace_of (fst (run_workflow e publish_yml wd)) "upload-package"
    = snd (fst (upload_package_run e wd))
  ∧ snd (run_workflow e publish_yml wd) = snd (upload_package_run e wd).
Proof.
  intros Ht. rewrite workflow_stages, Ht.
  generalize (snd (upload_package_run e wd)).
  generalize (fst (upload_package_run e wd)), (fst (sdist_run e wd)),
    (fst (build_internal_run e wd)), (fst (pre_commit_run e wd)).
  by intros [] [] [] [].
Qed.

(** When a job was started. *)
Lemma sdist_started e wd :
  fst (fst (sdist_run e wd)) ≠ NotRun ∨ snd (fst (sdist_run e wd)) ≠ [] →
  fst (fst (pre_commit_run e wd)) = Success
  ∧ fst (fst (build_internal_run e wd)) = Success
  ∧ sdist_run e wd = run_job e sdist (snd (build_internal_run e wd)).
Proof.
  unfold sdist_run.
  destruct (fst (fst (pre_commit_run e wd))), (fst (fst (build_internal_run e wd)));
    cbn [succeeded andb fst snd]; intros [?|?]; done.
Qed.

Lemma upload_package_started e wd :
  fst (fst (upload_package_run e wd)) ≠ NotRun ∨ snd (fst (upload_package_run e wd)) ≠ [] →
  fst (fst (build_internal_run e wd)) = Success
  ∧ fst (fst (sdist_run e wd)) = Success
  ∧ holds e fresh (job_if upload_package) = true
  ∧ upload_package_run e wd = run_job e upload_package (snd (sdist_run e wd)).
Proof.
  unfold upload_package_run.
  destruct (fst (fst (build_internal_run e wd))), (fst (fst (sdist_run e wd))),
    (holds e fresh (job_if upload_package));
    cbn [succeeded andb fst snd]; intros [?|?]; done.
Qed.

Lemma run_job_trace e jb wd : snd (fst (run_job e jb wd)) = job_trace e jb wd.
Proof. destruct (run_job_run e jb wd) as (ok & rf & wf & _ & ->). by destruct ok. Qed.

Lemma run_job_verdict e jb wd : fst (fst (run_job e jb wd)) ≠ NotRun.
Proof. destruct (run_job_run e jb wd) as (ok & rf & wf & _ & ->). by destruct ok. Qed.

(** In a job that succeeded, every step without condition has passed. *)
Lemma success_passed e jb wd s k :
  NoDup (job_steps jb) → job_steps jb !! k = Some s → step_if s = None →
  fst (fst (run_job e jb wd)) = Success → passed s (job_trace e jb wd).
Proof.
  intros Hnodup Hk Hif Hv.
  destruct (run_job_run e jb wd) as (ok & rf & wf & Hrun & Heq). rewrite Heq in Hv.
  destruct ok; [clear Hv|done].
  destruct (entry_at e jb wd s k Hnodup Hk) as (en & Hen & Hs & _).
  exists en. split; [by eapply list_elem_of_lookup_2|]. split; [done|].
  pose proof (run_verdict _ _ _ _ _ _ _ _ _ _ _ Hrun) as Hall. cbn [andb] in Hall.
  symmetry in Hall. rewrite forallb_forall in Hall.
  specialize (Hall en ltac:(by eapply list_elem_of_In, list_elem_of_lookup_2)).
  destruct (e_outcome en) eqn:Hout; [done|done|]. exfalso.
  destruct (run_reach _ _ _ _ _ _ _ _ _ _ Hrun _ _ Hen) as [Hiff Hst].
  assert (e_outcome en ≠ Skipped) as Hne; [|done].
  apply Hiff. rewrite Hs, Hif. split; [|done].
  pose proof (run_success _ _ _ _ _ _ _ _ _ _ _ Hrun eq_refl eq_refl) as Hreach.
  rewrite <- (take_drop k (job_steps jb)), reach_app in Hreach.
  destruct (reach _ _ _ (take k _) _ _) as [st|] eqn:Hk'; [|done].
  by rewrite (Hst st eq_refl).
Qed.

Lemma pre_commit_nodup : NoDup (job_steps pre_commit).
Proof. apply (bool_decide_unpack _). vm_compute. reflexivity. Qed.

(** The [pre-commit] job leaves the world as it found it. *)
Lemma pre_commit_world e wd : snd (run_job e pre_commit wd) = wd.
Proof.
  destruct (run_job_run e pre_commit wd) as (ok & rf & wf & Hrun & ->).
  destruct (run_invariant e "pre-commit" (λ w, w = wd) _ _ _ _ _ _ _ _ _ Hrun)
    as [-> _]; [|done|].
  { intros i s r w Hs ->. cbn [job_steps pre_commit] in Hs.
    repeat (apply elem_of_cons in Hs as [->|Hs]); [..|by apply elem_of_nil in Hs].
    - rewrite do_checkout_v3. by destruct (exit_ok _ _ _ _).
    - rewrite do_setup_python_v3. by destruct (exit_ok _ _ _ _).
    - rewrite do_pre_commit_action. by destruct (exit_ok _ _ _ _). }
  destruct ok; [|done]. cbn [snd].
  apply run_success in Hrun; [|done..]. cbn [job_steps pre_commit] in Hrun.
  apply reach_always in Hrun as (r1 & w1 & H1 & Hrun); [|done].
  apply reach_always in Hrun as (r2 & w2 & H2 & Hrun); [|done].
  apply reach_always in Hrun as (r3 & w3 & H3 & Hrun); [|done].
  injection Hrun as <- _.
  rewrite do_checkout_v3 in H1. destruct (exit_ok _ _ _ _); [|done]. injection H1 as <- _.
  rewrite do_setup_python_v3 in H2. destruct (exit_ok _ _ _ _); [|done]. injection H2 as <- _.
  rewrite do_pre_commit_action in H3. destruct (exit_ok _ _ _ _); [|done]. injection H3 as <- _.
  reflexivity.
Qed.

Lemma sdist_nodup : NoDup (job_steps sdist).
Proof. apply (bool_decide_unpack _). vm_compute. reflexivity. Qed.

Lemma upload_package_nodup : NoDup (job_steps upload_package).
Proof. apply (bool_decide_unpack _). vm_compute. reflexivity. Qed.

(** The condition of the publishing job, on an event that triggers the
    workflow: a release that has been published. *)
Lemma published_release e :
  triggered e = true → holds e fresh (job_if upload_package) = true →
  ev_name (event_of e) = "release" ∧ ev_action (event_of e) = "published".
Proof.
  unfold triggered. cbn [wf_on publish_yml existsb fires].
  change (holds e fresh (job_if upload_package))
    with (same (ev_name (event_of e)) "release" && same (ev_action (event_of e)) "published").
  destruct (String.eqb_spec (ev_name (event_of e)) "pull_request") as [->|_];
    [by intros _ ?|].
  destruct (String.eqb_spec (ev_name (event_of e)) "workflow_dispatch") as [->|_];
    [by intros _ ?|].
  destruct (String.eqb_spec (ev_name (event_of e)) "release") as [->|_]; [|done].
  destruct (String.eqb_spec (ev_action (event_of e)) "published") as [->|_]; done.
Qed.

(** The artifacts the [sdist] job finds: those of [build-internal]. *)
Lemma artifacts_for_sdist e wd name fs :
  artifacts (snd (build_internal_run e wd)) !! name = Some fs → internal_shape name fs.
Proof.
  intros Hfs. apply (BuildInternalFacts.build_internal_artifacts e (snd (pre_commit_run e wd)));
    [|done].
  rewrite pre_commit_world. apply lookup_empty.
Qed.

Lemma shape_ccd fs : internal_shape "ccd" fs → ∃ c, fs = {[ ["components.bcif"] := c ]}.
Proof. by intros [[? _]|[[_ ?]|[[? _]|[? _]]]]. Qed.

Lemma shape_ccd_freq fs : internal_shape "ccd_freq" fs → ∃ c, fs = {[ ["cc-counts.tdd"] := c ]}.
Proof. by intros [[? _]|[[? _]|[[_ ?]|[? _]]]]. Qed.

Lemma shape_ccd_res_dict fs :
  internal_shape "ccd_res_dict" fs → ∃ c, fs = {[ ["ccd_residue_dictionary.json"] := c ]}.
Proof. by intros [[? _]|[[? _]|[[? _]|[_ ?]]]]. Qed.


Lemma with_outputs_bundled (e : env) (c1 c2 c3 : content) (p : list string) :
  p ∈ bundled → is_Some (with_outputs e c1 c2 c3 !! p).
Proof.
  unfold with_outputs, overlay, bundled. rewrite !lookup_union_is_Some.
  intros Hp. repeat (apply elem_of_cons in Hp as [->|Hp]); [..|by apply elem_of_nil in Hp].
  - right; right; left. by rewrite lookup_singleton_eq.
  - right; left. by rewrite lookup_singleton_eq.
  - left. by rewrite lookup_singleton_eq.
Qed.

Lemma with_outputs_other (e : env) (c1 c2 c3 : content) (p : list string) :
  p ∉ bundled → with_outputs e c1 c2 c3 !! p = repo e !! p.
Proof.
  unfold with_outputs, overlay, bundled. intros Hp.
  rewrite !lookup_union_r; [done|apply lookup_singleton_ne; intros <-; apply Hp..].
  - by left.
  - by right; left.
  - by right; right; left.
Qed.

(** When the source distribution is built, the workspace is the checkout
    with the three downloaded outputs. *)
Lemma before_sdist_build e w2 r w' :
  (∀ name fs, artifacts w2 !! name = Some fs → internal_shape name fs) →
  reach e "sdist" 0 (take 4 (job_steps sdist)) fresh w2 = Some (r, w') →
  w' = w2 ∧ ∃ c1 c2 c3, ws r = with_outputs e c1 c2 c3.
Proof.
  intros Hshape. cbn [take job_steps sdist]. intros H.
  apply reach_always in H as (r1 & w1 & H1 & H); [|done].
  apply reach_always in H as (r2 & w2' & H2 & H); [|done].
  apply reach_always in H as (r3 & w3 & H3 & H); [|done].
  apply reach_always in H as (r4 & w4 & H4 & H); [|done].
  injection H as <- <-.
  rewrite do_checkout in H1. destruct (exit_ok e _ 0 0); [|done]. injection H1 as <- <-.
  rewrite do_add_ccd in H2. unfold download in H2. destruct (exit_ok e _ 1 0); [|done].
  destruct (artifact_find "ccd" w2) as [f1|] eqn:Hf1; [|done]. injection H2 as <- <-.
  rewrite do_add_ccd_freq in H3. unfold download in H3. destruct (exit_ok e _ 2 0); [|done].
  destruct (artifact_find "ccd_freq" w2) as [f2|] eqn:Hf2; [|done]. injection H3 as <- <-.
  rewrite do_add_ccd_res_dict in H4. unfold download in H4.
  destruct (exit_ok e _ 3 0); [|done].
  destruct (artifact_find "ccd_res_dict" w2) as [f3|] eqn:Hf3; [|done]. injection H4 as <- <-.
  apply Hshape, shape_ccd in Hf1 as [c1 ->].
  apply Hshape, shape_ccd_freq in Hf2 as [c2 ->].
  apply Hshape, shape_ccd_res_dict in Hf3 as [c3 ->].
  split; [done|]. exists c1, c2, c3. cbn [ws with_ws fresh]. by rewrite !rekey_singleton.
Qed.

End WorkflowFacts.

(** ** What is published *)

Module ReleaseFacts.
Import Text Syntax Runner Publish TextFacts FilesFacts Trace TraceFacts ExecFacts Pipeline StepFacts
  BuildInternalFacts Stages WorkflowFacts.

Lemma exec_public e j i s r wd :
  publishes s = false → public (snd (exec e j i s r wd)) = public wd.
Proof.
  unfold publishes, exec. destruct (step_do s) as [lines|what args].
  { intros _. by destruct (script _ _ _ _ _ _). }
  intros [H1 H2]%orb_false_iff. unfold act. rewrite H1, H2.
  destruct (String.eqb _ "actions/checkout"); [by destruct (exit_ok e j i 0)|].
  destruct (String.eqb _ "actions/cache").
  { unfold cache_action. by destruct (cache_find _ _). }
  destruct (String.eqb _ "actions/upload-artifact").
  { unfold upload_action. destruct (negb _); [done|]. destruct (is_empty _); [done|].
    by destruct (artifact_find _ _). }
  destruct (String.eqb _ "actions/download-artifact").
  { unfold download_action. destruct (negb _); [done|]. destruct (arg _ _ _ "name"); [|done].
    by destruct (artifact_find _ _). }
  by destruct (exit_ok e j i 0).
Qed.

Lemma run_job_public e jb wd :
  forallb (fun s => negb (publishes s)) (job_steps jb) = true →
  public (snd (run_job e jb wd)) = public wd.
Proof.
  intros Hall. destruct (run_job_run e jb wd) as (ok & rf & wf & Hrun & ->).
  destruct (run_invariant e (job_id jb) (λ w, public w = public wd) _ _ _ _ _ _ _ _ _ Hrun)
    as [Hwf _]; [|done|].
  { intros i s r w Hs <-. apply exec_public.
    rewrite forallb_forall in Hall. apply negb_true_iff, Hall. by apply list_elem_of_In. }
  destruct ok; [|done]. cbn [snd]. by rewrite public_save_caches.
Qed.

Lemma shape_internal name fs : internal_shape name fs → name ∈ internal_artifacts.
Proof.
  unfold internal_artifacts.
  intros [[-> _]|[[-> _]|[[-> _]|[-> _]]]]; rewrite !elem_of_cons; auto.
Qed.

Lemma merged_lookup_inv (pat : string) (a : gmap string files) (q : list string) (c : content) :
  merged pat true a !! q = Some c →
  ∃ name fs, a !! name = Some fs ∧ Glob.seg pat name = true ∧ fs !! q = Some c.
Proof.
  unfold merged. intros (m & Hm & Hq)%lookup_union_list_Some_1.
  apply list_elem_of_In, in_map_iff in Hm as ([name fs] & <- & Hin).
  apply list_elem_of_In, elem_of_map_to_list, map_lookup_filter_Some in Hin as [Ha Hg].
  exists name, fs. split; [done|]. split; [|done]. by apply Is_true_true.
Qed.

Lemma merged_is_Some (pat : string) (a : gmap string files) (name : string) (fs : files)
    (q : list string) (c : content) :
  a !! name = Some fs → Glob.seg pat name = true → fs !! q = Some c →
  is_Some (merged pat true a !! q).
Proof.
  intros Ha Hg Hq. unfold merged.
  destruct (union_list _ !! q) eqn:Hnone; [done|]. exfalso.
  apply lookup_union_list_None_1 in Hnone. rewrite Forall_forall in Hnone.
  specialize (Hnone fs). rewrite Hq in Hnone. discriminate Hnone.
  apply list_elem_of_In, in_map_iff. exists (name, fs). split; [done|].
  apply list_elem_of_In, elem_of_map_to_list, map_lookup_filter_Some. split; [done|].
  by apply Is_true_true.
Qed.

(** Of the artifacts of a run, [release-*] selects the source distributions. *)
Lemma release_pattern (wd : world) :
  shaped wd → source_only (merged "release-*" true (artifacts wd)).
Proof.
  intros Hwd q c (name & fs & Ha & Hg & Hq)%merged_lookup_inv.
  destruct (Hwd name fs Ha) as [Hin|[_ Hfs]]; [|by apply (Hfs q c)].
  exfalso. revert Hg. unfold internal_artifacts in Hin.
  step_cases Hin; vm_compute; discriminate.
Qed.

Lemma no_wheel (x : string) :
  Text.ends_with ".tar.gz" x = true → Text.ends_with ".whl" x = false.
Proof.
  intros Hx. destruct (Text.ends_with ".whl" x) eqn:Hw; [|done].
  by pose proof (ends_with_nested ".whl" ".tar.gz" x Hw Hx ltac:(simpl; lia)).
Qed.

Lemma basename_pair (d x : string) : Path.basename [d; x] = x.
Proof. reflexivity. Qed.

Lemma sdist_upload_shape (w : files) :
  source_only (rekey (drop 1) (matching "dist//*.tar.gz" w)).
Proof.
  intros q c (x & -> & Hx & _)%(found_in_dir _ "dist" ".tar.gz"); [|done..]. eauto.
Qed.

Lemma sdist_step_shaped e j i s r wd :
  s ∈ job_steps sdist → shaped wd → shaped (snd (exec e j i s r wd)).
Proof.
  intros Hs Hwd. cbn [job_steps sdist] in Hs. step_cases Hs.
  - rewrite do_checkout. by destruct (exit_ok e j i 0).
  - rewrite do_add_ccd. unfold download.
    destruct (exit_ok e j i 0); [|done]. by destruct (artifact_find _ _).
  - rewrite do_add_ccd_freq. unfold download.
    destruct (exit_ok e j i 0); [|done]. by destruct (artifact_find _ _).
  - rewrite do_add_ccd_res_dict. unfold download.
    destruct (exit_ok e j i 0); [|done]. by destruct (artifact_find _ _).
  - rewrite do_build_source_distribution. by destruct (exit_ok e j i 0).
  - rewrite do_upload_sdist.
    destruct (upload e j i r wd "release-sdist" "dist//*.tar.gz" 1) as [[r'|] wd'] eqn:Hx;
      cbn [snd].
    + apply upload_cases in Hx as [_ [[_ ->]|(_ & _ & ->)]]; [done|].
      intros name fs. rewrite artifacts_put. case_decide; [|by apply Hwd].
      intros [= <-]. right. split; [done|]. apply sdist_upload_shape.
    + unfold upload in Hx. repeat case_match; by simplify_eq.
  - by rewrite do_clean_dist.
Qed.

Lemma run_job_shaped e wd :
  shaped wd → shaped (snd (run_job e sdist wd)).
Proof.
  intros Hwd. destruct (run_job_run e sdist wd) as (ok & rf & wf & Hrun & ->).
  destruct (run_invariant e "sdist" shaped _ _ _ _ _ _ _ _ _ Hrun) as [Hwf _]; [|done|].
  { intros. by apply sdist_step_shaped. }
  destruct ok; [|done]. cbn [snd]. unfold shaped. by rewrite artifacts_save_caches.
Qed.

Lemma build_internal_shaped e wd : shaped (snd (build_internal_run e wd)).
Proof. intros name fs Hfs. left. eapply shape_internal, artifacts_for_sdist, Hfs. Qed.


Lemma sdist_run_cases e wd :
  sdist_run e wd = run_job e sdist (snd (build_internal_run e wd))
  ∨ sdist_run e wd = ((NotRun, []), snd (build_internal_run e wd)).
Proof. unfold sdist_run. destruct (_ && _); [by left|by right]. Qed.

Lemma snd_pair {A B} (a : A) (b : B) : snd (a, b) = b.
Proof. reflexivity. Qed.

Lemma sdist_shaped e wd : shaped (snd (sdist_run e wd)).
Proof.
  destruct (sdist_run_cases e wd) as [-> | ->].
  - apply run_job_shaped. apply build_internal_shaped.
  - rewrite snd_pair. apply build_internal_shaped.
Qed.
Lemma lookup_dist (w : files) (p : list string) (c : content) :
  source_only w → rekey (app ["dist"]) w !! p = Some c →
  ∃ x, p = ["dist"; x] ∧ Text.ends_with ".tar.gz" x = true.
Proof.
  intros Hw (q & -> & Hq)%rekey_lookup_inv.
  destruct (Hw q c Hq) as (x & -> & Hx). eauto.
Qed.

Lemma by_name_dist (w : files) (x : string) (c : content) :
  dist_only w → by_name w !! x = Some c → Text.ends_with ".tar.gz" x = true.
Proof.
  intros Hw (p & -> & Hp)%rekey_lookup_inv.
  by destruct (Hw p c Hp) as (x & -> & Hx).
Qed.

Lemma published_since_refl wd : published_since wd wd.
Proof. split; auto. Qed.

Lemma upload_package_step e j i s r wd0 wd :
  s ∈ job_steps upload_package → publishing wd0 r wd →
  match exec e j i s r wd with
  | (Some r', wd') => publishing wd0 r' wd'
  | (None, wd') => publishing wd0 r wd'
  end.
Proof.
  intros Hs (Hwd & Hr & Hrel & Hpy). cbn [job_steps upload_package] in Hs. step_cases Hs.
  - rewrite do_download_release. destruct (exit_ok e j i 0); [|done].
    split; [done|]. split; [|done]. cbn [ws with_ws]. unfold overlay.
    intros p c [Hp|[_ Hp]]%lookup_union_Some_raw; [|by apply (Hr p c)].
    apply (lookup_dist _ _ _ (release_pattern wd Hwd) Hp).
  - rewrite do_list_distributions. by destruct (exit_ok e j i 0).
  - rewrite do_upload_to_github_releases. destruct (exit_ok e j i 0); [|done].
    split; [done|]. split; [done|]. split; [|done]. cbn [release_assets].
    intros x c [Hx|[_ Hx]]%lookup_union_Some_raw; [|by apply Hrel].
    right. apply (by_name_dist (matching "dist//*" (ws r)) x c); [|done].
    intros p c' [Hp _]%lookup_matching. by apply (Hr p c').
  - rewrite do_upload_to_pypi. destruct (exit_ok e j i 0); [|done].
    split; [done|]. split; [done|]. split; [done|]. cbn [pypi_files].
    intros x c [Hx|[_ Hx]]%lookup_union_Some_raw; [|by apply Hpy].
    right. apply (by_name_dist (under ["dist"] (ws r)) x c); [|done].
    intros p c' [Hp _]%lookup_under. by apply (Hr p c').
Qed.

Lemma upload_package_publishes e wd :
  shaped wd → published_since wd (snd (run_job e upload_package wd)).
Proof.
  intros Hwd. destruct (run_job_run e upload_package wd) as (ok & rf & wf & Hrun & ->).
  assert (publishing wd rf wf) as (_ & _ & Hwf).
  { apply (run_state_invariant e "upload-package" (publishing wd) _ _ _ _ _ _ _ _ _ Hrun).
    - intros. by apply upload_package_step.
    - split; [done|]. split; [|apply published_since_refl].
      intros p c Hp. unfold fresh in Hp. cbn [ws] in Hp. by rewrite lookup_empty in Hp. }
  destruct ok; [|done]. cbn [snd]. unfold published_since.
  pose proof (public_save_caches rf wf) as [= -> ->]. done.
Qed.

Lemma upload_package_run_cases e wd :
  upload_package_run e wd = run_job e upload_package (snd (sdist_run e wd))
  ∨ upload_package_run e wd = ((NotRun, []), snd (sdist_run e wd)).
Proof. unfold upload_package_run. destruct (_ && _ && _); [by left|by right]. Qed.

Lemma before_publishing e wd : public (snd (sdist_run e wd)) = public wd.
Proof.
  assert (public (snd (build_internal_run e wd)) = public wd) as Hbi.
  { rewrite run_job_public by (vm_compute; reflexivity).
    by rewrite run_job_public by (vm_compute; reflexivity). }
  destruct (sdist_run_cases e wd) as [-> | ->].
  - by rewrite run_job_public by (vm_compute; reflexivity).
  - by rewrite snd_pair.
Qed.

(** Whatever the workflow publishes is a source distribution. *)
Lemma only_source_distributions e wd :
  published_since wd (snd (run_workflow e publish_yml wd)).
Proof.
  rewrite workflow_stages. destruct (triggered e); [|apply published_since_refl].
  rewrite snd_pair. pose proof (before_publishing e wd) as [= Hrel Hpy].
  destruct (upload_package_run_cases e wd) as [-> | ->].
  - destruct (upload_package_publishes e (snd (sdist_run e wd)) (sdist_shaped e wd))
      as [H1 H2].
    split; intros x c Hx; [rewrite <- Hrel; by apply H1|rewrite <- Hpy; by apply H2].
  - rewrite snd_pair. unfold published_since. rewrite Hrel, Hpy. auto.
Qed.

Lemma seg_any (x : string) : Glob.seg "*" x = true.
Proof.
  induction x as [|a x IH]; rewrite seg_star_unfold; [done|].
  rewrite IH. apply orb_true_r.
Qed.

Lemma tarball_found (e : env) (w : files) (c : content) :
  w !! tarball e = Some c → matching "dist//*.tar.gz" w !! tarball e = Some c.
Proof.
  intros Hw. apply lookup_matching. split; [done|]. unfold tarball, Glob.file.
  change (Path.parse "dist//*.tar.gz") with ["dist"; "*.tar.gz"]. cbn [Glob.path].
  rewrite (seg_star ".tar.gz") by done. rewrite ends_with_app. reflexivity.
Qed.

Lemma in_dist_found (w : files) (x : string) (c : content) :
  w !! ["dist"; x] = Some c → matching "dist//*" w !! ["dist"; x] = Some c.
Proof.
  intros Hw. apply lookup_matching. split; [done|]. unfold Glob.file.
  change (Path.parse "dist//*") with ["dist"; "*"]. cbn [Glob.path].
  rewrite seg_any. reflexivity.
Qed.

(** A [sdist] job that succeeds leaves the source distribution in the
    artifact [release-sdist]. *)
Lemma sdist_artifact e wd :
  fst (fst (run_job e sdist wd)) = Success →
  ∃ fs, artifacts (snd (run_job e sdist wd)) !! "release-sdist" = Some fs
        ∧ is_Some (fs !! [sdist_stem e +:+ ".tar.gz"]).
Proof.
  destruct (run_job_run e sdist wd) as (ok & rf & wf & Hrun & ->).
  destruct ok; [|done]. intros _. rewrite snd_pair, artifacts_save_caches.
  apply run_success in Hrun; [|done..]. cbn [job_steps sdist] in Hrun.
  enter Hrun H1. enter Hrun H2. enter Hrun H3. enter Hrun H4. enter Hrun H5.
  enter Hrun H6. enter Hrun H7. injection Hrun as _ <-.
  rewrite do_build_source_distribution in H5. pass H5.
  rewrite do_upload_sdist in H6. rewrite do_clean_dist in H7. injection H7 as _ <-.
  apply upload_cases in H6 as [_ [[Hnone _]|(_ & _ & ->)]].
  - exfalso. cbn [ws with_ws] in Hnone.
    pose proof (tarball_found e (write (tarball e) (pack e (ws r2)) (ws r2))
                  (pack e (ws r2))) as Hfound.
    rewrite Hnone, lookup_empty in Hfound. unfold write in Hfound.
    rewrite lookup_insert_eq in Hfound. by specialize (Hfound eq_refl).
  - eexists. split; [rewrite artifacts_put; by case_decide|]. cbn [ws with_ws].
    apply (rekey_is_Some (drop 1) _ (tarball e) (pack e (ws r2))), tarball_found.
    unfold write. by rewrite lookup_insert_eq.
Qed.

(** An [upload-package] job that succeeds publishes what [release-sdist]
    holds. *)
Lemma upload_package_delivers (e : env) (wd : world) (fs : files) (x : string) :
  artifacts wd !! "release-sdist" = Some fs → is_Some (fs !! [x]) →
  fst (fst (run_job e upload_package wd)) = Success →
  is_Some (release_assets (snd (run_job e upload_package wd)) !! x)
  ∧ is_Some (pypi_files (snd (run_job e upload_package wd)) !! x).
Proof.
  intros Hfs [c Hx].
  destruct (run_job_run e upload_package wd) as (ok & rf & wf & Hrun & ->).
  destruct ok; [|done]. intros _. rewrite snd_pair.
  pose proof (public_save_caches rf wf) as [= -> ->].
  apply run_success in Hrun; [|done..]. cbn [job_steps upload_package] in Hrun.
  enter Hrun H1. enter Hrun H2. enter Hrun H3. enter Hrun H4. injection Hrun as _ <-.
  rewrite do_download_release in H1. pass H1.
  rewrite do_list_distributions in H2. pass H2.
  rewrite do_upload_to_github_releases in H3. pass H3.
  rewrite do_upload_to_pypi in H4. pass H4.
  cbn [ws with_ws release_assets pypi_files].
  assert (is_Some (overlay (rekey (app ["dist"]) (merged "release-*" true (artifacts wd)))
                     (ws fresh) !! ["dist"; x])) as [c' Hdist].
  { unfold overlay. apply lookup_union_is_Some. left.
    destruct (merged_is_Some "release-*" (artifacts wd) "release-sdist" fs [x] c)
      as [c' Hm]; [done..|].
    apply (rekey_is_Some (app ["dist"]) _ [x] c' Hm). }
  split; apply lookup_union_is_Some; left.
  - apply (rekey_is_Some Path.basename _ ["dist"; x] c'). by apply in_dist_found.
  - apply (rekey_is_Some Path.basename _ ["dist"; x] c'). by apply lookup_under.
Qed.

(** A release that goes through publishes the source distribution. *)
Lemma source_distribution_published e wd :
  verdict_of (fst (run_workflow e publish_yml wd)) "upload-package" = Success →
  is_Some (release_assets (snd (run_workflow e publish_yml wd))
             !! (sdist_stem e +:+ ".tar.gz"))
  ∧ is_Some (pypi_files (snd (run_workflow e publish_yml wd))
               !! (sdist_stem e +:+ ".tar.gz")).
Proof.
  destruct (triggered e) eqn:Ht.
  2: { by destruct (untriggered e wd "upload-package" Ht) as [-> _]. }
  destruct (stage_upload_package e wd Ht) as (-> & _ & ->). intros Hv.
  destruct (upload_package_started e wd) as (_ & Hsd & _ & Hrun);
    [left; by rewrite Hv|].
  destruct (sdist_started e wd) as (_ & _ & Hsrun); [left; by rewrite Hsd|].
  rewrite Hrun in Hv |- *. rewrite Hsrun in Hsd, Hv |- *.
  destruct (sdist_artifact e _ Hsd) as (fs & Hfs & Hx).
  by apply (upload_package_delivers e _ fs).
Qed.

End ReleaseFacts.

(** ** Gating: which jobs run, and what a failure leaves *)

Module GatingFacts.
Import Text Syntax Runner Publish Trace Pipeline CacheKey Stages Cases.
Import TextFacts FilesFacts TraceFacts ExecFacts StepFacts CacheKeyFacts BuildInternalFacts.
Import WorkflowFacts ReleaseFacts.

Lemma fst_pair {A B} (a : A) (b : B) : fst (a, b) = a.
Proof. reflexivity. Qed.

Section Run.
Context (e : env) (j : string).

(** Once a step has failed, the job's state stays as that step left it. *)
Lemma run_after_failure_state i ss r wd tr ok' rf wf :
  run e j i false ss r wd tr ok' rf wf → rf = r ∧ wf = wd.
Proof.
  remember false as ok eqn:Hok.
  induction 1 as [i ok r wd | i s ss r wd r' wd' tr ok' rf wf Hif Hexec Hrest IH | i s ss r wd wd' tr ok' rf wf Hif Hexec Hrest IH | i ok s ss r wd tr ok' rf wf Hif Hrest IH];
    try discriminate; auto.
Qed.

Lemma reach_cons i s ss r wd :
  reach e j i (s :: ss) r wd
  = if holds e r (step_if s) then
      match exec e j i s r wd with
      | (Some r', wd') => reach e j (S i) ss r' wd'
      | (None, _) => None
      end
    else reach e j (S i) ss r wd.
Proof. reflexivity. Qed.

Lemma reach_step i s ss r wd r' wd' :
  step_if s = None → exec e j i s r wd = (Some r', wd') →
  reach e j i (s :: ss) r wd = reach e j (S i) ss r' wd'.
Proof. intros Hif Hx. simpl. by rewrite Hif, Hx. Qed.

Lemma reach_skip i s ss r wd :
  holds e r (step_if s) = false → reach e j i (s :: ss) r wd = reach e j (S i) ss r wd.
Proof. intros Hif. simpl. by rewrite Hif. Qed.

(** A run none of whose steps fails ends well. *)
Lemma run_reach_ok i ss r wd tr ok' rf wf st :
  run e j i true ss r wd tr ok' rf wf → reach e j i ss r wd = Some st → ok' = true.
Proof.
  remember true as ok eqn:Hok. intros Hrun. revert Hok.
  induction Hrun as [i ok r wd | i s ss r wd r' wd' tr ok' rf wf Hif Hexec Hrest IH | i s ss r wd wd' tr ok' rf wf Hif Hexec Hrest IH | i ok s ss r wd tr ok' rf wf Hif Hrest IH];
    intros Hok; simpl.
  - done.
  - rewrite Hif, Hexec. by apply IH.
  - by rewrite Hif, Hexec.
  - subst ok. simpl in Hif. rewrite Hif. by apply IH.
Qed.

End Run.

Lemma reach_verdict e jb wd st :
  reach e (job_id jb) 0 (job_steps jb) fresh wd = Some st →
  fst (fst (run_job e jb wd)) = Success.
Proof.
  intros Hreach. destruct (run_job_run e jb wd) as (ok & rf & wf & Hrun & ->).
  by rewrite (run_reach_ok _ _ _ _ _ _ _ _ _ _ _ Hrun Hreach).
Qed.

(** No step writes the cache: only the post step of a job does. *)
Lemma exec_caches e j i s r wd : caches (snd (exec e j i s r wd)) = caches wd.
Proof.
  unfold exec. destruct (step_do s) as [lines|what args].
  { by destruct (script _ _ _ _ _ _). }
  unfold act.
  destruct (String.eqb _ "actions/checkout"); [by destruct (exit_ok e j i 0)|].
  destruct (String.eqb _ "actions/cache").
  { unfold cache_action. by destruct (cache_find _ _). }
  destruct (String.eqb _ "actions/upload-artifact").
  { unfold upload_action. destruct (negb _); [done|]. destruct (is_empty _); [done|].
    by destruct (artifact_find _ _). }
  destruct (String.eqb _ "actions/download-artifact").
  { unfold download_action. destruct (negb _); [done|]. destruct (arg _ _ _ "name"); [|done].
    by destruct (artifact_find _ _). }
  destruct (String.eqb _ "softprops/action-gh-release").
  { unfold release_action. by destruct (exit_ok e j i 0). }
  destruct (String.eqb _ "pypa/gh-action-pypi-publish").
  { unfold pypi_action. by destruct (exit_ok e j i 0). }
  by destruct (exit_ok e j i 0).
Qed.

Lemma exec_saves e j i s r wd r' wd' :
  uses_cache s = false → exec e j i s r wd = (Some r', wd') → saves r' = saves r.
Proof.
  unfold uses_cache, exec. destruct (step_do s) as [lines|what args].
  { intros _. destruct (script _ _ _ _ _ _); [|done]. by intros [= <- _]. }
  intros Hc. unfold act. rewrite Hc.
  destruct (String.eqb _ "actions/checkout").
  { destruct (exit_ok e j i 0); [|done]. by intros [= <- _]. }
  destruct (String.eqb _ "actions/upload-artifact").
  { unfold upload_action. destruct (negb _); [done|].
    destruct (is_empty _); [by intros [= <- _]|].
    destruct (artifact_find _ _); [done|]. by intros [= <- _]. }
  destruct (String.eqb _ "actions/download-artifact").
  { unfold download_action. destruct (negb _); [done|].
    destruct (arg _ _ _ "name"); [|by intros [= <- _]].
    destruct (artifact_find _ _); [|done]. by intros [= <- _]. }
  destruct (String.eqb _ "softprops/action-gh-release").
  { unfold release_action. destruct (exit_ok e j i 0); [|done]. by intros [= <- _]. }
  destruct (String.eqb _ "pypa/gh-action-pypi-publish").
  { unfold pypi_action. destruct (exit_ok e j i 0); [|done]. by intros [= <- _]. }
  destruct (exit_ok e j i 0); [|done]. by intros [= <- _].
Qed.

Lemma caches_save_caches_nil r wd : saves r = [] → save_caches r wd = wd.
Proof. unfold save_caches. by intros ->. Qed.

(** A job without a cache step leaves the cache as it is. *)
Lemma run_job_caches e jb wd :
  forallb (fun s => negb (uses_cache s)) (job_steps jb) = true →
  caches (snd (run_job e jb wd)) = caches wd.
Proof.
  intros Hall. destruct (run_job_run e jb wd) as (ok & rf & wf & Hrun & ->).
  assert (saves rf = [] ∧ caches wf = caches wd) as [Hs Hc].
  { apply (run_state_invariant e (job_id jb) (λ r w, saves r = [] ∧ caches w = caches wd)
             _ _ _ _ _ _ _ _ _ Hrun); [|done].
    intros i s r w Hin [Hs Hc].
    assert (uses_cache s = false) as Hu.
    { rewrite forallb_forall in Hall. apply negb_true_iff, Hall. by apply list_elem_of_In. }
    pose proof (exec_caches e (job_id jb) i s r w) as Hcw.
    destruct (exec e (job_id jb) i s r w) as [[r'|] w'] eqn:Hx; cbn [snd] in Hcw.
    - split; [|congruence]. rewrite <- Hs. by apply (exec_saves _ _ _ _ _ _ _ _ Hu Hx).
    - split; [done|congruence]. }
  destruct ok; rewrite snd_pair; [|done]. by rewrite caches_save_caches_nil.
Qed.

(** A job that fails saves nothing to the cache. *)
Lemma failed_job_caches e jb wd :
  fst (fst (run_job e jb wd)) ≠ Success → caches (snd (run_job e jb wd)) = caches wd.
Proof.
  destruct (run_job_run e jb wd) as (ok & rf & wf & Hrun & ->).
  destruct ok; [by rewrite !fst_pair|]. intros _. rewrite snd_pair.
  apply (run_invariant e (job_id jb) (λ w, caches w = caches wd) _ _ _ _ _ _ _ _ _ Hrun);
    [|done].
  intros i s r w _ <-. apply exec_caches.
Qed.

(** The events on which the workflow runs. *)
Lemma triggered_iff e :
  triggered e = true ↔
  (ev_name (event_of e) = "pull_request"
   ∧ (ev_action (event_of e) = "opened" ∨ ev_action (event_of e) = "synchronize"
      ∨ ev_action (event_of e) = "reopened")
   ∧ ev_base (event_of e) = "main")
  ∨ (ev_name (event_of e) = "release" ∧ ev_action (event_of e) = "published")
  ∨ ev_name (event_of e) = "workflow_dispatch".
Proof.
  unfold triggered. cbn [wf_on publish_yml existsb fires pull_request_types].
  rewrite (seg_literal "main") by done. rewrite !orb_false_r, !orb_true_iff, !andb_true_iff.
  rewrite !orb_true_iff, !String.eqb_eq. tauto.
Qed.

Lemma untriggered_run e wd : triggered e = false → run_workflow e publish_yml wd = ([], wd).
Proof. intros Ht. by rewrite workflow_stages, Ht. Qed.

(** On a pull request or a manual run the publishing job is skipped. *)
Lemma upload_package_skipped e wd :
  holds e fresh (job_if upload_package) = false →
  upload_package_run e wd = ((NotRun, []), snd (sdist_run e wd)).
Proof. intros Hif. unfold upload_package_run. by rewrite Hif, andb_false_r. Qed.

Lemma not_a_release e :
  ev_name (event_of e) = "pull_request" ∨ ev_name (event_of e) = "workflow_dispatch" →
  holds e fresh (job_if upload_package) = false.
Proof.
  change (holds e fresh (job_if upload_package))
    with (same (ev_name (event_of e)) "release" && same (ev_action (event_of e)) "published").
  by intros [-> | ->].
Qed.

(** Where [sdist] does not run, nothing is published. *)
Lemma sdist_gate e wd :
  fst (fst (pre_commit_run e wd)) ≠ Success ∨ fst (fst (build_internal_run e wd)) ≠ Success →
  sdist_run e wd = ((NotRun, []), snd (build_internal_run e wd)).
Proof.
  intros Hne. destruct (sdist_run_cases e wd) as [Hrun|Hrun]; [|done]. exfalso.
  destruct (sdist_started e wd) as (H1 & H2 & _).
  { left. rewrite Hrun. apply run_job_verdict. }
  by destruct Hne.
Qed.

Lemma upload_package_gate e wd :
  fst (fst (sdist_run e wd)) ≠ Success →
  upload_package_run e wd = ((NotRun, []), snd (sdist_run e wd)).
Proof.
  intros Hne. destruct (upload_package_run_cases e wd) as [Hrun|Hrun]; [|done]. exfalso.
  destruct (upload_package_started e wd) as (_ & H2 & _); [|done].
  left. rewrite Hrun. apply run_job_verdict.
Qed.

(** The cache as the first two jobs leave it. *)
Lemma build_internal_failed_caches e wd :
  fst (fst (build_internal_run e wd)) ≠ Success →
  caches (snd (build_internal_run e wd)) = caches wd.
Proof. intros Hne. rewrite failed_job_caches by done. by rewrite pre_commit_world. Qed.

(** A [build-internal] job that succeeds has seen [pytest] end well. *)
Lemma tests_passed e wd :
  fst (fst (run_job e build_internal wd)) = Success → exit_ok e "build-internal" 14 0 = true.
Proof.
  intros Hv.
  destruct (success_passed e build_internal wd test 14 steps_nodup eq_refl eq_refl Hv)
    as (en & Hin & Hs & Hout).
  pose proof (passed_exec e build_internal wd test 14 en steps_nodup eq_refl Hin Hs Hout)
    as Hx.
  rewrite do_test in Hx. change (job_id build_internal) with "build-internal" in Hx.
  by destruct (exit_ok e "build-internal" 14 0).
Qed.

End GatingFacts.

(** ** The cache across runs *)

Module CacheFacts.
Import Text Syntax Runner Publish Trace Pipeline CacheKey Stages Cases.
Import TextFacts FilesFacts TraceFacts ExecFacts StepFacts CacheKeyFacts BuildInternalFacts.
Import WorkflowFacts ReleaseFacts GatingFacts.

Lemma exec_world_free e j i s r wd wd2 :
  world_free s = true →
  exec e j i s r wd2 = (fst (exec e j i s r wd), wd2) ∧ snd (exec e j i s r wd) = wd.
Proof.
  unfold world_free, exec. destruct (step_do s) as [lines|what args].
  { intros _. by destruct (script _ _ _ _ _ _). }
  intros H%negb_true_iff. repeat apply orb_false_iff in H as [H ?].
  unfold act. rewrite H, H0, H1, H2, H3.
  destruct (String.eqb _ "actions/checkout"); by destruct (exit_ok e j i 0).
Qed.

(** Steps that leave the world alone do the same in every world. *)
Lemma reach_world_free e j ss :
  forallb world_free ss = true →
  ∀ i r wd r' wd', reach e j i ss r wd = Some (r', wd') →
    wd' = wd ∧ ∀ wd2, reach e j i ss r wd2 = Some (r', wd2).
Proof.
  induction ss as [|s ss IH]; intros Hall i r wd r' wd' Hreach.
  - injection Hreach as <- <-. done.
  - apply andb_true_iff in Hall as [Hs Hall]. simpl in Hreach |- *.
    destruct (holds e r (step_if s)); [|by apply IH].
    destruct (exec_world_free e j i s r wd wd Hs) as [_ Hsnd].
    destruct (exec e j i s r wd) as [[r1|] w1] eqn:Hx; [|done]. cbn [snd] in Hsnd. subst w1.
    destruct (IH Hall _ _ _ _ _ Hreach) as [-> Hany]. split; [done|]. intros wd2.
    destruct (exec_world_free e j i s r wd wd2 Hs) as [-> _]. rewrite Hx. apply Hany.
Qed.

(** The post step keeps what the cache holds and adds what was scheduled. *)
Lemma save_caches_keeps r wd k fs :
  caches wd !! k = Some fs → caches (save_caches r wd) !! k = Some fs.
Proof.
  unfold save_caches. induction (saves r) as [|kd l IH]; [done|]. intros Hk.
  simpl. unfold save_one at 1. unfold cache_find.
  destruct (caches (fold_right _ _ _) !! kd.1) eqn:Hkd; [by apply IH|].
  cbn [caches]. rewrite lookup_insert_ne; [by apply IH|].
  intros <-. rewrite IH in Hkd; done.
Qed.

Lemma save_caches_adds r wd k d :
  (k, d) ∈ saves r → is_Some (caches (save_caches r wd) !! k).
Proof.
  unfold save_caches. induction (saves r) as [|kd l IH]; [by intros ?%elem_of_nil|].
  intros [<-|Hin]%elem_of_cons; simpl; unfold save_one at 1; unfold cache_find.
  - cbn [fst snd]. destruct (caches (fold_right _ _ _) !! k) eqn:Hk; [by rewrite Hk|].
    cbn [caches]. by rewrite lookup_insert_eq.
  - destruct (caches (fold_right _ _ _) !! kd.1) eqn:Hkd; [by apply IH|].
    cbn [caches]. destruct (decide (kd.1 = k)) as [->|Hne].
    + by rewrite lookup_insert_eq.
    + rewrite lookup_insert_ne by done. by apply IH.
Qed.

(** Steps leave the cache alone. *)
Lemma reach_caches e j ss :
  ∀ i r wd r' wd', reach e j i ss r wd = Some (r', wd') → caches wd' = caches wd.
Proof.
  induction ss as [|s ss IH]; intros i r wd r' wd' Hreach.
  - by injection Hreach as _ <-.
  - simpl in Hreach. destruct (holds e r (step_if s)); [|by eapply IH].
    pose proof (exec_caches e j i s r wd) as Hc.
    destruct (exec e j i s r wd) as [[r1|] w1]; [|done]. cbn [snd] in Hc.
    rewrite <- Hc. by eapply IH.
Qed.

(** The state in which the cache step starts, in a job that succeeds. *)
Lemma cache_step_state e wd :
  fst (fst (run_job e build_internal wd)) = Success →
  ∃ r5 rf wf,
    reach e "build-internal" 0 (take 5 (job_steps build_internal)) fresh wd = Some (r5, wd)
    ∧ reach e "build-internal" 5 (drop 5 (job_steps build_internal)) r5 wd = Some (rf, wf)
    ∧ snd (run_job e build_internal wd) = save_caches rf wf.
Proof.
  destruct (run_job_run e build_internal wd) as (ok & rf & wf & Hrun & ->).
  destruct ok; [|by rewrite !fst_pair]. intros _.
  apply run_success in Hrun; [|done..].
  rewrite <- (take_drop 5 (job_steps build_internal)) in Hrun.
  change (job_id build_internal) with "build-internal" in Hrun.
  rewrite reach_app in Hrun.
  destruct (reach e "build-internal" 0 (take 5 (job_steps build_internal)) fresh wd)
    as [[r5 w5]|] eqn:H5; [|done].
  destruct (before_cache e wd r5 w5 H5) as (-> & _).
  exists r5, rf, wf. split; [done|]. split; [exact Hrun|]. by rewrite snd_pair.
Qed.

(** A job that succeeds leaves an entry under the key it has looked up. *)
Lemma cache_after_success e wd r5 rf wf :
  reach e "build-internal" 0 (take 5 (job_steps build_internal)) fresh wd = Some (r5, wd) →
  reach e "build-internal" 5 (drop 5 (job_steps build_internal)) r5 wd = Some (rf, wf) →
  is_Some (caches (save_caches rf wf) !! key e (ws r5)).
Proof.
  intros H5 Hrest. change (drop 5 (job_steps build_internal))
    with (cache_ccd :: drop 6 (job_steps build_internal)) in Hrest.
  apply reach_always in Hrest as (r6 & w6 & Hx & Hrest); [|done].
  rewrite do_cache_ccd, key_of_runner in Hx.
  pose proof (reach_caches _ _ _ _ _ _ _ _ Hrest) as Hc.
  destruct (cache_find (key e (ws r5)) wd) as [saved|] eqn:Hfind;
    injection Hx as <- <-.
  - exists saved. apply save_caches_keeps. by rewrite Hc.
  - apply (save_caches_adds _ _ _ lib).
    refine (reach_preserves e "build-internal" (λ r, (key e (ws r5), lib) ∈ saves r)
              _ _ _ _ _ _ _ Hrest _); [|by left].
    intros i s r w r' w' Hs Hx HP.
    rewrite (exec_saves e "build-internal" i s r w r' w'); [done| |done].
    revert Hs. generalize s. apply Forall_forall.
    apply (bool_decide_unpack _). vm_compute. reflexivity.
Qed.

(** In a job that succeeds, the steps after the removal have ended well. *)
Lemma success_exits e wd k s :
  fst (fst (run_job e build_internal wd)) = Success →
  job_steps build_internal !! k = Some s → s ∈ after_removal →
  exit_ok e "build-internal" k 0 = true.
Proof.
  intros Hv Hk Hs.
  assert (step_if s = None) as Hif.
  { revert Hs. generalize s. apply Forall_forall.
    apply (bool_decide_unpack _). vm_compute. reflexivity. }
  destruct (success_passed e build_internal wd s k steps_nodup Hk Hif Hv)
    as (en & Hin & Hstep & Hout).
  pose proof (passed_exec e build_internal wd s k en steps_nodup Hk Hin Hstep Hout) as Hx.
  change (job_id build_internal) with "build-internal" in Hx.
  unfold after_removal in Hs. step_cases Hs.
  - rewrite do_install_build_backend in Hx. by destruct (exit_ok _ _ _ _).
  - rewrite do_build_distribution in Hx. by destruct (exit_ok _ _ _ _).
  - rewrite do_upload_wheel in Hx. unfold upload in Hx. by destruct (exit_ok _ _ _ _).
  - rewrite do_upload_ccd in Hx. unfold upload in Hx. by destruct (exit_ok _ _ _ _).
  - rewrite do_upload_ccd_freq in Hx. unfold upload in Hx. by destruct (exit_ok _ _ _ _).
  - rewrite do_upload_ccd_res_dict in Hx. unfold upload in Hx. by destruct (exit_ok _ _ _ _).
  - rewrite do_test in Hx. by destruct (exit_ok _ _ _ _).
Qed.

(** An upload under a name that is free passes, and touches no other name. *)
Lemma upload_free e j i r wd name pat n :
  exit_ok e j i 0 = true → artifacts wd !! name = None →
  ∃ wd', upload e j i r wd name pat n = (Some r, wd')
         ∧ ∀ name', name' ≠ name → artifacts wd' !! name' = artifacts wd !! name'.
Proof.
  intros Hok Hfree. unfold upload. rewrite Hok.
  destruct (is_empty _); [by exists wd|].
  unfold artifact_find. rewrite Hfree. eexists. split; [done|].
  intros name' Hne. rewrite artifacts_put. by case_decide.
Qed.

(** A job that starts with no artifacts and finds its cache entry goes
    through when the steps after the removal end well. *)
Lemma warm_run e wd2 r5 saved :
  reach e "build-internal" 0 (take 5 (job_steps build_internal)) fresh wd2 = Some (r5, wd2) →
  cache_find (key e (ws r5)) wd2 = Some saved →
  artifacts wd2 = ∅ →
  (∀ k s, job_steps build_internal !! k = Some s → s ∈ after_removal →
          exit_ok e "build-internal" k 0 = true) →
  ∃ st, reach e "build-internal" 0 (job_steps build_internal) fresh wd2 = Some st.
Proof.
  intros H5 Hhit Hart Hok.
  destruct (before_cache e wd2 r5 wd2 H5) as (_ & _ & _ & w & Hws).
  rewrite <- (take_drop 5 (job_steps build_internal)), reach_app, H5.
  change (0 + length (take 5 (job_steps build_internal))) with 5.
  change (drop 5 (job_steps build_internal))
    with [ cache_ccd; build_internal_ccd; remove_unprocessed_ccd; install_build_backend;
           build_distribution; upload_wheel; upload_ccd; upload_ccd_freq;
           upload_ccd_res_dict; test ].
  erewrite reach_step; [|done|by rewrite do_cache_ccd, key_of_runner, Hhit].
  rewrite reach_skip.
  2: { rewrite if_build_internal_ccd. cbn [outs]. by rewrite get_set_out. }
  erewrite reach_step; [|done|].
  2: { rewrite do_remove_unprocessed_ccd. cbn [ws].
       rewrite (proj2 (has_true raw_ccd (overlay saved (ws r5)))); [done|].
       unfold overlay. apply lookup_union_is_Some. right.
       rewrite Hws, downloaded_raw_ccd. done. }
  erewrite reach_step; [|done|].
  2: { rewrite do_install_build_backend, (Hok 8 install_build_backend); [done|done|].
       unfold after_removal. rewrite !elem_of_cons. auto. }
  erewrite reach_step; [|done|].
  2: { rewrite do_build_distribution, (Hok 9 build_distribution); [done|done|].
       unfold after_removal. rewrite !elem_of_cons. auto. }
  destruct (upload_free e "build-internal" 10
              (with_ws (with_ws (with_ws (Runner (overlay saved (ws r5))
                 (set_out "cache-ccd" "cache-hit" "true" (outs r5)) (saves r5))
                 (remove raw_ccd (overlay saved (ws r5))))
                 (remove raw_ccd (overlay saved (ws r5))))
                 (write (wheel e) (pack e (remove raw_ccd (overlay saved (ws r5))))
                    (remove raw_ccd (overlay saved (ws r5)))))
              wd2 "internal-build" "./dist/*.whl" 1) as (w10 & Hx10 & H10).
  { apply (Hok 10 upload_wheel); [done|]. unfold after_removal. rewrite !elem_of_cons. auto. }
  { by rewrite Hart. }
  erewrite reach_step; [|done|by rewrite do_upload_wheel; exact Hx10].
  match goal with |- ∃ st, reach _ _ _ _ ?r _ = _ => set (r10 := r) in * end.
  destruct (upload_free e "build-internal" 11 r10 w10 "ccd"
              "./src/bio_datasets/structure/library/components.bcif" 4)
    as (w11 & Hx11 & H11).
  { apply (Hok 11 upload_ccd); [done|]. unfold after_removal. rewrite !elem_of_cons. auto. }
  { rewrite H10 by done. by rewrite Hart. }
  erewrite reach_step; [|done|by rewrite do_upload_ccd; exact Hx11].
  destruct (upload_free e "build-internal" 12 r10 w11 "ccd_freq"
              "./src/bio_datasets/structure/library/cc-counts.tdd" 4)
    as (w12 & Hx12 & H12).
  { apply (Hok 12 upload_ccd_freq); [done|].
    unfold after_removal. rewrite !elem_of_cons. auto 10. }
  { rewrite H11, H10 by done. by rewrite Hart. }
  erewrite reach_step; [|done|by rewrite do_upload_ccd_freq; exact Hx12].
  destruct (upload_free e "build-internal" 13 r10 w12 "ccd_res_dict"
              "./src/bio_datasets/structure/library/ccd_residue_dictionary.json" 4)
    as (w13 & Hx13 & H13).
  { apply (Hok 13 upload_ccd_res_dict); [done|].
    unfold after_removal. rewrite !elem_of_cons. auto 10. }
  { rewrite H12, H11, H10 by done. by rewrite Hart. }
  erewrite reach_step; [|done|by rewrite do_upload_ccd_res_dict; exact Hx13].
  erewrite reach_step; [|done|].
  2: { rewrite do_test, (Hok 14 test); [done|done|].
       unfold after_removal. rewrite !elem_of_cons. auto 10. }
  eexists. reflexivity.
Qed.

(** Run again where a job that succeeded has left the cache, the job
    succeeds again and does not process the dictionary. *)
Lemma rerun_job e wd wd2 :
  fst (fst (run_job e build_internal wd)) = Success →
  caches wd2 = caches (snd (run_job e build_internal wd)) →
  artifacts wd2 = ∅ →
  fst (fst (run_job e build_internal wd2)) = Success
  ∧ ¬ ran build_internal_ccd (job_trace e build_internal wd2).
Proof.
  intros Hv Hc Hart.
  destruct (cache_step_state e wd Hv) as (r5 & rf & wf & H5 & Hrest & Hsnd).
  destruct (cache_after_success e wd r5 rf wf H5 Hrest) as [saved Hsaved].
  rewrite <- Hsnd, <- Hc in Hsaved.
  assert (reach e "build-internal" 0 (take 5 (job_steps build_internal)) fresh wd2
          = Some (r5, wd2)) as H5'.
  { by apply (reach_world_free e "build-internal" (take 5 (job_steps build_internal))
                eq_refl 0 fresh wd r5 wd). }
  split.
  - destruct (warm_run e wd2 r5 saved H5' Hsaved Hart) as [st Hst].
    { intros k s Hk Hs. by apply (success_exits e wd k s). }
    by apply (reach_verdict e build_internal wd2 st).
  - intros Hran.
    apply (ran_iff e build_internal wd2 build_internal_ccd 6 steps_nodup eq_refl) in Hran
      as (r6 & w6 & Hreach & Hif).
    change (take 6 (job_steps build_internal))
      with (take 5 (job_steps build_internal) ++ [cache_ccd]) in Hreach.
    change (job_id build_internal) with "build-internal" in Hreach.
    apply reach_snoc in Hreach as (r & w & Hr & Hx); [|done].
    rewrite H5' in Hr. injection Hr as <- <-.
    rewrite do_cache_ccd, key_of_runner in Hx. unfold cache_find in Hx.
    rewrite Hsaved in Hx. injection Hx as <- <-.
    rewrite if_build_internal_ccd in Hif. cbn [outs] in Hif.
    by rewrite get_set_out in Hif.
Qed.

(** The jobs after [build-internal] leave the cache alone. *)
Lemma after_build_caches e wd :
  caches (snd (upload_package_run e wd)) = caches (snd (build_internal_run e wd)).
Proof.
  assert (caches (snd (sdist_run e wd)) = caches (snd (build_internal_run e wd))) as Hsd.
  { destruct (sdist_run_cases e wd) as [-> | ->]; [|by rewrite snd_pair].
    by rewrite run_job_caches by (vm_compute; reflexivity). }
  destruct (upload_package_run_cases e wd) as [-> | ->]; [|by rewrite snd_pair].
  by rewrite run_job_caches by (vm_compute; reflexivity).
Qed.

Lemma workflow_caches e wd :
  triggered e = true →
  caches (snd (run_workflow e publish_yml wd))
  = caches (snd (run_job e build_internal (with_artifacts wd ∅))).
Proof.
  intros Ht. destruct (stage_upload_package e wd Ht) as (_ & _ & ->).
  by rewrite after_build_caches, pre_commit_world.
Qed.

(** What the post step saves holds the processed dictionaries when the
    workspace does. *)
Lemma save_caches_holds r wd :
  cache_holds_outputs wd → (∀ kd, kd ∈ saves r → kd.2 = lib) →
  is_Some (ws r !! ccd) → is_Some (ws r !! ccd_res_dict) →
  cache_holds_outputs (save_caches r wd).
Proof.
  intros Hwd Hdirs [c1 Hccd] [c2 Hdict]. unfold save_caches.
  induction (saves r) as [|kd l IH]; [done|]. simpl. unfold save_one at 1.
  assert (cache_holds_outputs (fold_right (save_one (ws r)) wd l)) as Hl.
  { apply IH. intros kd' ?. apply Hdirs. by right. }
  destruct (cache_find _ _); [done|].
  intros key fs. cbn [caches]. rewrite lookup_insert. case_decide; [|by apply Hl].
  intros [= <-]. rewrite (Hdirs kd) by left.
  split; eexists; apply lookup_under; split; done.
Qed.

(** Every save the job schedules is of the library directory. *)
Lemma saves_of_library e r wd r' wd' :
  reach e "build-internal" 0 (job_steps build_internal) r wd = Some (r', wd') →
  (∀ kd, kd ∈ saves r → kd.2 = lib) → ∀ kd, kd ∈ saves r' → kd.2 = lib.
Proof.
  apply (reach_preserves e "build-internal" (λ r, ∀ kd, kd ∈ saves r → kd.2 = lib)).
  intros i s r0 w0 r1 w1 Hs Hx HP.
  assert (uses_cache s = false ∨ s = cache_ccd) as [Hu | ->].
  { revert Hs. generalize s. apply Forall_forall.
    apply (bool_decide_unpack _). vm_compute. reflexivity. }
  - by rewrite (exec_saves _ _ _ _ _ _ _ _ Hu Hx).
  - rewrite do_cache_ccd in Hx. destruct (cache_find _ _); injection Hx as <- _; [done|].
    cbn [saves]. intros kd [->|?]%elem_of_cons; [done|by apply HP].
Qed.

(** The uploads and the tests leave the workspace as it is. *)
Lemma after_build_workspace e r wd r' wd' :
  reach e "build-internal" 10 (drop 10 (job_steps build_internal)) r wd = Some (r', wd') →
  ws r' = ws r.
Proof.
  intros Hreach.
  refine (reach_preserves e "build-internal" (λ r0, ws r0 = ws r) _ _ _ _ _ _ _ Hreach
            eq_refl).
  intros i s r0 w0 r1 w1 Hs Hx HP. rewrite <- HP. clear HP.
  change (drop 10 (job_steps build_internal))
    with [upload_wheel; upload_ccd; upload_ccd_freq; upload_ccd_res_dict; test] in Hs.
  step_cases Hs.
  - rewrite do_upload_wheel in Hx. by apply upload_cases in Hx as [-> _].
  - rewrite do_upload_ccd in Hx. by apply upload_cases in Hx as [-> _].
  - rewrite do_upload_ccd_freq in Hx. by apply upload_cases in Hx as [-> _].
  - rewrite do_upload_ccd_res_dict in Hx. by apply upload_cases in Hx as [-> _].
  - rewrite do_test in Hx. destruct (exit_ok _ _ _ _); [|done]. by injection Hx as <- _.
Qed.

Lemma build_internal_cache_holds e wd :
  processing_ok e → cache_holds_outputs wd →
  cache_holds_outputs (snd (run_job e build_internal wd)).
Proof.
  intros Hproc Hwd. destruct (run_job_run e build_internal wd) as (ok & rf & wf & Hrun & ->).
  assert (caches wf = caches wd) as Hc.
  { apply (run_invariant e (job_id build_internal) (λ w, caches w = caches wd)
             _ _ _ _ _ _ _ _ _ Hrun); [|done].
    intros i s r w _ <-. apply exec_caches. }
  assert (cache_holds_outputs wf) as Hwf.
  { unfold cache_holds_outputs. by rewrite Hc. }
  destruct ok; rewrite snd_pair; [|done].
  apply run_success in Hrun; [|done..].
  change (job_id build_internal) with "build-internal" in Hrun.
  pose proof (saves_of_library e fresh wd rf wf Hrun) as Hdirs.
  rewrite <- (take_drop 10 (job_steps build_internal)), reach_app in Hrun.
  destruct (reach e "build-internal" 0 (take 10 (job_steps build_internal)) fresh wd)
    as [[r10 w10]|] eqn:H10; [|done].
  apply before_uploads in H10 as (-> & _ & Hccd & _ & Hdict); [|done..].
  apply after_build_workspace in Hrun.
  apply save_caches_holds; [done| |by rewrite Hrun..].
  apply Hdirs. by intros kd ?%elem_of_nil.
Qed.

End CacheFacts.

(** ** What the publishing job sends *)

Module PublishingFacts.
Import Text Syntax Runner Publish Trace Pipeline CacheKey Stages Cases.
Import TextFacts FilesFacts TraceFacts ExecFacts StepFacts CacheKeyFacts BuildInternalFacts.
Import WorkflowFacts ReleaseFacts GatingFacts CacheFacts.

Section Run.
Context (e : env) (j : string).

(** A job stops at the first step that fails, in the world that step left. *)
Lemma run_fails_at i ss r wd tr ok' rf wf :
  run e j i true ss r wd tr ok' rf wf →
  ∀ k s rk wk w',
    reach e j i (take k ss) r wd = Some (rk, wk) → ss !! k = Some s →
    holds e rk (step_if s) = true → exec e j (i + k) s rk wk = (None, w') →
    ok' = false ∧ rf = rk ∧ wf = w'.
Proof.
  remember true as ok eqn:Hok. intros Hrun. revert Hok.
  induction Hrun as [i ok r wd | i s ss r wd r' wd' tr ok' rf wf Hif Hexec Hrest IH | i s ss r wd wd' tr ok' rf wf Hif Hexec Hrest IH | i ok s ss r wd tr ok' rf wf Hif Hrest IH];
    intros Hok k s0 rk wk w' Hreach Hk Hholds Hx.
  - done.
  - destruct k as [|k].
    + injection Hreach as <- <-. injection Hk as <-.
      rewrite Nat.add_0_r in Hx. congruence.
    + simpl in Hreach, Hk. rewrite Hif, Hexec in Hreach.
      apply (IH eq_refl k s0 rk wk w' Hreach Hk Hholds).
      by rewrite <- Nat.add_succ_comm in Hx.
  - destruct k as [|k].
    + injection Hreach as <- <-. injection Hk as <-.
      rewrite Nat.add_0_r, Hexec in Hx. injection Hx as <-.
      destruct (run_after_failure e j _ _ _ _ _ _ _ _ Hrest) as [-> _].
      by destruct (run_after_failure_state e j _ _ _ _ _ _ _ _ Hrest) as [-> ->].
    + simpl in Hreach. by rewrite Hif, Hexec in Hreach.
  - subst ok. simpl in Hif. destruct k as [|k].
    + injection Hreach as <- <-. injection Hk as <-. congruence.
    + simpl in Hreach, Hk. rewrite Hif in Hreach.
      apply (IH eq_refl k s0 rk wk w' Hreach Hk Hholds).
      by rewrite <- Nat.add_succ_comm in Hx.
Qed.

End Run.

Lemma run_job_fails_at e jb wd k s rk wk w' :
  reach e (job_id jb) 0 (take k (job_steps jb)) fresh wd = Some (rk, wk) →
  job_steps jb !! k = Some s → holds e rk (step_if s) = true →
  exec e (job_id jb) k s rk wk = (None, w') →
  fst (fst (run_job e jb wd)) = Failure ∧ snd (run_job e jb wd) = w'.
Proof.
  intros Hreach Hk Hif Hx.
  destruct (run_job_run e jb wd) as (ok & rf & wf & Hrun & ->).
  destruct (run_fails_at e (job_id jb) _ _ _ _ _ _ _ _ Hrun k s rk wk w')
    as (-> & _ & ->); done.
Qed.

(** What [upload-package] finds in [dist/]: the source distributions. *)
Lemma dist_workspace wd :
  shaped wd →
  dist_only (overlay (rekey (app ["dist"]) (merged "release-*" true (artifacts wd)))
               (ws fresh)).
Proof.
  intros Hwd p c. unfold overlay. intros [Hp|[_ Hp]]%lookup_union_Some_raw.
  - apply (lookup_dist _ _ _ (release_pattern wd Hwd) Hp).
  - unfold fresh in Hp. cbn [ws] in Hp. by rewrite lookup_empty in Hp.
Qed.

Lemma dist_only_matching (w : files) : dist_only w → matching "dist//*" w = w.
Proof.
  intros Hw. unfold matching. apply map_filter_id. intros p c Hp.
  destruct (Hw p c Hp) as (x & -> & _). apply Is_true_true. cbn [fst]. unfold Glob.file.
  change (Path.parse "dist//*") with ["dist"; "*"]. cbn [Glob.path].
  rewrite seg_any. reflexivity.
Qed.

Lemma dist_only_under (w : files) : dist_only w → under ["dist"] w = w.
Proof.
  intros Hw. unfold under. apply map_filter_id. intros p c Hp.
  by destruct (Hw p c Hp) as (x & -> & _).
Qed.

(** The first two steps of [upload-package]. *)
Lemma before_release_upload e wd r w :
  reach e "upload-package" 0 (take 2 (job_steps upload_package)) fresh wd = Some (r, w) →
  w = wd
  ∧ ws r = overlay (rekey (app ["dist"]) (merged "release-*" true (artifacts wd))) (ws fresh).
Proof.
  cbn [take job_steps upload_package]. intros H.
  enter H H1. enter H H2. injection H as <- <-.
  rewrite do_download_release in H1. pass H1.
  rewrite do_list_distributions in H2. pass H2. done.
Qed.

(** A job that succeeds sends the files of [dist/] to both places. *)
Lemma upload_package_success e wd :
  shaped wd → fst (fst (run_job e upload_package wd)) = Success →
  let dist := overlay (rekey (app ["dist"]) (merged "release-*" true (artifacts wd)))
                (ws fresh) in
  release_assets (snd (run_job e upload_package wd)) = by_name dist ∪ release_assets wd
  ∧ pypi_files (snd (run_job e upload_package wd)) = by_name dist ∪ pypi_files wd.
Proof.
  intros Hwd. destruct (run_job_run e upload_package wd) as (ok & rf & wf & Hrun & ->).
  destruct ok; [|done]. intros _ dist. rewrite snd_pair.
  pose proof (public_save_caches rf wf) as [= -> ->].
  apply run_success in Hrun; [|done..].
  change (job_id upload_package) with "upload-package" in Hrun.
  rewrite <- (take_drop 2 (job_steps upload_package)), reach_app in Hrun.
  destruct (reach e "upload-package" 0 (take 2 (job_steps upload_package)) fresh wd)
    as [[r2 w2]|] eqn:H2; [|done].
  apply before_release_upload in H2 as [-> Hws].
  change (drop 2 (job_steps upload_package))
    with [upload_to_github_releases; upload_to_pypi] in Hrun.
  enter Hrun H3. enter Hrun H4. injection Hrun as _ <-.
  rewrite do_upload_to_github_releases in H3. pass H3.
  rewrite do_upload_to_pypi in H4. pass H4.
  cbn [release_assets pypi_files]. rewrite Hws.
  rewrite dist_only_matching, dist_only_under by by apply dist_workspace. done.
Qed.

(** The source distribution is among the files of [dist/]. *)
Lemma dist_has (wd : world) (fs : files) (x : string) :
  artifacts wd !! "release-sdist" = Some fs → is_Some (fs !! [x]) →
  is_Some (by_name (overlay (rekey (app ["dist"]) (merged "release-*" true (artifacts wd)))
                      (ws fresh)) !! x).
Proof.
  intros Hfs [c Hx].
  destruct (merged_is_Some "release-*" (artifacts wd) "release-sdist" fs [x] c)
    as [c' Hm]; [done..|].
  destruct (rekey_is_Some (app ["dist"]) _ [x] c' Hm) as [c2 Hc2].
  assert (is_Some (overlay (rekey (app ["dist"]) (merged "release-*" true (artifacts wd)))
                     (ws fresh) !! ["dist"; x])) as [c3 Hc3].
  { unfold overlay. apply lookup_union_is_Some. left. by exists c2. }
  apply (rekey_is_Some Path.basename _ ["dist"; x] c3 Hc3).
Qed.

Lemma upload_package_starts e wd :
  fst (fst (sdist_run e wd)) = Success →
  ev_name (event_of e) = "release" → ev_action (event_of e) = "published" →
  upload_package_run e wd = run_job e upload_package (snd (sdist_run e wd)).
Proof.
  intros Hsd Hn Ha.
  destruct (sdist_started e wd) as (_ & Hbi & _); [left; by rewrite Hsd|].
  unfold upload_package_run. rewrite Hbi, Hsd.
  change (holds e fresh (job_if upload_package))
    with (same (ev_name (event_of e)) "release" && same (ev_action (event_of e)) "published").
  by rewrite Hn, Ha.
Qed.

(** The job up to the upload to the index, when the first three steps end
    well. *)
Lemma before_index_upload e wd :
  (∀ i, i < 3 → exit_ok e "upload-package" i 0 = true) →
  let dist := overlay (rekey (app ["dist"]) (merged "release-*" true (artifacts wd)))
                (ws fresh) in
  reach e "upload-package" 0 (take 3 (job_steps upload_package)) fresh wd
  = Some (with_ws (with_ws fresh dist) dist,
          World (artifacts wd) (caches wd)
            (by_name (matching "dist//*" dist) ∪ release_assets wd) (pypi_files wd)).
Proof.
  intros Hok dist. cbn [take job_steps upload_package].
  erewrite reach_step; [|done|by rewrite do_download_release, Hok by lia].
  erewrite reach_step; [|done|by rewrite do_list_distributions, Hok by lia].
  erewrite reach_step; [|done|by rewrite do_upload_to_github_releases, Hok by lia].
  reflexivity.
Qed.

End PublishingFacts.

(** ** From [build-internal] to [sdist] *)

Module RoundTripFacts.
Import Text Syntax Runner Publish Trace Pipeline CacheKey Stages Cases.
Import TextFacts FilesFacts TraceFacts ExecFacts StepFacts CacheKeyFacts BuildInternalFacts.
Import WorkflowFacts ReleaseFacts GatingFacts CacheFacts PublishingFacts.

(** What the upload of a single file leaves under its name. *)
Lemma upload_literal e j i r wd (name pat : string) (n : nat) r' wd' :
  forallb (fun g => negb (Text.mentions "*" g)) (Path.parse pat) = true →
  artifacts wd !! name = None →
  upload e j i r wd name pat n = (Some r', wd') →
  r' = r
  ∧ artifacts wd' !! name
    = (λ c, {[ drop n (Path.parse pat) := c ]}) <$> (ws r !! Path.parse pat)
  ∧ ∀ name', name' ≠ name → artifacts wd' !! name' = artifacts wd !! name'.
Proof.
  intros Hlit Hfree [-> [[Hnone ->]|(_ & Hsome & ->)]]%upload_cases; split; try done.
  - split; [|done]. rewrite (matching_literal _ _ Hlit) in Hnone.
    destruct (ws r !! Path.parse pat) as [c|]; [|done].
    apply (f_equal (lookup (Path.parse pat))) in Hnone.
    by rewrite lookup_singleton_eq, lookup_empty in Hnone.
  - destruct (literal_upload_single pat n (ws r) Hlit Hsome) as (c & -> & ->).
    split.
    + rewrite artifacts_put. by case_decide.
    + intros name' Hne. rewrite artifacts_put. by case_decide.
Qed.

(** The artifacts [build-internal] leaves when its uploads and tests pass:
    for each of the three outputs, the file as the workspace has it. *)
Lemma uploads_result e r wd rf wf :
  artifacts wd = ∅ →
  reach e "build-internal" 10 (drop 10 (job_steps build_internal)) r wd = Some (rf, wf) →
  ws rf = ws r
  ∧ artifacts wf !! "ccd" = (λ c, {[ ["components.bcif"] := c ]}) <$> (ws r !! ccd)
  ∧ artifacts wf !! "ccd_freq" = (λ c, {[ ["cc-counts.tdd"] := c ]}) <$> (ws r !! ccd_freq)
  ∧ artifacts wf !! "ccd_res_dict"
    = (λ c, {[ ["ccd_residue_dictionary.json"] := c ]}) <$> (ws r !! ccd_res_dict).
Proof.
  intros Hart H.
  change (drop 10 (job_steps build_internal))
    with [upload_wheel; upload_ccd; upload_ccd_freq; upload_ccd_res_dict; test] in H.
  enter H H10. enter H H11. enter H H12. enter H H13. enter H H14. injection H as <- <-.
  rewrite do_upload_wheel in H10.
  assert (r0 = r ∧ ∀ name, name ≠ "internal-build" → artifacts wd0 !! name = None)
    as [-> Hw0].
  { apply upload_cases in H10 as [-> [[_ ->]|(_ & _ & ->)]]; split; try done.
    - intros name _. by rewrite Hart.
    - intros name Hne. rewrite artifacts_put. case_decide; [done|]. by rewrite Hart. }
  rewrite do_upload_ccd in H11.
  apply upload_literal in H11 as (-> & Hccd & Hw1); [|done|by apply Hw0].
  rewrite do_upload_ccd_freq in H12.
  apply upload_literal in H12 as (-> & Hfreq & Hw2);
    [|done|by rewrite Hw1, Hw0].
  rewrite do_upload_ccd_res_dict in H13.
  apply upload_literal in H13 as (-> & Hdict & Hw3);
    [|done|by rewrite Hw2, Hw1, Hw0].
  rewrite do_test in H14. destruct (exit_ok _ _ _ _); [|done]. injection H14 as <- <-.
  split; [done|]. split; [|split].
  - by rewrite Hw3, Hw2.
  - by rewrite Hw3.
  - done.
Qed.


(** The first ten steps of [build-internal] store no artifact. *)
Lemma before_uploads_artifacts e wd r wd' :
  reach e "build-internal" 0 (take 10 (job_steps build_internal)) fresh wd = Some (r, wd') →
  artifacts wd' = artifacts wd.
Proof.
  change (take 10 (job_steps build_internal))
    with (take 5 (job_steps build_internal)
          ++ [cache_ccd; build_internal_ccd; remove_unprocessed_ccd; install_build_backend;
              build_distribution]).
  rewrite reach_app.
  destruct (reach _ _ _ (take 5 _) _ _) as [[r5 w5]|] eqn:H5; [|done].
  apply before_cache in H5 as (-> & _). intros H.
  enter H H5. rewrite do_cache_ccd in H5.
  assert (wd0 = wd) as -> by (destruct (cache_find _ _); by injection H5 as _ <-).
  rewrite reach_cons in H.
  assert (∃ r6, reach e "build-internal" 7
            [remove_unprocessed_ccd; install_build_backend; build_distribution] r6 wd
          = Some (r, wd')) as [r6 H6].
  { destruct (holds e r0 (step_if build_internal_ccd)); [|by eexists].
    rewrite do_build_internal_ccd in H. destruct (exit_ok _ _ _ _); [|done]. by eexists. }
  clear H. enter H6 H7. enter H6 H8. enter H6 H9. injection H6 as _ <-.
  rewrite do_remove_unprocessed_ccd in H7. destruct (has _ _); [|done].
  injection H7 as _ <-.
  rewrite do_install_build_backend in H8. destruct (exit_ok _ _ _ _); [|done].
  injection H8 as _ <-.
  rewrite do_build_distribution in H9. destruct (exit_ok _ _ _ _); [|done].
  by injection H9 as _ <-.
Qed.

Lemma with_outputs_at (e : env) (c1 c2 c3 : content) :
  with_outputs e c1 c2 c3 !! ccd = Some c1
  ∧ with_outputs e c1 c2 c3 !! ccd_freq = Some c2
  ∧ with_outputs e c1 c2 c3 !! ccd_res_dict = Some c3.
Proof.
  unfold with_outputs, overlay. split; [|split].
  - rewrite !lookup_union_r by by apply lookup_singleton_ne.
    apply lookup_union_Some_l, lookup_singleton_eq.
  - rewrite lookup_union_r by by apply lookup_singleton_ne.
    apply lookup_union_Some_l, lookup_singleton_eq.
  - apply lookup_union_Some_l, lookup_singleton_eq.
Qed.

(** What the three downloads of [sdist] put into the workspace. *)
Lemma sdist_downloads e w2 rb w' (o1 o2 o3 : option content) :
  artifacts w2 !! "ccd" = (λ c, {[ ["components.bcif"] := c ]}) <$> o1 →
  artifacts w2 !! "ccd_freq" = (λ c, {[ ["cc-counts.tdd"] := c ]}) <$> o2 →
  artifacts w2 !! "ccd_res_dict" = (λ c, {[ ["ccd_residue_dictionary.json"] := c ]}) <$> o3 →
  reach e "sdist" 0 (take 4 (job_steps sdist)) fresh w2 = Some (rb, w') →
  ws rb !! ccd = o1 ∧ ws rb !! ccd_freq = o2 ∧ ws rb !! ccd_res_dict = o3.
Proof.
  intros Ha1 Ha2 Ha3. cbn [take job_steps sdist]. intros H.
  enter H H1. enter H H2. enter H H3. enter H H4. injection H as <- _.
  rewrite do_checkout in H1. destruct (exit_ok e _ 0 0); [|done]. injection H1 as <- <-.
  rewrite do_add_ccd in H2. unfold download, artifact_find in H2.
  destruct (exit_ok e _ 1 0); [|done]. rewrite Ha1 in H2.
  destruct o1 as [c1|]; [|done]. injection H2 as <- <-.
  rewrite do_add_ccd_freq in H3. unfold download, artifact_find in H3.
  destruct (exit_ok e _ 2 0); [|done]. rewrite Ha2 in H3.
  destruct o2 as [c2|]; [|done]. injection H3 as <- <-.
  rewrite do_add_ccd_res_dict in H4. unfold download, artifact_find in H4.
  destruct (exit_ok e _ 3 0); [|done]. rewrite Ha3 in H4.
  destruct o3 as [c3|]; [|done]. injection H4 as <- <-.
  cbn [ws with_ws fresh]. rewrite !rekey_singleton.
  apply (with_outputs_at e c1 c2 c3).
Qed.

(** The artifacts of a [build-internal] job that succeeds hold the three
    outputs as the workspace has them when the tests start. *)
Lemma tested_and_uploaded e wd a :
  artifacts wd = ∅ → fst (fst (run_job e build_internal wd)) = Success →
  a ∈ job_trace e build_internal wd → e_step a = test →
  artifacts (snd (run_job e build_internal wd)) !! "ccd"
  = (λ c, {[ ["components.bcif"] := c ]}) <$> (ws (e_runner a) !! ccd)
  ∧ artifacts (snd (run_job e build_internal wd)) !! "ccd_freq"
    = (λ c, {[ ["cc-counts.tdd"] := c ]}) <$> (ws (e_runner a) !! ccd_freq)
  ∧ artifacts (snd (run_job e build_internal wd)) !! "ccd_res_dict"
    = (λ c, {[ ["ccd_residue_dictionary.json"] := c ]})
        <$> (ws (e_runner a) !! ccd_res_dict).
Proof.
  intros Hart Hv Hin Hstep.
  destruct (success_passed e build_internal wd test 14 steps_nodup eq_refl eq_refl Hv)
    as (en & Hin' & Hstep' & Hout).
  destruct (entry_at e build_internal wd test 14 steps_nodup eq_refl)
    as (en0 & _ & _ & Huniq).
  pose proof (Huniq a Hin Hstep) as ->. pose proof (Huniq en Hin' Hstep') as ->.
  destruct (ran_state e build_internal wd test 14 en0 steps_nodup eq_refl Hin Hstep)
    as [_ Hst]. rewrite Hout in Hst. specialize (Hst ltac:(done)).
  change (job_id build_internal) with "build-internal" in Hst.
  destruct (run_job_run e build_internal wd) as (ok & rf & wf & Hrun & Heq).
  rewrite Heq in Hv |- *. destruct ok; [|by rewrite !fst_pair in Hv].
  rewrite snd_pair, artifacts_save_caches.
  apply run_success in Hrun; [|done..].
  change (job_id build_internal) with "build-internal" in Hrun.
  rewrite <- (take_drop 10 (job_steps build_internal)), reach_app in Hrun.
  change (take 14 (job_steps build_internal))
    with (take 10 (job_steps build_internal)
          ++ [upload_wheel; upload_ccd; upload_ccd_freq; upload_ccd_res_dict]) in Hst.
  rewrite reach_app in Hst.
  destruct (reach e "build-internal" 0 (take 10 (job_steps build_internal)) fresh wd)
    as [[r10 w10]|] eqn:H10; [|done].
  apply before_uploads_artifacts in H10. rewrite Hart in H10.
  apply uploads_result in Hrun as (_ & Hccd & Hfreq & Hdict); [|done].
  assert (e_runner en0 = r10) as ->; [|done].
  enter Hst H11. enter Hst H12. enter Hst H13. enter Hst H14. injection Hst as <- _.
  rewrite do_upload_wheel in H11. apply upload_cases in H11 as [-> _].
  rewrite do_upload_ccd in H12. apply upload_cases in H12 as [-> _].
  rewrite do_upload_ccd_freq in H13. apply upload_cases in H13 as [-> _].
  rewrite do_upload_ccd_res_dict in H14. by apply upload_cases in H14 as [-> _].
Qed.

End RoundTripFacts.

(** ** Cache hits *)

Module HitFacts.
Import Text Syntax Runner Publish Trace Pipeline CacheKey Stages Cases.
Import TextFacts FilesFacts TraceFacts ExecFacts StepFacts CacheKeyFacts BuildInternalFacts.
Import WorkflowFacts ReleaseFacts GatingFacts CacheFacts PublishingFacts RoundTripFacts.

Lemma ran_did_run s tr : ran s tr → did_run s tr = true.
Proof.
  intros (en & Hin & Hs & Hout). unfold did_run. apply existsb_exists.
  exists en. split; [by apply list_elem_of_In|].
  rewrite bool_decide_eq_true_2 by done. by destruct (e_outcome en).
Qed.

(** On a hit, the processed dictionary the tests find is the cached one. *)
Lemma hit_ships e wd r5 saved c ra wa :
  reach e "build-internal" 0 (take 5 (job_steps build_internal)) fresh wd = Some (r5, wd) →
  cache_find (key e (ws r5)) wd = Some saved → saved !! ccd = Some c →
  reach e "build-internal" 0 (take 14 (job_steps build_internal)) fresh wd = Some (ra, wa) →
  ws ra !! ccd = Some c.
Proof.
  intros H5 Hhit Hc.
  change (take 14 (job_steps build_internal))
    with (take 5 (job_steps build_internal)
          ++ [ cache_ccd; build_internal_ccd; remove_unprocessed_ccd; install_build_backend;
               build_distribution; upload_wheel; upload_ccd; upload_ccd_freq;
               upload_ccd_res_dict ]).
  rewrite reach_app, H5. intros H.
  enter H H6. rewrite do_cache_ccd, key_of_runner, Hhit in H6. injection H6 as <- <-.
  rewrite reach_skip in H.
  2: { rewrite if_build_internal_ccd. cbn [outs]. by rewrite get_set_out. }
  enter H H7. enter H H8. enter H H9. enter H H10. enter H H11. enter H H12. enter H H13.
  injection H as <- _.
  rewrite do_remove_unprocessed_ccd in H7. destruct (has _ _); [|done].
  injection H7 as <- _.
  rewrite do_install_build_backend in H8. destruct (exit_ok _ _ _ _); [|done].
  injection H8 as <- _.
  rewrite do_build_distribution in H9. destruct (exit_ok _ _ _ _); [|done].
  injection H9 as <- _.
  rewrite do_upload_wheel in H10. apply upload_cases in H10 as [-> _].
  rewrite do_upload_ccd in H11. apply upload_cases in H11 as [-> _].
  rewrite do_upload_ccd_freq in H12. apply upload_cases in H12 as [-> _].
  rewrite do_upload_ccd_res_dict in H13. apply upload_cases in H13 as [-> _].
  cbn [ws with_ws]. unfold write, remove, overlay.
  rewrite lookup_insert_ne, lookup_delete_ne by done.
  by apply lookup_union_Some_l.
Qed.

End HitFacts.

(** ** Exactly what is published *)

Module ExactFacts.
Import Text Syntax Runner Publish Trace Pipeline CacheKey Stages Cases.
Import TextFacts FilesFacts TraceFacts ExecFacts StepFacts CacheKeyFacts BuildInternalFacts.
Import WorkflowFacts ReleaseFacts GatingFacts CacheFacts PublishingFacts.

(** The artifact a [sdist] job that succeeds leaves: the source
    distributions of [dist/] after the build. *)
Lemma sdist_artifact_exact e w2 :
  (∀ name fs, artifacts w2 !! name = Some fs → internal_shape name fs) →
  fst (fst (run_job e sdist w2)) = Success →
  ∃ c1 c2 c3,
    artifacts (snd (run_job e sdist w2)) !! "release-sdist"
    = Some (rekey (drop 1)
              (matching "dist//*.tar.gz"
                 (write (tarball e) (pack e (with_outputs e c1 c2 c3))
                    (with_outputs e c1 c2 c3)))).
Proof.
  intros Hshape. destruct (run_job_run e sdist w2) as (ok & rf & wf & Hrun & ->).
  destruct ok; [|done]. intros _. rewrite snd_pair, artifacts_save_caches.
  apply run_success in Hrun; [|done..].
  change (job_id sdist) with "sdist" in Hrun.
  rewrite <- (take_drop 4 (job_steps sdist)), reach_app in Hrun.
  destruct (reach e "sdist" 0 (take 4 (job_steps sdist)) fresh w2) as [[r4 w4]|] eqn:H4;
    [|done].
  apply before_sdist_build in H4 as (-> & c1 & c2 & c3 & Hws); [|done].
  exists c1, c2, c3.
  change (drop 4 (job_steps sdist))
    with [build_source_distribution; upload_sdist; clean_dist] in Hrun.
  enter Hrun H5. enter Hrun H6. enter Hrun H7. injection Hrun as _ <-.
  rewrite do_build_source_distribution in H5. pass H5.
  rewrite do_upload_sdist in H6. rewrite do_clean_dist in H7. injection H7 as _ <-.
  cbn [ws with_ws] in H6. rewrite Hws in H6.
  apply upload_cases in H6 as [_ [[Hnone _]|(_ & _ & ->)]].
  - exfalso. cbn [ws with_ws] in Hnone.
    pose proof (tarball_found e (write (tarball e) (pack e (with_outputs e c1 c2 c3))
                                    (with_outputs e c1 c2 c3))
                  (pack e (with_outputs e c1 c2 c3))) as Hfound.
    rewrite Hnone, lookup_empty in Hfound. unfold write in Hfound.
    rewrite lookup_insert_eq in Hfound. by specialize (Hfound eq_refl).
  - rewrite artifacts_put. by case_decide.
Qed.

(** The files of that artifact: the distribution just built and the
    source distributions the checkout has in [dist/]. *)
Lemma sdist_files (e : env) (c c1 c2 c3 : content) (x : string) :
  is_Some (rekey (drop 1)
             (matching "dist//*.tar.gz" (write (tarball e) c (with_outputs e c1 c2 c3)))
           !! [x])
  ↔ Text.ends_with ".tar.gz" x = true
    ∧ (x = sdist_stem e +:+ ".tar.gz" ∨ is_Some (repo e !! ["dist"; x])).
Proof.
  assert (with_outputs e c1 c2 c3 !! ["dist"; x] = repo e !! ["dist"; x]) as Hrepo.
  { apply with_outputs_other. unfold bundled. rewrite !elem_of_cons, elem_of_nil.
    by intros [?|[?|[?|?]]]. }
  split.
  - intros [c' (x' & [= <-] & Hx & Hw)%(found_in_dir _ "dist" ".tar.gz")]; [|done..].
    split; [done|]. unfold write, tarball in Hw.
    apply lookup_insert_Some in Hw as [[[= <-] _]|[_ Hw]]; [by left|right].
    rewrite <- Hrepo. by exists c'.
  - intros [Hx Hw].
    assert (is_Some (write (tarball e) c (with_outputs e c1 c2 c3) !! ["dist"; x]))
      as [c' Hc'].
    { unfold write, tarball. apply lookup_insert_is_Some'.
      destruct Hw as [->|Hw]; [by left|right]. by rewrite Hrepo. }
    apply (rekey_is_Some (drop 1) _ ["dist"; x] c'). apply lookup_matching.
    split; [done|]. unfold Glob.file.
    change (Path.parse "dist//*.tar.gz") with ["dist"; "*.tar.gz"]. cbn [Glob.path].
    rewrite (seg_star ".tar.gz") by done. by rewrite Hx.
Qed.

(** Of the artifacts of a run, [release-*] selects those of [release-sdist]. *)
Lemma merged_release (wd : world) (fs : files) (q : list string) :
  shaped wd → artifacts wd !! "release-sdist" = Some fs →
  is_Some (merged "release-*" true (artifacts wd) !! q) ↔ is_Some (fs !! q).
Proof.
  intros Hwd Hfs. split.
  - intros [c (name & fs' & Ha & Hg & Hq)%merged_lookup_inv].
    destruct (Hwd name fs' Ha) as [Hin|[-> _]].
    + exfalso. revert Hg. unfold internal_artifacts in Hin.
      step_cases Hin; vm_compute; discriminate.
    + rewrite Hfs in Ha. injection Ha as ->. by exists c.
  - intros [c Hq]. by apply (merged_is_Some _ _ "release-sdist" fs q c).
Qed.

(** The names of the files in [dist/]. *)
Lemma dist_names (m : files) (x : string) :
  source_only m →
  is_Some (by_name (overlay (rekey (app ["dist"]) m) (ws fresh)) !! x) ↔ is_Some (m !! [x]).
Proof.
  intros Hm. split.
  - intros [c (p & -> & Hp)%rekey_lookup_inv]. unfold overlay in Hp.
    apply lookup_union_Some_raw in Hp as [Hp|[_ Hp]].
    + apply rekey_lookup_inv in Hp as (q & -> & Hq).
      destruct (Hm q c Hq) as (x & -> & _). by exists c.
    + unfold fresh in Hp. cbn [ws] in Hp. by rewrite lookup_empty in Hp.
  - intros [c Hx].
    destruct (rekey_is_Some (app ["dist"]) _ [x] c Hx) as [c2 Hc2].
    assert (is_Some (overlay (rekey (app ["dist"]) m) (ws fresh) !! ["dist"; x]))
      as [c3 Hc3].
    { unfold overlay. apply lookup_union_is_Some. left. by exists c2. }
    apply (rekey_is_Some Path.basename _ ["dist"; x] c3 Hc3).
Qed.

(** What a release that goes through adds to both places. *)
Lemma published_files e wd :
  fst (fst (upload_package_run e wd)) = Success →
  ∃ sent : gmap string content,
    release_assets (snd (upload_package_run e wd)) = sent ∪ release_assets wd
    ∧ pypi_files (snd (upload_package_run e wd)) = sent ∪ pypi_files wd
    ∧ ∀ x, is_Some (sent !! x)
           ↔ Text.ends_with ".tar.gz" x = true
             ∧ (x = sdist_stem e +:+ ".tar.gz" ∨ is_Some (repo e !! ["dist"; x])).
Proof.
  intros Hv.
  destruct (upload_package_started e wd) as (_ & Hsd & _ & Hrun); [left; by rewrite Hv|].
  destruct (sdist_started e wd) as (_ & _ & Hsrun); [left; by rewrite Hsd|].
  rewrite Hrun in Hv |- *.
  destruct (upload_package_success e _ (sdist_shaped e wd) Hv) as [Hrel Hpy].
  pose proof (before_publishing e wd) as [= Hr Hp].
  eexists. split; [by rewrite Hrel, Hr|]. split; [by rewrite Hpy, Hp|].
  intros x. pose proof (sdist_shaped e wd) as Hshaped.
  rewrite Hsrun in Hsd, Hshaped |- *.
  destruct (sdist_artifact_exact e _ (artifacts_for_sdist e wd) Hsd)
    as (c1 & c2 & c3 & Hart).
  rewrite (dist_names _ x (release_pattern _ Hshaped)).
  rewrite (merged_release _ _ [x] Hshaped Hart).
  apply sdist_files.
Qed.

End ExactFacts.

(** ** The raw dictionary and the cache *)

Module RawFacts.
Import Text Syntax Runner Publish Trace Pipeline CacheKey Stages Cases.
Import TextFacts FilesFacts TraceFacts ExecFacts StepFacts CacheKeyFacts BuildInternalFacts.
Import WorkflowFacts ReleaseFacts GatingFacts CacheFacts PublishingFacts.

(** What the post step saves does not hold the raw dictionary when the
    workspace does not. *)
Lemma save_caches_without_raw r wd :
  cache_without_raw wd → ws r !! raw_ccd = None → cache_without_raw (save_caches r wd).
Proof.
  intros Hwd Hraw. unfold save_caches.
  induction (saves r) as [|kd l IH]; [done|]. simpl. unfold save_one at 1.
  destruct (cache_find _ _); [done|].
  intros key fs. cbn [caches]. rewrite lookup_insert. case_decide; [|by apply IH].
  intros [= <-]. destruct (under _ _ !! raw_ccd) as [c|] eqn:Hc; [|done].
  apply lookup_under in Hc as [Hc _]. congruence.
Qed.

Lemma build_internal_cache_without_raw e wd :
  cache_without_raw wd → cache_without_raw (snd (run_job e build_internal wd)).
Proof.
  intros Hwd. destruct (run_job_run e build_internal wd) as (ok & rf & wf & Hrun & ->).
  assert (caches wf = caches wd) as Hc.
  { apply (run_invariant e (job_id build_internal) (λ w, caches w = caches wd)
             _ _ _ _ _ _ _ _ _ Hrun); [|done].
    intros i s r w _ <-. apply exec_caches. }
  assert (cache_without_raw wf) as Hwf.
  { unfold cache_without_raw. by rewrite Hc. }
  destruct ok; rewrite snd_pair; [|done].
  apply run_success in Hrun; [|done..].
  change (job_id build_internal) with "build-internal" in Hrun.
  change (job_steps build_internal)
    with (take 14 (job_steps build_internal) ++ [test]) in Hrun.
  apply reach_snoc in Hrun as (r14 & w14 & H14 & Hx); [|done].
  apply (absent_after_removal e wd test 14) in H14; [|done|].
  2: { unfold after_removal. rewrite !elem_of_cons. auto 10. }
  rewrite do_test in Hx. destruct (exit_ok _ _ _ _); [|done]. injection Hx as <- _.
  by apply save_caches_without_raw.
Qed.

End RawFacts.

(** ** Facts about regular expressions *)

Module RegexFacts.
Import Regex.

Lemma scan_unfold r b s :
  scan r b s
  = m r b s (fun _ _ => true)
    || match s with
       | EmptyString => false
       | String _ s' => scan r false s'
       end.
Proof. by destruct s. Qed.

Lemma star_loop_unfold f k n b s :
  star_loop f k n b s
  = k b s
    || match n with
       | O => false
       | S n' =>
           f b s (fun b' s' => Nat.ltb (String.length s') (String.length s)
                              && star_loop f k n' b' s')
       end.
Proof. by destruct n. Qed.

Lemma scan_alt x y b s : scan (Alt x y) b s = scan x b s || scan y b s.
Proof.
  revert b. induction s as [|c s IH]; intros b; rewrite !(scan_unfold _ b); cbn [m].
  - by rewrite !orb_false_r.
  - rewrite IH. by destruct (m x _ _ _), (m y _ _ _), (scan x _ _).
Qed.

(** Anchored at the beginning, a pattern is tried once. *)
Lemma scan_bol_later x s : scan (Cat Bol x) false s = false.
Proof. induction s as [|c s IH]; rewrite scan_unfold; by cbn [m andb orb]. Qed.

Lemma search_bol x s : search (Cat Bol x) s = m x true s (fun _ _ => true).
Proof.
  unfold search. rewrite scan_unfold. cbn [m andb].
  destruct s as [|c s]; [apply orb_false_r|]. by rewrite scan_bol_later, orb_false_r.
Qed.

Lemma m_lit l b s : m (lit l Eps) b s (fun _ _ => true) = starts_with l s.
Proof.
  revert b s. induction l as [|c l IH]; intros b s; [done|].
  cbn [lit m starts_with]. destruct s as [|d s]; [done|]. by rewrite IH.
Qed.

Lemma m_lit_eol l b s :
  m (lit l (Cat Eol Eps)) b s (fun _ _ => true)
  = String.eqb s l || String.eqb s (l +:+ String newline "").
Proof.
  revert b s. induction l as [|c l IH]; intros b s.
  - cbn [lit m]. by rewrite andb_true_r.
  - cbn [lit m]. destruct s as [|d s]; [done|]. rewrite IH.
    change (String c l +:+ String newline "") with (String c (l +:+ String newline "")).
    cbn [String.eqb]. by destruct (Ascii.eqb d c).
Qed.

(** [^text]: the subject begins with the text. *)
Lemma search_prefix l s : search (Cat Bol (lit l Eps)) s = starts_with l s.
Proof. by rewrite search_bol, m_lit. Qed.

(** [text]: the text occurs in the subject. *)
Lemma scan_lit l b s : scan (lit l Eps) b s = contains l s.
Proof.
  revert b. induction s as [|c s IH]; intros b; rewrite scan_unfold, m_lit; [done|].
  by rewrite IH.
Qed.

(** [text$]: the subject ends with the text, or with the text and a
    newline. *)
Lemma scan_lit_eol l b s :
  scan (lit l (Cat Eol Eps)) b s
  = Text.ends_with l s || Text.ends_with (l +:+ String newline "") s.
Proof.
  revert b. induction s as [|c s IH]; intros b; rewrite scan_unfold, m_lit_eol.
  - rewrite (TextFacts.ends_with_unfold l ""),
      (TextFacts.ends_with_unfold (l +:+ String newline "") "").
    by rewrite !orb_false_r.
  - rewrite (TextFacts.ends_with_unfold l (String c s)),
      (TextFacts.ends_with_unfold (l +:+ String newline "") (String c s)), IH.
    destruct (String.eqb (String c s) l),
      (String.eqb (String c s) (l +:+ String newline "")),
      (Text.ends_with l s), (Text.ends_with (l +:+ String newline "") s); reflexivity.
Qed.

(** A leading [.*] makes no difference to a search. *)
Lemma star_any_scan x n b s :
  star_loop (m Any) (fun b' s' => m x b' s' (fun _ _ => true)) n b s = true →
  scan x b s = true.
Proof.
  revert b s. induction n as [|n IH]; intros b s; rewrite star_loop_unfold, scan_unfold.
  - rewrite orb_false_r. by intros ->.
  - intros [->|H]%orb_true_iff; [done|]. apply orb_true_iff. right.
    destruct s as [|d s]; [done|]. cbn [m] in H.
    apply andb_true_iff in H as [_ [_ H]%andb_true_iff]. by apply IH.
Qed.

Lemma scan_dotstar x b s : scan (Cat (Star Any) x) b s = scan x b s.
Proof.
  revert b. induction s as [|c s IH]; intros b; rewrite !(scan_unfold _ b); cbn [m].
  - rewrite !orb_false_r. cbn [String.length]. by rewrite star_loop_unfold, orb_false_r.
  - rewrite IH. destruct (scan x false s) eqn:Hs; [by rewrite !orb_true_r|].
    rewrite !orb_false_r.
    destruct (star_loop _ _ _ _ _) eqn:Hstar.
    + apply star_any_scan in Hstar. rewrite scan_unfold, Hs, orb_false_r in Hstar. done.
    + rewrite star_loop_unfold in Hstar. by apply orb_false_iff in Hstar as [-> _].
Qed.

Lemma search_alt x y s : search (Alt x y) s = search x s || search y s.
Proof. apply scan_alt. Qed.

End RegexFacts.

(** ** What the hooks skip *)

Module PrecommitFacts.
Import Regex RegexFacts Precommit.

Lemma skips_isort p : skips isort p = starts_with "data" p || starts_with pdbx p.
Proof.
  unfold skips.
  change (parse_pattern (h_exclude isort))
    with (Alt (Cat Bol (lit "data" Eps)) (Cat Bol (lit pdbx Eps))).
  by rewrite search_alt, !search_prefix.
Qed.

Lemma skips_black p :
  skips black p
  = starts_with "data" p
    || (Text.ends_with ".pdb" p || Text.ends_with (".pdb" +:+ String newline "") p)
    || contains ".cif" p || contains ".bcif" p || starts_with pdbx p.
Proof.
  unfold skips.
  change (parse_pattern (h_exclude black))
    with (Alt (Alt (Alt (Alt (Cat Bol (lit "data" Eps))
                             (Cat (Star Any) (lit ".pdb" (Cat Eol Eps))))
                        (Cat (Star Any) (lit ".cif" Eps)))
                   (Cat (Star Any) (lit ".bcif" Eps)))
              (Cat Bol (lit pdbx Eps))).
  rewrite !search_alt, !search_prefix. unfold search.
  by rewrite !scan_dotstar, !scan_lit, scan_lit_eol.
Qed.

Lemma skips_fixers h p :
  h ∈ [check_yaml; end_of_file_fixer; trailing_whitespace] →
  skips h p
  = starts_with "data" p
    || (Text.ends_with ".pdb" p || Text.ends_with (".pdb" +:+ String newline "") p)
    || (Text.ends_with ".cif" p || Text.ends_with (".cif" +:+ String newline "") p)
    || contains ".bcif" p || starts_with protein_library p || starts_with pdbx p.
Proof.
  intros Hh. unfold skips.
  assert (parse_pattern (h_exclude h)
          = Alt (Alt (Alt (Alt (Alt (Cat Bol (lit "data" Eps))
                                    (Cat (Star Any) (lit ".pdb" (Cat Eol Eps))))
                               (Cat (Star Any) (lit ".cif" (Cat Eol Eps))))
                          (Cat (Star Any) (lit ".bcif" Eps)))
                     (Cat Bol (lit protein_library Eps)))
                (Cat Bol (lit pdbx Eps))) as ->.
  { repeat (apply elem_of_cons in Hh as [->|Hh]); [done..|by apply elem_of_nil in Hh]. }
  rewrite !search_alt, !search_prefix. unfold search.
  by rewrite !scan_dotstar, !scan_lit, !scan_lit_eol.
Qed.

Lemma skips_flake8 p : skips flake8 p = starts_with "examples" p || starts_with pdbx p.
Proof.
  unfold skips.
  change (parse_pattern (h_exclude flake8))
    with (Alt (Cat Bol (lit "examples" Eps)) (Cat Bol (lit pdbx Eps))).
  by rewrite search_alt, !search_prefix.
Qed.

End PrecommitFacts.

(** * The claims *)

Module Claims.
Import Syntax Runner Publish Pipeline StepFacts CacheKey Scenario.
Import TextFacts FilesFacts Trace TraceFacts ExecFacts CacheKeyFacts BuildInternalFacts.
Import Stages WorkflowFacts ReleaseFacts.

(** C5.  The package declares exactly two console scripts: [cif2bcif],
    which resolves to [main] of module [bio_datasets_cli.cif2bcif], and
    [cifs2bcifs], which resolves to [dir_main] of the same module.  No
    table that can declare a console script declares another one. *)
Theorem console_scripts_exactly_two :
  Pyproject.entry_points Pyproject.pyproject_toml
  = [ ("cif2bcif", Some ("bio_datasets_cli.cif2bcif", "main"));
      ("cifs2bcifs", Some ("bio_datasets_cli.cif2bcif", "dir_main")) ].
Proof. reflexivity. Qed.

Lemma toy_digest_hex (c : content) : is_digest (toy_digest c) = true.
Proof.
  destruct c as [[|a b]|]; [reflexivity| |reflexivity].
  unfold toy_digest, is_digest.
  destruct (hex_digit a) eqn:Ha, (String.length b =? 63)%nat;
    cbn [String.length zeros Nat.iter all_hex andb Nat.eqb]; rewrite ?Ha; reflexivity.
Qed.

(** C2.  The key of the CCD cache is a function of three content hashes,
    those of [setup_ccd.py], of [components.cif.gz] and of [cc-counts.tdd]
    as they lie in the workspace when the [Cache CCD] step runs.  Two
    workspaces get the same key exactly when the three hashes agree, and,
    as long as the digest does not collide on what is hashed, exactly when
    the three files are byte for byte the same: identical files give the
    same key, and changing any one of them gives another key. *)
Theorem cache_key_of_three_files (e : env) (w1 w2 : files) :
  (∀ c, is_digest (digest e c) = true) →
  collision_free e (hashed e w1 ++ hashed e w2) = true →
  (∀ r, eval_pieces e r cache_key = key e (ws r))
  ∧ (key e w1 = key e w2 ↔ ∀ p, p ∈ inputs → hash_of e w1 p = hash_of e w2 p)
  ∧ (key e w1 = key e w2 ↔ ∀ p, p ∈ inputs → w1 !! p = w2 !! p).
Proof.
  intros Hhex Hfree. split; [apply key_of_runner|]. split.
  - by apply key_inj.
  - rewrite (key_inj e Hhex). split.
    + intros Hall p Hp. eapply hash_of_inj; eauto.
    + intros Hall p Hp. unfold hash_of. by rewrite (Hall p Hp).
Qed.

Lemma cache_key_of_three_files_witness :
  (∀ c, is_digest (digest (smooth release_published) c) = true)
  ∧ collision_free (smooth release_published)
      (hashed (smooth release_published) before
       ++ hashed (smooth release_published) after) = true
  ∧ (∀ r, eval_pieces (smooth release_published) r cache_key
          = key (smooth release_published) (ws r))
  ∧ (key (smooth release_published) before = key (smooth release_published) after
     ↔ ∀ p, p ∈ inputs →
         hash_of (smooth release_published) before p
         = hash_of (smooth release_published) after p)
  ∧ (key (smooth release_published) before = key (smooth release_published) after
     ↔ ∀ p, p ∈ inputs → before !! p = after !! p).
Proof.
  split; [exact toy_digest_hex|]. split; [vm_compute; reflexivity|].
  apply (cache_key_of_three_files (smooth release_published) before after).
  - exact toy_digest_hex.
  - vm_compute; reflexivity.
Defined.

(** C3.  In every run of the [build-internal] job, the step that rebuilds
    the CCD ([python setup_ccd.py]) runs if and only if the cache lookup
    took place and missed: a miss triggers the rebuild, and on a hit, as
    in a run that never gets to the lookup, the rebuild is skipped. *)
Theorem rebuild_iff_cache_miss (e : env) (wd : world) :
  ran build_internal_ccd (job_trace e build_internal wd) ↔
  ∃ en, en ∈ job_trace e build_internal wd ∧ e_step en = cache_ccd
        ∧ e_outcome en = Passed
        ∧ cache_find (key e (ws (e_runner en))) (e_world en) = None.
Proof.
  rewrite (ran_iff e build_internal wd build_internal_ccd 6 steps_nodup eq_refl).
  change (take 6 (job_steps build_internal))
    with (take 5 (job_steps build_internal) ++ [cache_ccd]).
  split.
  - intros (r6 & wd6 & Hreach & Hif).
    assert (ran build_internal_ccd (job_trace e build_internal wd)) as Hran.
    { apply (ran_iff e build_internal wd build_internal_ccd 6 steps_nodup eq_refl). eauto. }
    apply (earlier_passed e build_internal wd cache_ccd 5 _ 6 steps_nodup) in Hran;
      [|done|done|lia|done].
    apply precedes_passed in Hran as (en & Hin & Hs & Hout).
    exists en. split; [done|]. split; [done|]. split; [done|].
    destruct (ran_state e build_internal wd cache_ccd 5 en steps_nodup eq_refl Hin Hs)
      as [_ Hst]. rewrite Hout in Hst. specialize (Hst ltac:(done)).
    apply reach_snoc in Hreach as (r5 & wd5 & Hr5 & Hx); [|done].
    rewrite Hst in Hr5. injection Hr5 as <- <-.
    rewrite do_cache_ccd, key_of_runner in Hx.
    destruct (cache_find _ _) as [saved|]; [|done].
    injection Hx as <- <-. rewrite if_build_internal_ccd in Hif.
    cbn [outs] in Hif. by rewrite get_set_out in Hif.
  - intros (en & Hin & Hs & Hout & Hmiss).
    destruct (ran_state e build_internal wd cache_ccd 5 en steps_nodup eq_refl Hin Hs)
      as [_ Hst]. rewrite Hout in Hst. specialize (Hst ltac:(done)).
    eexists _, _. split.
    + apply reach_snoc; [done|]. eexists _, _. split; [exact Hst|].
      rewrite do_cache_ccd, key_of_runner, Hmiss. reflexivity.
    + rewrite if_build_internal_ccd. cbn [outs]. by rewrite get_set_out.
Qed.

(** C7.  In every run of the [build-internal] job the two downloads come
    before the cache lookup and before any CCD processing: whenever the
    [Cache CCD] step or the [Build internal CCD] step runs, the step
    fetching [components.cif.gz] from [files.wwpdb.org] and the step
    fetching [cc-counts.tdd] from [ligand-expo.rcsb.org] have both passed
    on earlier lines of the log, and the two bodies lie in
    [src/bio_datasets/structure/library/] when that step starts. *)
Theorem downloads_come_first (e : env) (wd : world) (s : step) :
  s ∈ [cache_ccd; build_internal_ccd] →
  ran s (job_trace e build_internal wd) →
  (commands get_ccd = [Wget lib ccd_url] ∧ Text.host ccd_url = "files.wwpdb.org"
   ∧ commands get_ccd_freq = [Wget lib ccd_freq_url]
   ∧ Text.host ccd_freq_url = "ligand-expo.rcsb.org")
  ∧ precedes get_ccd s (job_trace e build_internal wd)
  ∧ precedes get_ccd_freq s (job_trace e build_internal wd)
  ∧ ∀ en, en ∈ job_trace e build_internal wd → e_step en = s →
      ws (e_runner en) !! (lib ++ ["components.cif.gz"]) = Some (Blob (fetch e ccd_url))
      ∧ ws (e_runner en) !! (lib ++ ["cc-counts.tdd"]) = Some (Blob (fetch e ccd_freq_url)).
Proof.
  intros Hs Hran. split; [by vm_compute|].
  assert (∃ k, job_steps build_internal !! k = Some s ∧ (4 < k)%nat ∧ (k = 5 ∨ k = 6))
    as (k & Hk & Hlt & Hcases).
  { apply elem_of_cons in Hs as [->|Hs]; [exists 5; split; [done|split; [lia|by left]]|].
    apply elem_of_cons in Hs as [->|Hs]; [exists 6; split; [done|split; [lia|by right]]|].
    by apply elem_of_nil in Hs. }
  split; [|split].
  - apply (earlier_passed e build_internal wd get_ccd 3 s k steps_nodup); try done. lia.
  - apply (earlier_passed e build_internal wd get_ccd_freq 4 s k steps_nodup); done.
  - intros en Hin Hstep.
    destruct Hran as (en' & Hin' & Hstep' & Hout).
    destruct (entry_at e build_internal wd s k steps_nodup Hk) as (en0 & _ & _ & Huniq).
    rewrite (Huniq en' Hin' Hstep') in Hout. rewrite (Huniq en Hin Hstep).
    assert (en0 ∈ job_trace e build_internal wd) as Hin0 by (by rewrite <- (Huniq en Hin Hstep)).
    assert (e_step en0 = s) as Hstep0 by (by rewrite <- (Huniq en Hin Hstep)).
    destruct (ran_state e build_internal wd s k en0 steps_nodup Hk Hin0 Hstep0)
      as [Hline Hst]. specialize (Hst Hout).
    assert (∃ w, ws (e_runner en0) = downloaded e w) as [w ->].
    { destruct Hcases as [-> | ->].
      - by apply before_cache in Hst as (_ & _ & _ & ?).
      - change (Some build_internal_ccd = Some s) in Hk. injection Hk as <-.
        change (take 6 (job_steps build_internal))
          with (take 5 (job_steps build_internal) ++ [cache_ccd]) in Hst.
        apply reach_snoc in Hst as (r5 & wd5 & Hr5 & Hx); [|done].
        apply before_cache in Hr5 as (_ & _ & _ & w & Hw).
        rewrite do_cache_ccd in Hx.
        destruct (cache_find _ _) as [saved|]; injection Hx as Hx _.
        + exfalso. destruct (job_trace_run e build_internal wd) as (ok & rf & wf & Hrun).
          destruct (run_reach _ _ _ _ _ _ _ _ _ _ Hrun _ _ Hline) as [Hiff _].
          apply Hiff in Hout as [_ Hc]. rewrite Hstep0, <- Hx in Hc.
          rewrite if_build_internal_ccd in Hc. cbn [outs] in Hc.
          by rewrite get_set_out in Hc.
        + exists w. by rewrite <- Hx. }
    split; [apply downloaded_raw_ccd|apply downloaded_ccd_freq].
Qed.

Lemma downloads_come_first_witness :
  let e := smooth release_published in
  let tr := job_trace e build_internal nothing in
  cache_ccd ∈ [cache_ccd; build_internal_ccd]
  ∧ ran cache_ccd tr
  ∧ (commands get_ccd = [Wget lib ccd_url] ∧ Text.host ccd_url = "files.wwpdb.org"
     ∧ commands get_ccd_freq = [Wget lib ccd_freq_url]
     ∧ Text.host ccd_freq_url = "ligand-expo.rcsb.org")
  ∧ precedes get_ccd cache_ccd tr
  ∧ precedes get_ccd_freq cache_ccd tr
  ∧ ∀ en, en ∈ tr → e_step en = cache_ccd →
      ws (e_runner en) !! (lib ++ ["components.cif.gz"]) = Some (Blob (fetch e ccd_url))
      ∧ ws (e_runner en) !! (lib ++ ["cc-counts.tdd"]) = Some (Blob (fetch e ccd_freq_url)).
Proof.
  intros e tr.
  assert (ran cache_ccd tr) as Hran by (apply did_run_ran; vm_compute; reflexivity).
  split; [by left|]. split; [exact Hran|].
  apply (downloads_come_first e nothing cache_ccd); [by left|exact Hran].
Defined.

(** C8.  In every run of the [build-internal] job the raw dictionary
    [components.cif.gz] is removed from the library directory after the CCD
    processing and before anything is built or uploaded: whenever a step
    from [Install build backend] on runs, the removal has passed on an
    earlier line (and the processing, if it ran, before the removal), and
    the workspace that step starts from does not hold the file.  Hence the
    wheel that [Build distribution] writes does not pack it, and no artifact
    the job uploads has a file of that name. *)
Theorem raw_ccd_never_shipped (e : env) (wd : world) :
  (∀ s, s ∈ after_removal → ran s (job_trace e build_internal wd) →
     precedes remove_unprocessed_ccd s (job_trace e build_internal wd)
     ∧ (ran build_internal_ccd (job_trace e build_internal wd) →
        precedes build_internal_ccd remove_unprocessed_ccd (job_trace e build_internal wd))
     ∧ ∀ en, en ∈ job_trace e build_internal wd → e_step en = s →
         ws (e_runner en) !! raw_ccd = None)
  ∧ (∀ en, en ∈ job_trace e build_internal wd → e_step en = build_distribution →
       e_outcome en = Passed →
       ∃ ms, ws (e_runner' en) !! wheel e = Some (Pkg ms) ∧ raw_ccd ∉ ms)
  ∧ artifacts_since (fun _ fs => without_raw_ccd fs) wd (snd (run_job e build_internal wd)).
Proof.
  assert (∀ s, s ∈ after_removal → ran s (job_trace e build_internal wd) →
            ∀ en, en ∈ job_trace e build_internal wd → e_step en = s →
              ws (e_runner en) !! raw_ccd = None) as Habsent.
  { intros s Hs (en' & Hin' & Hstep' & Hout) en Hin Hstep.
    destruct (after_removal_index s Hs) as (k & Hk & _).
    destruct (entry_at e build_internal wd s k steps_nodup Hk) as (en0 & _ & _ & Huniq).
    pose proof (Huniq en Hin Hstep) as ->. pose proof (Huniq en' Hin' Hstep') as ->.
    destruct (ran_state e build_internal wd s k en0 steps_nodup Hk Hin Hstep)
      as [_ Hst]. specialize (Hst Hout).
    by eapply absent_after_removal. }
  split; [|split].
  - intros s Hs Hran.
    destruct (after_removal_index s Hs) as (k & Hk & Hlt).
    assert (precedes remove_unprocessed_ccd s (job_trace e build_internal wd)) as Hrm.
    { by apply (earlier_passed e build_internal wd remove_unprocessed_ccd 7 s k steps_nodup). }
    split; [done|]. split; [|by apply Habsent].
    intros Hccd. apply precedes_passed, passed_ran in Hrm.
    apply (earlier_ran e build_internal wd build_internal_ccd 6 _ 7 steps_nodup); try done. lia.
  - intros en Hin Hstep Hout.
    pose proof (passed_exec e build_internal wd build_distribution 9 en
                  steps_nodup eq_refl Hin Hstep Hout) as Hx.
    rewrite do_build_distribution in Hx.
    destruct (exit_ok e _ 9 0); [|done]. injection Hx as Hr _. rewrite <- Hr.
    cbn [ws with_ws].
    exists (List.filter (packaged e) (names (ws (e_runner en)))). split.
    + unfold write. by rewrite lookup_insert_eq.
    + intros Hms. apply (packed_in_workspace e (ws (e_runner en))) in Hms as [c Hc]; [|done].
      rewrite (Habsent build_distribution) in Hc; try done.
      * unfold after_removal. by right; left.
      * exists en. by rewrite Hout.
  - intros name fs Hnone Hsome.
    by eapply shape_plain, (build_internal_artifacts e wd).
Qed.

Lemma raw_ccd_never_shipped_witness :
  let e := smooth release_published in
  let tr := job_trace e build_internal nothing in
  (build_distribution ∈ after_removal ∧ ran build_distribution tr)
  ∧ precedes remove_unprocessed_ccd build_distribution tr
  ∧ (ran build_internal_ccd tr → precedes build_internal_ccd remove_unprocessed_ccd tr)
  ∧ ∀ en, en ∈ tr → e_step en = build_distribution → ws (e_runner en) !! raw_ccd = None.
Proof.
  intros e tr.
  assert (ran build_distribution tr) as Hran by (apply did_run_ran; vm_compute; reflexivity).
  assert (build_distribution ∈ after_removal) as Hin by (by right; left).
  split; [done|].
  exact (proj1 (raw_ccd_never_shipped e nothing) build_distribution Hin Hran).
Defined.

Lemma toy_effect_ok (ev : event) : processing_ok (smooth ev).
Proof.
  intros w. change (effect (smooth ev) ["python"; "setup_ccd.py"] w)
    with (write ccd (Blob "bcif") (write ccd_res_dict (Blob "json") w)).
  unfold write. rewrite lookup_insert_eq.
  rewrite lookup_insert_ne, lookup_insert_eq by done.
  rewrite !lookup_insert_ne by done. done.
Qed.

Lemma nothing_cached : cache_holds_outputs nothing.
Proof. intros key fs Hkey. cbn [caches nothing] in Hkey. by rewrite lookup_empty in Hkey. Qed.



(** C10.  The [sdist] job is started only when both the [pre-commit] job
    and the [build-internal] job have succeeded: the lint hooks have passed
    and so has the test suite, on the commit the source distribution is
    built from. *)
Theorem sdist_after_lint_and_tests (e : env) (wd : world) :
  verdict_of (fst (run_workflow e publish_yml wd)) "sdist" ≠ NotRun
  ∨ ran build_source_distribution (trace_of (fst (run_workflow e publish_yml wd)) "sdist") →
  verdict_of (fst (run_workflow e publish_yml wd)) "pre-commit" = Success
  ∧ verdict_of (fst (run_workflow e publish_yml wd)) "build-internal" = Success
  ∧ passed pre_commit_action (trace_of (fst (run_workflow e publish_yml wd)) "pre-commit")
  ∧ passed test (trace_of (fst (run_workflow e publish_yml wd)) "build-internal").
Proof.
  destruct (triggered e) eqn:Ht.
  - destruct (stage_sdist e wd Ht) as [-> ->].
    destruct (stage_pre_commit e wd Ht) as [-> ->].
    destruct (stage_build_internal e wd Ht) as [-> ->].
    intros Hstarted.
    destruct (sdist_started e wd) as (Hpc & Hbi & _).
    { destruct Hstarted as [?|(en & Hin & _)]; [by left|right].
      intros Hnil. rewrite Hnil in Hin. by apply elem_of_nil in Hin. }
    split; [done|]. split; [done|].
    rewrite !run_job_trace. split.
    + by apply (success_passed _ _ _ _ 2 pre_commit_nodup).
    + by apply (success_passed _ _ _ _ 14 steps_nodup).
  - destruct (untriggered e wd "sdist" Ht) as [-> ->].
    intros [?|(en & Hin & _)]; [done|]. by apply elem_of_nil in Hin.
Qed.

Lemma sdist_after_lint_and_tests_witness :
  let log := fst (run_workflow (smooth pull_request) publish_yml nothing) in
  (verdict_of log "sdist" ≠ NotRun ∨ ran build_source_distribution (trace_of log "sdist"))
  ∧ verdict_of log "pre-commit" = Success
  ∧ verdict_of log "build-internal" = Success
  ∧ passed pre_commit_action (trace_of log "pre-commit")
  ∧ passed test (trace_of log "build-internal").
Proof.
  intros log.
  assert (verdict_of log "sdist" ≠ NotRun) as Hv by (vm_compute; discriminate).
  split; [by left|].
  apply (sdist_after_lint_and_tests (smooth pull_request) nothing). by left.
Defined.

(** C6.  The pipeline publishes last: the [upload-package] job is started
    only on a release that has been published, and only when the
    [build-internal] job, in which the wheel is built and then the tests
    are run, and the [sdist] job have both succeeded. *)
Theorem publish_after_build_and_test (e : env) (wd : world) :
  verdict_of (fst (run_workflow e publish_yml wd)) "upload-package" ≠ NotRun →
  (ev_name (event_of e) = "release" ∧ ev_action (event_of e) = "published")
  ∧ verdict_of (fst (run_workflow e publish_yml wd)) "build-internal" = Success
  ∧ verdict_of (fst (run_workflow e publish_yml wd)) "sdist" = Success
  ∧ precedes build_distribution test
      (trace_of (fst (run_workflow e publish_yml wd)) "build-internal")
  ∧ passed test (trace_of (fst (run_workflow e publish_yml wd)) "build-internal")
  ∧ passed build_source_distribution
      (trace_of (fst (run_workflow e publish_yml wd)) "sdist").
Proof.
  destruct (triggered e) eqn:Ht.
  - destruct (stage_upload_package e wd Ht) as (-> & _ & _).
    destruct (stage_sdist e wd Ht) as [-> ->].
    destruct (stage_build_internal e wd Ht) as [-> ->].
    intros Hstarted.
    destruct (upload_package_started e wd) as (Hbi & Hsd & Hif & _); [by left|].
    destruct (sdist_started e wd) as (_ & _ & Hrun); [left; by rewrite Hsd|].
    split; [by apply published_release|]. split; [done|]. split; [done|].
    rewrite Hrun in Hsd |- *. rewrite !run_job_trace.
    assert (passed test (job_trace e build_internal (snd (pre_commit_run e wd)))) as Htest.
    { by apply (success_passed _ _ _ _ 14 steps_nodup). }
    split; [|split; [done|]].
    + apply (earlier_passed _ _ _ _ 9 _ 14 steps_nodup);
        [done|done|lia|done|by apply passed_ran].
    + by apply (success_passed _ _ _ _ 4 sdist_nodup).
  - by destruct (untriggered e wd "upload-package" Ht) as [-> _].
Qed.

Lemma publish_after_build_and_test_witness :
  let e := smooth release_published in
  let log := fst (run_workflow e publish_yml nothing) in
  verdict_of log "upload-package" ≠ NotRun
  ∧ (ev_name (event_of e) = "release" ∧ ev_action (event_of e) = "published")
  ∧ verdict_of log "build-internal" = Success
  ∧ verdict_of log "sdist" = Success
  ∧ precedes build_distribution test (trace_of log "build-internal")
  ∧ passed test (trace_of log "build-internal")
  ∧ passed build_source_distribution (trace_of log "sdist").
Proof.
  intros e log.
  assert (verdict_of log "upload-package" ≠ NotRun) as Hv by (vm_compute; discriminate).
  split; [exact Hv|].
  exact (publish_after_build_and_test e nothing Hv).
Defined.




(** C1.  On a published release the pipeline publishes the source
    distribution, and no wheel.  The wheel is uploaded as the artifact
    [internal-build]; the [upload-package] job downloads the artifacts
    named [release-*], of which there is one, [release-sdist].  So every
    file a run adds to the release assets or to the index has a name that
    ends in [.tar.gz], not in [.whl]; and when the job succeeds, the
    source distribution built by [sdist] is among the release assets and
    among the files of the index. *)
Theorem release_publishes_source_distribution (e : env) (wd : world) :
  verdict_of (fst (run_workflow e publish_yml wd)) "upload-package" = Success →
  (ev_name (event_of e) = "release" ∧ ev_action (event_of e) = "published")
  ∧ is_Some (release_assets (snd (run_workflow e publish_yml wd))
               !! (sdist_stem e +:+ ".tar.gz"))
  ∧ is_Some (pypi_files (snd (run_workflow e publish_yml wd))
               !! (sdist_stem e +:+ ".tar.gz"))
  ∧ (∀ x c, release_assets (snd (run_workflow e publish_yml wd)) !! x = Some c →
            release_assets wd !! x = Some c
            ∨ (Text.ends_with ".tar.gz" x = true ∧ Text.ends_with ".whl" x = false))
  ∧ (∀ x c, pypi_files (snd (run_workflow e publish_yml wd)) !! x = Some c →
            pypi_files wd !! x = Some c
            ∨ (Text.ends_with ".tar.gz" x = true ∧ Text.ends_with ".whl" x = false))
  ∧ Glob.seg "release-*" "internal-build" = false
  ∧ uploads sdist = [("release-sdist", ["dist"; "*.tar.gz"])].
Proof.
  intros Hv. split.
  { destruct (triggered e) eqn:Ht.
    - destruct (stage_upload_package e wd Ht) as (Hvd & _ & _). rewrite Hvd in Hv.
      destruct (upload_package_started e wd) as (_ & _ & Hif & _); [left; by rewrite Hv|].
      by apply published_release.
    - destruct (untriggered e wd "upload-package" Ht) as [Hn _]. by rewrite Hn in Hv. }
  destruct (source_distribution_published e wd Hv) as [Hrel Hpy].
  destruct (only_source_distributions e wd) as [Hr Hp].
  split; [done|]. split; [done|]. split; [|split; [|split; by vm_compute]].
  - intros x c [?|Hx]%Hr; [by left|right]. split; [done|by apply no_wheel].
  - intros x c [?|Hx]%Hp; [by left|right]. split; [done|by apply no_wheel].
Qed.

Lemma release_publishes_source_distribution_witness :
  let e := smooth release_published in
  let res := run_workflow e publish_yml nothing in
  verdict_of (fst res) "upload-package" = Success
  ∧ is_Some (release_assets (snd res) !! "datasets_bio-0.1.2.tar.gz")
  ∧ is_Some (pypi_files (snd res) !! "datasets_bio-0.1.2.tar.gz").
Proof.
  intros e res.
  assert (verdict_of (fst res) "upload-package" = Success) as Hv
    by (vm_compute; reflexivity).
  split; [exact Hv|].
  destruct (release_publishes_source_distribution e nothing Hv) as (_ & Hrel & Hpy & _).
  split; [exact Hrel|exact Hpy].
Defined.

(** C1, as the specification words it, fails on a release in which every
    step succeeds: the wheel is built and uploaded as [internal-build],
    the publishing job succeeds, and neither the release assets nor the
    index receive a file whose name ends in [.whl]. *)
Lemma release_without_wheel :
  let e := smooth release_published in
  let res := run_workflow e publish_yml nothing in
  verdict_of (fst res) "upload-package" = Success
  ∧ is_Some (artifacts (snd res) !! "internal-build")
  ∧ ¬ (∃ x, Text.ends_with ".whl" x = true ∧ is_Some (release_assets (snd res) !! x))
  ∧ ¬ (∃ x, Text.ends_with ".whl" x = true ∧ is_Some (pypi_files (snd res) !! x)).
Proof.
  intros e res.
  split; [vm_compute; reflexivity|].
  split; [apply (bool_decide_unpack _); vm_compute; reflexivity|].
  destruct (only_source_distributions e nothing) as [Hr Hp].
  split; intros (x & Hw & [c Hx]).
  - apply Hr in Hx as [Hx|Hx].
    + unfold nothing in Hx. cbn [release_assets] in Hx. by rewrite lookup_empty in Hx.
    + apply no_wheel in Hx. congruence.
  - apply Hp in Hx as [Hx|Hx].
    + unfold nothing in Hx. cbn [pypi_files] in Hx. by rewrite lookup_empty in Hx.
    + apply no_wheel in Hx. congruence.
Qed.

End Claims.

(** * Further properties of the pipeline and of the hooks *)

Module Coverage.
Import Text Syntax Runner Publish Trace Pipeline CacheKey Stages Scenario Cases.
Import Regex Precommit.
Import TextFacts FilesFacts TraceFacts ExecFacts StepFacts CacheKeyFacts BuildInternalFacts.
Import WorkflowFacts ReleaseFacts GatingFacts CacheFacts PublishingFacts RoundTripFacts.
Import HitFacts ExactFacts RawFacts RegexFacts PrecommitFacts.

(** X1.  The workflow runs on three kinds of event and on no other: a pull
    request against [main] that is opened, synchronized or reopened (the
    trigger lists no activity types, so these three are the ones that
    count), a release that has been published, and a manual dispatch.  On
    these the [pre-commit] and [build-internal] jobs both run; on any other
    event, a pull request that is closed, labeled or edited among them, no
    job runs and the world stays as it is. *)
Theorem runs_on_three_events (e : env) (wd : world) :
  ((ev_name (event_of e) = "pull_request"
    ∧ (ev_action (event_of e) = "opened" ∨ ev_action (event_of e) = "synchronize"
       ∨ ev_action (event_of e) = "reopened")
    ∧ ev_base (event_of e) = "main")
   ∨ (ev_name (event_of e) = "release" ∧ ev_action (event_of e) = "published")
   ∨ ev_name (event_of e) = "workflow_dispatch")
  ∧ verdict_of (fst (run_workflow e publish_yml wd)) "pre-commit" ≠ NotRun
  ∧ verdict_of (fst (run_workflow e publish_yml wd)) "build-internal" ≠ NotRun
  ∨ ¬ ((ev_name (event_of e) = "pull_request"
        ∧ (ev_action (event_of e) = "opened" ∨ ev_action (event_of e) = "synchronize"
           ∨ ev_action (event_of e) = "reopened")
        ∧ ev_base (event_of e) = "main")
       ∨ (ev_name (event_of e) = "release" ∧ ev_action (event_of e) = "published")
       ∨ ev_name (event_of e) = "workflow_dispatch")
    ∧ run_workflow e publish_yml wd = ([], wd).
Proof.
  destruct (triggered e) eqn:Ht.
  - left. split; [by apply triggered_iff|].
    destruct (stage_pre_commit e wd Ht) as [-> _].
    destruct (stage_build_internal e wd Ht) as [-> _].
    split; apply run_job_verdict.
  - right. split; [|by apply untriggered_run].
    intros Hw%triggered_iff. congruence.
Qed.

(** X2.  Only a published release publishes: on every other event the
    [upload-package] job is not run, and the release assets and the files on
    the package index are after the run what they were before it. *)
Theorem nothing_published_otherwise (e : env) (wd : world) :
  ¬ (ev_name (event_of e) = "release" ∧ ev_action (event_of e) = "published") →
  verdict_of (fst (run_workflow e publish_yml wd)) "upload-package" = NotRun
  ∧ release_assets (snd (run_workflow e publish_yml wd)) = release_assets wd
  ∧ pypi_files (snd (run_workflow e publish_yml wd)) = pypi_files wd.
Proof.
  intros Hev. destruct (triggered e) eqn:Ht.
  2: { by rewrite untriggered_run. }
  destruct (stage_upload_package e wd Ht) as (-> & _ & ->).
  rewrite upload_package_skipped.
  - rewrite fst_pair, snd_pair. pose proof (before_publishing e wd) as [= -> ->]. done.
  - apply not_a_release. apply triggered_iff in Ht as [[? _]|[?|?]]; tauto.
Qed.

Lemma nothing_published_otherwise_witness :
  let e := smooth pull_request in
  let res := run_workflow e publish_yml nothing in
  verdict_of (fst res) "sdist" = Success
  ∧ verdict_of (fst res) "upload-package" = NotRun
  ∧ release_assets (snd res) = release_assets nothing
  ∧ pypi_files (snd res) = pypi_files nothing.
Proof.
  intros e res. split; [vm_compute; reflexivity|].
  apply (nothing_published_otherwise e nothing). by intros [? _].
Defined.

(** X3.  Lint and tests gate the release.  When the [pre-commit] job or the
    [build-internal] job does not succeed, the [sdist] job is not run, and
    neither is [upload-package], which does not list [pre-commit] among the
    jobs it needs but needs [sdist]; nothing is published. *)
Theorem lint_and_tests_gate_release (e : env) (wd : world) :
  verdict_of (fst (run_workflow e publish_yml wd)) "pre-commit" ≠ Success
  ∨ verdict_of (fst (run_workflow e publish_yml wd)) "build-internal" ≠ Success →
  verdict_of (fst (run_workflow e publish_yml wd)) "sdist" = NotRun
  ∧ verdict_of (fst (run_workflow e publish_yml wd)) "upload-package" = NotRun
  ∧ release_assets (snd (run_workflow e publish_yml wd)) = release_assets wd
  ∧ pypi_files (snd (run_workflow e publish_yml wd)) = pypi_files wd.
Proof.
  destruct (triggered e) eqn:Ht.
  2: { intros _. by rewrite untriggered_run. }
  destruct (stage_pre_commit e wd Ht) as [-> _].
  destruct (stage_build_internal e wd Ht) as [-> _].
  destruct (stage_sdist e wd Ht) as [-> _].
  destruct (stage_upload_package e wd Ht) as (-> & _ & ->).
  intros Hne. pose proof (sdist_gate e wd Hne) as Hsd.
  rewrite upload_package_gate by (by rewrite Hsd).
  rewrite fst_pair, snd_pair. pose proof (before_publishing e wd) as [= -> ->].
  by rewrite Hsd.
Qed.

Lemma lint_and_tests_gate_release_witness :
  let e := failing "pre-commit" 2 0 release_published in
  let res := run_workflow e publish_yml nothing in
  verdict_of (fst res) "pre-commit" = Failure
  ∧ verdict_of (fst res) "build-internal" = Success
  ∧ verdict_of (fst res) "sdist" = NotRun
  ∧ verdict_of (fst res) "upload-package" = NotRun
  ∧ release_assets (snd res) = release_assets nothing
  ∧ pypi_files (snd res) = pypi_files nothing.
Proof.
  intros e res.
  assert (verdict_of (fst res) "pre-commit" = Failure) as Hv by (vm_compute; reflexivity).
  split; [exact Hv|]. split; [vm_compute; reflexivity|].
  apply (lint_and_tests_gate_release e nothing). left.
  fold res. rewrite Hv. discriminate.
Defined.

(** X4.  The tests run in the job that fills the cache, and the cache is
    saved only when that job succeeds.  So when [pytest] fails, the
    [build-internal] job fails and the run leaves the cache as it found it:
    a dictionary processed in that run is not kept for the next one. *)
Theorem failing_tests_lose_cache (e : env) (wd : world) :
  exit_ok e "build-internal" 14 0 = false →
  verdict_of (fst (run_workflow e publish_yml wd)) "build-internal" ≠ Success
  ∧ caches (snd (run_workflow e publish_yml wd)) = caches wd.
Proof.
  intros Hfail. destruct (triggered e) eqn:Ht.
  2: { by rewrite untriggered_run. }
  destruct (stage_build_internal e wd Ht) as [-> _].
  destruct (stage_upload_package e wd Ht) as (_ & _ & ->).
  assert (fst (fst (build_internal_run e wd)) ≠ Success) as Hne.
  { intros Hv%tests_passed. congruence. }
  split; [done|].
  rewrite upload_package_gate by (rewrite sdist_gate by (by right); by rewrite !fst_pair).
  rewrite snd_pair, sdist_gate by (by right). rewrite snd_pair.
  by apply build_internal_failed_caches.
Qed.

Lemma failing_tests_lose_cache_witness :
  let e := failing "build-internal" 14 0 pull_request in
  let res := run_workflow e publish_yml nothing in
  ran build_internal_ccd (trace_of (fst res) "build-internal")
  ∧ verdict_of (fst res) "build-internal" ≠ Success
  ∧ caches (snd res) = caches nothing.
Proof.
  intros e res. split; [apply did_run_ran; vm_compute; reflexivity|].
  by apply (failing_tests_lose_cache e nothing).
Defined.

(** X5.  The cache works across runs.  When the [build-internal] job of a
    run has succeeded, the same job of the next run in the same environment
    (the same checkout, downloads and exit codes) finds the cache entry: it
    succeeds again, and [Build internal CCD] is not run. *)
Theorem rerun_hits_cache (e : env) (wd : world) :
  verdict_of (fst (run_workflow e publish_yml wd)) "build-internal" = Success →
  verdict_of (fst (run_workflow e publish_yml (snd (run_workflow e publish_yml wd))))
    "build-internal" = Success
  ∧ ¬ ran build_internal_ccd
        (trace_of (fst (run_workflow e publish_yml (snd (run_workflow e publish_yml wd))))
           "build-internal").
Proof.
  intros Hv. destruct (triggered e) eqn:Ht.
  2: { by destruct (untriggered e wd "build-internal" Ht) as [Hn _]; rewrite Hn in Hv. }
  destruct (stage_build_internal e wd Ht) as [Hv1 _]. rewrite Hv1 in Hv. clear Hv1.
  rewrite pre_commit_world in Hv.
  pose proof (workflow_caches e wd Ht) as Hc.
  remember (snd (run_workflow e publish_yml wd)) as wd1 eqn:Hwd1. clear Hwd1.
  destruct (stage_build_internal e wd1 Ht) as [-> ->].
  rewrite run_job_trace, pre_commit_world.
  by apply (rerun_job e (with_artifacts wd ∅)).
Qed.

Lemma rerun_hits_cache_witness :
  let e := smooth pull_request in
  let res := run_workflow e publish_yml nothing in
  ran build_internal_ccd (trace_of (fst res) "build-internal")
  ∧ verdict_of (fst (run_workflow e publish_yml (snd res))) "build-internal" = Success
  ∧ ¬ ran build_internal_ccd
        (trace_of (fst (run_workflow e publish_yml (snd res))) "build-internal").
Proof.
  intros e res. split; [apply did_run_ran; vm_compute; reflexivity|].
  apply (rerun_hits_cache e nothing). vm_compute. reflexivity.
Defined.

(** X6.  What the cache holds is always complete.  If [setup_ccd.py] writes
    [components.bcif] and [ccd_residue_dictionary.json], and every entry of
    the cache holds these two files before a run, then so does every entry
    after the run: the entry a run adds is saved from the library directory
    after processing. *)
Theorem cache_entries_stay_complete (e : env) (wd : world) :
  processing_ok e → cache_holds_outputs wd →
  cache_holds_outputs (snd (run_workflow e publish_yml wd)).
Proof.
  intros Hproc Hwd. destruct (triggered e) eqn:Ht.
  2: { by rewrite untriggered_run. }
  unfold cache_holds_outputs. rewrite (workflow_caches e wd Ht).
  by apply (build_internal_cache_holds e (with_artifacts wd ∅)).
Qed.

Lemma cache_entries_stay_complete_witness :
  let e := smooth pull_request in
  processing_ok e ∧ cache_holds_outputs nothing
  ∧ caches (snd (run_workflow e publish_yml nothing)) ≠ ∅
  ∧ cache_holds_outputs (snd (run_workflow e publish_yml nothing)).
Proof.
  intros e. split; [apply Claims.toy_effect_ok|]. split; [apply Claims.nothing_cached|].
  split.
  - apply (bool_decide_unpack _). vm_compute. reflexivity.
  - apply (cache_entries_stay_complete e nothing);
      [apply Claims.toy_effect_ok|apply Claims.nothing_cached].
Defined.

(** X7.  The release and the index receive the same files.  When the
    [upload-package] job succeeds, there is one set of files, the contents
    of [dist/], which holds the source distribution and which the job has
    laid over the release assets and over the files of the index alike. *)
Theorem release_and_index_get_same_files (e : env) (wd : world) :
  verdict_of (fst (run_workflow e publish_yml wd)) "upload-package" = Success →
  ∃ sent : gmap string content,
    release_assets (snd (run_workflow e publish_yml wd)) = sent ∪ release_assets wd
    ∧ pypi_files (snd (run_workflow e publish_yml wd)) = sent ∪ pypi_files wd
    ∧ is_Some (sent !! (sdist_stem e +:+ ".tar.gz")).
Proof.
  destruct (triggered e) eqn:Ht.
  2: { by destruct (untriggered e wd "upload-package" Ht) as [-> _]. }
  destruct (stage_upload_package e wd Ht) as (-> & _ & ->). intros Hv.
  destruct (upload_package_started e wd) as (_ & Hsd & _ & Hrun); [left; by rewrite Hv|].
  destruct (sdist_started e wd) as (_ & _ & Hsrun); [left; by rewrite Hsd|].
  rewrite Hrun in Hv |- *.
  destruct (upload_package_success e _ (sdist_shaped e wd) Hv) as [Hrel Hpy].
  pose proof (before_publishing e wd) as [= Hr Hp].
  eexists. split; [by rewrite Hrel, Hr|]. split; [by rewrite Hpy, Hp|].
  rewrite Hsrun in Hsd |- *.
  destruct (sdist_artifact e _ Hsd) as (fs & Hfs & Hx).
  by apply (dist_has _ fs).
Qed.

Lemma release_and_index_get_same_files_witness :
  let e := smooth release_published in
  let res := run_workflow e publish_yml nothing in
  verdict_of (fst res) "upload-package" = Success
  ∧ ∃ sent : gmap string content,
      release_assets (snd res) = sent ∪ release_assets nothing
      ∧ pypi_files (snd res) = sent ∪ pypi_files nothing
      ∧ is_Some (sent !! "datasets_bio-0.1.2.tar.gz").
Proof.
  intros e res.
  assert (verdict_of (fst res) "upload-package" = Success) as Hv
    by (vm_compute; reflexivity).
  split; [exact Hv|]. exact (release_and_index_get_same_files e nothing Hv).
Defined.

(** X8.  Publishing is not atomic.  On a published release whose [sdist]
    job has succeeded, if the first three steps of [upload-package] end
    well and the upload to the index fails, the job fails with the source
    distribution already attached to the release, and the index as it
    was. *)
Theorem index_failure_leaves_release_assets (e : env) (wd : world) :
  verdict_of (fst (run_workflow e publish_yml wd)) "sdist" = Success →
  ev_name (event_of e) = "release" → ev_action (event_of e) = "published" →
  (∀ i, i < 3 → exit_ok e "upload-package" i 0 = true) →
  exit_ok e "upload-package" 3 0 = false →
  verdict_of (fst (run_workflow e publish_yml wd)) "upload-package" = Failure
  ∧ is_Some (release_assets (snd (run_workflow e publish_yml wd))
               !! (sdist_stem e +:+ ".tar.gz"))
  ∧ pypi_files (snd (run_workflow e publish_yml wd)) = pypi_files wd.
Proof.
  destruct (triggered e) eqn:Ht.
  2: { by destruct (untriggered e wd "sdist" Ht) as [-> _]. }
  destruct (stage_sdist e wd Ht) as [-> _].
  destruct (stage_upload_package e wd Ht) as (-> & _ & ->).
  intros Hsd Hn Ha Hok Hfail.
  rewrite (upload_package_starts e wd Hsd Hn Ha).
  pose proof (before_index_upload e (snd (sdist_run e wd)) Hok) as Hreach.
  cbv zeta in Hreach.
  match type of Hreach with _ = Some (?r, ?w) =>
    assert (exec e (job_id upload_package) 3 upload_to_pypi r w = (None, w)) as Hx
  end.
  { change (job_id upload_package) with "upload-package".
    by rewrite do_upload_to_pypi, Hfail. }
  destruct (run_job_fails_at e upload_package (snd (sdist_run e wd)) 3 upload_to_pypi
              _ _ _ Hreach eq_refl eq_refl Hx) as [Hv Hw].
  rewrite Hv, Hw. split; [done|]. cbn [release_assets pypi_files].
  pose proof (before_publishing e wd) as [= _ Hp]. split; [|done].
  apply lookup_union_is_Some. left.
  rewrite dist_only_matching by apply dist_workspace, sdist_shaped.
  destruct (sdist_started e wd) as (_ & _ & Hsrun); [left; by rewrite Hsd|].
  rewrite Hsrun in Hsd |- *.
  destruct (sdist_artifact e _ Hsd) as (fs & Hfs & Hin).
  by apply (dist_has _ fs).
Qed.

Lemma index_failure_leaves_release_assets_witness :
  let e := failing "upload-package" 3 0 release_published in
  let res := run_workflow e publish_yml nothing in
  verdict_of (fst res) "upload-package" = Failure
  ∧ is_Some (release_assets (snd res) !! "datasets_bio-0.1.2.tar.gz")
  ∧ pypi_files (snd res) = pypi_files nothing.
Proof.
  intros e res.
  apply (index_failure_leaves_release_assets e nothing).
  - vm_compute. reflexivity.
  - reflexivity.
  - reflexivity.
  - intros i Hi. do 3 (destruct i as [|i]; [reflexivity|]). lia.
  - reflexivity.
Defined.

(** X9.  The source distribution bundles the files the tests ran against.
    Whenever [Build source distribution] runs, each of [components.bcif],
    [cc-counts.tdd] and [ccd_residue_dictionary.json] is in the workspace of
    the [sdist] job with the content it had in the workspace of
    [build-internal] when [pytest] started: an upload followed by a
    download gives the file back, at the same path. *)
Theorem sdist_bundles_what_was_tested (e : env) (wd : world) :
  ran build_source_distribution (trace_of (fst (run_workflow e publish_yml wd)) "sdist") →
  ∀ a b p,
    a ∈ trace_of (fst (run_workflow e publish_yml wd)) "build-internal" →
    e_step a = test →
    b ∈ trace_of (fst (run_workflow e publish_yml wd)) "sdist" →
    e_step b = build_source_distribution →
    p ∈ bundled →
    is_Some (ws (e_runner b) !! p) ∧ ws (e_runner b) !! p = ws (e_runner a) !! p.
Proof.
  intros Hran. destruct (triggered e) eqn:Ht.
  2: { destruct (untriggered e wd "sdist" Ht) as [_ Hnil]. rewrite Hnil in Hran.
       destruct Hran as (en & Hin & _). by apply elem_of_nil in Hin. }
  destruct (stage_sdist e wd Ht) as [_ Htr]. rewrite Htr in *. clear Htr.
  destruct (stage_build_internal e wd Ht) as [_ Htr]. rewrite Htr. clear Htr.
  destruct (sdist_started e wd) as (_ & Hbi & Hrun).
  { right. intros Hnil. rewrite Hnil in Hran.
    destruct Hran as (en & Hin & _). by apply elem_of_nil in Hin. }
  rewrite Hrun, !run_job_trace in *. clear Hrun.
  rewrite pre_commit_world in *.
  intros a b p Ha Hsa Hb Hsb Hp.
  destruct (tested_and_uploaded e (with_artifacts wd ∅) a eq_refl Hbi Ha Hsa)
    as (H1 & H2 & H3).
  destruct Hran as (en' & Hin' & Hstep' & Hout).
  destruct (entry_at e sdist (snd (run_job e build_internal (with_artifacts wd ∅)))
              build_source_distribution 4 sdist_nodup eq_refl) as (en0 & _ & _ & Huniq).
  pose proof (Huniq b Hb Hsb) as ->. pose proof (Huniq en' Hin' Hstep') as ->.
  destruct (ran_state e sdist _ build_source_distribution 4 en0 sdist_nodup eq_refl
              Hb Hsb) as [_ Hst]. specialize (Hst Hout).
  change (job_id sdist) with "sdist" in Hst.
  pose proof (sdist_downloads e _ _ _ _ _ _ H1 H2 H3 Hst) as (Hccd & Hfreq & Hdict).
  assert (∃ c1 c2 c3, ws (e_runner en0) = with_outputs e c1 c2 c3) as (c1 & c2 & c3 & Hws).
  { apply before_sdist_build in Hst as [_ ?]; [done|].
    intros name fs Hfs. eapply (build_internal_artifacts e (with_artifacts wd ∅)); [|done].
    apply lookup_empty. }
  split; [rewrite Hws; by apply with_outputs_bundled|].
  unfold bundled in Hp. repeat (apply elem_of_cons in Hp as [->|Hp]); [done..|].
  by apply elem_of_nil in Hp.
Qed.

Lemma sdist_bundles_what_was_tested_witness :
  let e := smooth pull_request in
  let log := fst (run_workflow e publish_yml nothing) in
  ran build_source_distribution (trace_of log "sdist")
  ∧ ∀ a b p,
      a ∈ trace_of log "build-internal" → e_step a = test →
      b ∈ trace_of log "sdist" → e_step b = build_source_distribution →
      p ∈ bundled →
      is_Some (ws (e_runner b) !! p) ∧ ws (e_runner b) !! p = ws (e_runner a) !! p.
Proof.
  intros e log.
  assert (ran build_source_distribution (trace_of log "sdist")) as Hran
    by (apply did_run_ran; vm_compute; reflexivity).
  split; [exact Hran|]. exact (sdist_bundles_what_was_tested e nothing Hran).
Defined.

(** X10.  On a cache hit the job goes on with the cached dictionary: when
    the lookup finds an entry that holds [components.bcif], that file, and
    not one processed in this run, is in the workspace when the tests
    start. *)
Theorem cache_hit_ships_cached_dictionary (e : env) (wd : world) :
  ran test (trace_of (fst (run_workflow e publish_yml wd)) "build-internal") →
  ∀ en a saved c,
    en ∈ trace_of (fst (run_workflow e publish_yml wd)) "build-internal" →
    e_step en = cache_ccd →
    caches wd !! key e (ws (e_runner en)) = Some saved → saved !! ccd = Some c →
    a ∈ trace_of (fst (run_workflow e publish_yml wd)) "build-internal" →
    e_step a = test →
    ws (e_runner a) !! ccd = Some c.
Proof.
  intros Hran. destruct (triggered e) eqn:Ht.
  2: { destruct (untriggered e wd "build-internal" Ht) as [_ Hnil]. rewrite Hnil in Hran.
       destruct Hran as (en & Hin & _). by apply elem_of_nil in Hin. }
  destruct (stage_build_internal e wd Ht) as [_ Htr]. rewrite Htr in *. clear Htr.
  rewrite run_job_trace, pre_commit_world in *.
  intros en a saved c Hen Hsen Hhit Hc Ha Hsa.
  destruct Hran as (a' & Ha' & Hsa' & Hout).
  destruct (entry_at e build_internal (with_artifacts wd ∅) test 14 steps_nodup eq_refl)
    as (a0 & _ & _ & Huniq).
  pose proof (Huniq a Ha Hsa) as ->. pose proof (Huniq a' Ha' Hsa') as ->.
  destruct (ran_state e build_internal _ test 14 a0 steps_nodup eq_refl Ha Hsa)
    as [_ Hst]. specialize (Hst Hout).
  assert (ran cache_ccd (job_trace e build_internal (with_artifacts wd ∅))) as Hcache.
  { eapply passed_ran, precedes_passed.
    apply (earlier_passed e build_internal _ cache_ccd 5 test 14 steps_nodup);
      [done|done|lia|done|]. by exists a0. }
  destruct Hcache as (en' & Hen' & Hsen' & Hout').
  destruct (entry_at e build_internal (with_artifacts wd ∅) cache_ccd 5 steps_nodup eq_refl)
    as (en0 & _ & _ & Huniq').
  pose proof (Huniq' en Hen Hsen) as ->. pose proof (Huniq' en' Hen' Hsen') as ->.
  destruct (ran_state e build_internal _ cache_ccd 5 en0 steps_nodup eq_refl Hen Hsen)
    as [_ Hst5]. specialize (Hst5 Hout').
  change (job_id build_internal) with "build-internal" in Hst, Hst5.
  destruct (before_cache e _ _ _ Hst5) as (Hw & _). rewrite Hw in Hst5.
  by apply (hit_ships e (with_artifacts wd ∅) (e_runner en0) saved c (e_runner a0)
              (e_world a0) Hst5).
Qed.

Lemma cache_hit_ships_cached_dictionary_witness :
  let e := smooth pull_request in
  let wd := snd (run_workflow e publish_yml nothing) in
  let tr := trace_of (fst (run_workflow e publish_yml wd)) "build-internal" in
  ran test tr
  ∧ ¬ ran build_internal_ccd tr
  ∧ ∀ en a saved c,
      en ∈ tr → e_step en = cache_ccd →
      caches wd !! key e (ws (e_runner en)) = Some saved → saved !! ccd = Some c →
      a ∈ tr → e_step a = test →
      ws (e_runner a) !! ccd = Some c.
Proof.
  intros e wd tr.
  assert (ran test tr) as Hran by (apply did_run_ran; vm_compute; reflexivity).
  split; [exact Hran|]. split.
  - intros H%ran_did_run. revert H. vm_compute. discriminate.
  - exact (cache_hit_ships_cached_dictionary e wd Hran).
Defined.

(** X11.  Every hook leaves the vendored package alone: a file whose path
    begins with [src/bio_datasets/structure/pdbx] is given to none of the
    six hooks. *)
Theorem every_hook_skips_pdbx (h : hook) (path : string) :
  h ∈ pre_commit_config → starts_with pdbx path = true → skips h path = true.
Proof.
  intros Hh Hp. unfold pre_commit_config in Hh.
  repeat (apply elem_of_cons in Hh as [->|Hh]); [..|by apply elem_of_nil in Hh].
  - rewrite skips_isort, Hp. apply orb_true_r.
  - rewrite skips_black, Hp. apply orb_true_r.
  - rewrite (skips_fixers check_yaml), Hp; [apply orb_true_r|]. rewrite !elem_of_cons. auto.
  - rewrite (skips_fixers end_of_file_fixer), Hp; [apply orb_true_r|].
    rewrite !elem_of_cons. auto.
  - rewrite (skips_fixers trailing_whitespace), Hp; [apply orb_true_r|].
    rewrite !elem_of_cons. auto.
  - rewrite skips_flake8, Hp. apply orb_true_r.
Qed.

Lemma every_hook_skips_pdbx_witness :
  flake8 ∈ pre_commit_config
  ∧ starts_with pdbx "src/bio_datasets/structure/pdbx/convert.py" = true
  ∧ skips flake8 "src/bio_datasets/structure/pdbx/convert.py" = true.
Proof.
  assert (flake8 ∈ pre_commit_config) as Hh.
  { unfold pre_commit_config. rewrite !elem_of_cons. auto 10. }
  split; [exact Hh|]. split; [reflexivity|].
  exact (every_hook_skips_pdbx flake8 "src/bio_datasets/structure/pdbx/convert.py" Hh
           eq_refl).
Defined.

(** X12.  What each [exclude] pattern comes to, for every path.  [^text]
    asks for a path that begins with the text (so [^data] also covers
    [database.py]); [.*\.cif], which has no [$], for a path in which [.cif]
    occurs anywhere, such as a [.cif.gz] file; [.*\.cif$] for a path that
    ends with [.cif] (or with [.cif] and a newline).  So [black] skips
    every path that contains [.cif], the three fixers only those that end
    with it. *)
Theorem what_the_hooks_skip (path : string) :
  skips isort path = starts_with "data" path || starts_with pdbx path
  ∧ skips black path
    = starts_with "data" path
      || (Text.ends_with ".pdb" path
          || Text.ends_with (".pdb" +:+ String newline "") path)
      || contains ".cif" path || contains ".bcif" path || starts_with pdbx path
  ∧ (∀ h, h ∈ [check_yaml; end_of_file_fixer; trailing_whitespace] →
       skips h path
       = starts_with "data" path
         || (Text.ends_with ".pdb" path
             || Text.ends_with (".pdb" +:+ String newline "") path)
         || (Text.ends_with ".cif" path
             || Text.ends_with (".cif" +:+ String newline "") path)
         || contains ".bcif" path || starts_with protein_library path
         || starts_with pdbx path)
  ∧ skips flake8 path = starts_with "examples" path || starts_with pdbx path.
Proof.
  split; [apply skips_isort|]. split; [apply skips_black|].
  split; [intros h Hh; by apply skips_fixers|apply skips_flake8].
Qed.

(** X13.  Exactly what a release publishes.  When the [upload-package] job
    succeeds, a file that is among the release assets after the run was
    there before, or it is the source distribution the [sdist] job has
    built, or it is a [.tar.gz] file that the repository itself carries in
    [dist/]; and every such file whose name is an ordinary one, not hidden
    behind a leading dot, is among the release assets after the run.
    Likewise for the files on the index. *)
Theorem exactly_what_is_published (e : env) (wd : world) :
  verdict_of (fst (run_workflow e publish_yml wd)) "upload-package" = Success →
  ∀ x,
    (is_Some (release_assets (snd (run_workflow e publish_yml wd)) !! x) →
     is_Some (release_assets wd !! x)
     ∨ Text.ends_with ".tar.gz" x = true
       ∧ (x = sdist_stem e +:+ ".tar.gz" ∨ is_Some (repo e !! ["dist"; x])))
    ∧ (is_Some (pypi_files (snd (run_workflow e publish_yml wd)) !! x) →
       is_Some (pypi_files wd !! x)
       ∨ Text.ends_with ".tar.gz" x = true
         ∧ (x = sdist_stem e +:+ ".tar.gz" ∨ is_Some (repo e !! ["dist"; x])))
    ∧ (ordinary x = true →
       (is_Some (release_assets wd !! x)
        ∨ Text.ends_with ".tar.gz" x = true
          ∧ (x = sdist_stem e +:+ ".tar.gz" ∨ is_Some (repo e !! ["dist"; x])) →
        is_Some (release_assets (snd (run_workflow e publish_yml wd)) !! x))
       ∧ (is_Some (pypi_files wd !! x)
          ∨ Text.ends_with ".tar.gz" x = true
            ∧ (x = sdist_stem e +:+ ".tar.gz" ∨ is_Some (repo e !! ["dist"; x])) →
          is_Some (pypi_files (snd (run_workflow e publish_yml wd)) !! x))).
Proof.
  destruct (triggered e) eqn:Ht.
  2: { by destruct (untriggered e wd "upload-package" Ht) as [-> _]. }
  destruct (stage_upload_package e wd Ht) as (-> & _ & ->). intros Hv x.
  destruct (published_files e wd Hv) as (sent & -> & -> & Hsent).
  rewrite !lookup_union_is_Some, Hsent. tauto.
Qed.

Lemma exactly_what_is_published_witness :
  let e := smooth release_published in
  let res := run_workflow e publish_yml nothing in
  verdict_of (fst res) "upload-package" = Success
  ∧ (ordinary "datasets_bio-0.1.2.tar.gz" = true
     ∧ Text.ends_with ".tar.gz" "datasets_bio-0.1.2.tar.gz" = true
     ∧ "datasets_bio-0.1.2.tar.gz" = sdist_stem e +:+ ".tar.gz")
  ∧ is_Some (release_assets (snd res) !! "datasets_bio-0.1.2.tar.gz")
  ∧ is_Some (pypi_files (snd res) !! "datasets_bio-0.1.2.tar.gz").
Proof.
  intros e res.
  assert (verdict_of (fst res) "upload-package" = Success) as Hv
    by (vm_compute; reflexivity).
  assert (ordinary "datasets_bio-0.1.2.tar.gz" = true
          ∧ Text.ends_with ".tar.gz" "datasets_bio-0.1.2.tar.gz" = true
          ∧ "datasets_bio-0.1.2.tar.gz" = sdist_stem e +:+ ".tar.gz") as Hx
    by (vm_compute; repeat split; reflexivity).
  split; [exact Hv|]. split; [exact Hx|].
  destruct (proj2 (proj2 (exactly_what_is_published e nothing Hv "datasets_bio-0.1.2.tar.gz"))
              (proj1 Hx)) as [Hrel Hpypi].
  split; [apply Hrel|apply Hpypi];
    (right; split; [exact (proj1 (proj2 Hx))|]; left; exact (proj2 (proj2 Hx))).
Defined.

(** X14.  The raw dictionary is never cached.  The cache is saved when the
    job ends, after [components.cif.gz] has been removed from the library
    directory: if no cache entry holds that file before a run, none does
    after it. *)
Theorem raw_ccd_never_cached (e : env) (wd : world) :
  cache_without_raw wd → cache_without_raw (snd (run_workflow e publish_yml wd)).
Proof.
  intros Hwd. destruct (triggered e) eqn:Ht.
  2: { by rewrite untriggered_run. }
  unfold cache_without_raw. rewrite (workflow_caches e wd Ht).
  by apply (build_internal_cache_without_raw e (with_artifacts wd ∅)).
Qed.

Lemma raw_ccd_never_cached_witness :
  let e := smooth pull_request in
  cache_without_raw nothing
  ∧ caches (snd (run_workflow e publish_yml nothing)) ≠ ∅
  ∧ cache_without_raw (snd (run_workflow e publish_yml nothing)).
Proof.
  intros e.
  assert (cache_without_raw nothing) as Hn.
  { intros key fs Hkey. unfold nothing in Hkey. cbn [caches] in Hkey.
    by rewrite lookup_empty in Hkey. }
  split; [exact Hn|]. split.
  - apply (bool_decide_unpack _). vm_compute. reflexivity.
  - exact (raw_ccd_never_cached e nothing Hn).
Defined.

End Coverage.
